(** * Contact book API: validation, error mapping and service orchestration

    A shallow embedding of the backend of the contact book application:
    - [backend/middleware/validation.js]   (module [Validation]),
    - [backend/middleware/errorHandler.js] (module [ErrorHandler]),
    - [backend/repositories/contactRepository.js] (module [Repository]),
    - [backend/services/contactService.js] (module [Service]),
    - [backend/controllers/contactController.js] and
      [backend/routes/contacts.js]         (module [Routes]),
    - [backend/config/database.js] with the table of [backend/init.sql]
      (module [Db]),
    - [frontend/src/components/ContactForm.tsx] (module [Form]) and
      [transformError] of the frontend's API client (module [Client]).

    JavaScript strings are modelled by [string]: a sequence of code units,
    here the code units below 256.  The built-in operations the program
    calls ([trim], [length], [includes], [toLowerCase], [RegExp.test],
    [parseInt], [Number.prototype.toString]) are defined in module [JS]
    following ECMA-262. *)

From Stdlib Require Import ZArith String Ascii List Bool Lia.
From stdpp Require Import base option list gmap strings.

Local Open Scope string_scope.
Local Open Scope Z_scope.

(* ===================================================================== *)
(** * The JavaScript fragment used by the program *)
(* ===================================================================== *)

Module JS.

(** ** Code units and character classes *)

Definition code (c : ascii) : Z := Z.of_nat (nat_of_ascii c).

(** [\d] *)
Definition is_digit (c : ascii) : bool := (48 <=? code c) && (code c <=? 57).

(** [\s], which is also the set of characters [trim] strips: WhiteSpace and
    LineTerminator (TAB, LF, VT, FF, CR, SP, NBSP below 256). *)
Definition is_space (c : ascii) : bool :=
  ((9 <=? code c) && (code c <=? 13)) || (code c =? 32) || (code c =? 160).

(** ** Strings *)

Fixpoint all_chars (p : ascii -> bool) (s : string) : bool :=
  match s with
  | EmptyString => true
  | String c s' => p c && all_chars p s'
  end.

Fixpoint filter_chars (p : ascii -> bool) (s : string) : string :=
  match s with
  | EmptyString => EmptyString
  | String c s' => if p c then String c (filter_chars p s') else filter_chars p s'
  end.

Definition is_empty (s : string) : bool :=
  match s with EmptyString => true | _ => false end.

Fixpoint trimStart (s : string) : string :=
  match s with
  | EmptyString => EmptyString
  | String c s' => if is_space c then trimStart s' else s
  end.

Fixpoint trimEnd (s : string) : string :=
  match s with
  | EmptyString => EmptyString
  | String c s' =>
      let t := trimEnd s' in
      if is_space c && is_empty t then EmptyString else String c t
  end.

(** [s.trim()] *)
Definition trim (s : string) : string := trimEnd (trimStart s).

Fixpoint starts_with (p s : string) : bool :=
  match p, s with
  | EmptyString, _ => true
  | String a p', String b s' => Ascii.eqb a b && starts_with p' s'
  | String _ _, EmptyString => false
  end.

(** [s.includes(p)] *)
Fixpoint includes (s p : string) : bool :=
  starts_with p s ||
  match s with
  | EmptyString => false
  | String _ s' => includes s' p
  end.

(** [toLowerCase] on one code unit below 256: A-Z, and the Latin-1 capitals
    U+00C0-U+00DE except the multiplication sign U+00D7. *)
Definition lower_char (c : ascii) : ascii :=
  let n := code c in
  if ((65 <=? n) && (n <=? 90)) ||
     ((192 <=? n) && (n <=? 222) && negb (n =? 215))
  then ascii_of_nat (Z.to_nat (n + 32)) else c.

Fixpoint toLowerCase (s : string) : string :=
  match s with
  | EmptyString => EmptyString
  | String c s' => String (lower_char c) (toLowerCase s')
  end.

Fixpoint repeat_char (c : ascii) (n : nat) : string :=
  match n with
  | O => EmptyString
  | S n' => String c (repeat_char c n')
  end.

(** ** Regular expressions

    The patterns of the program are anchored ([^...$]) and use character
    classes, literals, concatenation and [+] only, so [test] decides whether
    the whole string belongs to the language of the pattern.  Membership is
    computed with derivatives. *)

Inductive regex : Type :=
| Void : regex
| Eps : regex
| Cls (p : ascii -> bool) : regex
| Cat (r1 r2 : regex) : regex
| Alt (r1 r2 : regex) : regex
| Star (r : regex) : regex.

Definition Lit (c : ascii) : regex := Cls (Ascii.eqb c).
Definition Plus (r : regex) : regex := Cat r (Star r).

Fixpoint nullable (r : regex) : bool :=
  match r with
  | Void => false
  | Eps => true
  | Cls _ => false
  | Cat r1 r2 => nullable r1 && nullable r2
  | Alt r1 r2 => nullable r1 || nullable r2
  | Star _ => true
  end.

Fixpoint deriv (c : ascii) (r : regex) : regex :=
  match r with
  | Void => Void
  | Eps => Void
  | Cls p => if p c then Eps else Void
  | Cat r1 r2 =>
      if nullable r1 then Alt (Cat (deriv c r1) r2) (deriv c r2)
      else Cat (deriv c r1) r2
  | Alt r1 r2 => Alt (deriv c r1) (deriv c r2)
  | Star r1 => Cat (deriv c r1) (Star r1)
  end.

(** [/^r$/.test(s)] *)
Fixpoint test (r : regex) (s : string) : bool :=
  match s with
  | EmptyString => nullable r
  | String c s' => test (deriv c r) s'
  end.

(** The language of a pattern, as ECMA-262 reads it: the strings the
    pattern matches from the first to the last code unit. *)
Inductive lang : regex -> string -> Prop :=
| lang_eps : lang Eps EmptyString
| lang_cls p c : p c = true -> lang (Cls p) (String c EmptyString)
| lang_cat r1 r2 s1 s2 : lang r1 s1 -> lang r2 s2 -> lang (Cat r1 r2) (s1 ++ s2)
| lang_alt_l r1 r2 s : lang r1 s -> lang (Alt r1 r2) s
| lang_alt_r r1 r2 s : lang r2 s -> lang (Alt r1 r2) s
| lang_star_nil r : lang (Star r) EmptyString
| lang_star_app r s1 s2 :
    lang r s1 -> lang (Star r) s2 -> lang (Star r) (s1 ++ s2).

(** ** Numbers

    The numbers the program computes with are results of [parseInt]: NaN,
    an infinity, or a double whose value is an integer, given by that
    integer.  Negative zero is [Finite 0]: it prints as "0" and satisfies
    [<= 0] like zero. *)

Inductive number : Type :=
| NaN : number
| Infinity (negative : bool) : number
| Finite (z : Z) : number.

(** The double nearest to the integer [z] (round to nearest, ties to even;
    overflow to an infinity). *)
Definition round_double (z : Z) : number :=
  let a := Z.abs z in
  if a <? 2 ^ 53 then Finite z
  else
    let e := Z.log2 a - 52 in
    let q := a / 2 ^ e in
    let r := a mod 2 ^ e in
    let half := 2 ^ (e - 1) in
    let q' := if r <? half then q
              else if half <? r then q + 1
              else if Z.even q then q else q + 1 in
    let m := q' * 2 ^ e in
    if m <? 2 ^ 1024 then Finite (Z.sgn z * m) else Infinity (z <? 0).

Definition digit_char (d : Z) : ascii := ascii_of_nat (Z.to_nat (48 + d)).
Definition digit_val (c : ascii) : Z := code c - 48.

Fixpoint digits_of (fuel : nat) (z : Z) (acc : string) : string :=
  match fuel with
  | O => acc
  | S f =>
      let acc' := String (digit_char (z mod 10)) acc in
      if z <? 10 then acc' else digits_of f (z / 10) acc'
  end.

(** The decimal digits of a non-negative integer, without leading zeros. *)
Definition decimal (z : Z) : string :=
  digits_of (S (Z.to_nat (Z.log2 z))) z EmptyString.

Fixpoint digits_value (acc : Z) (s : string) : Z :=
  match s with
  | EmptyString => acc
  | String c s' => digits_value (10 * acc + digit_val c) s'
  end.

Fixpoint take_digits (s : string) : string :=
  match s with
  | EmptyString => EmptyString
  | String c s' => if is_digit c then String c (take_digits s') else EmptyString
  end.

(** [parseInt(s, 10)]: skip leading white space, read an optional sign,
    then the longest prefix of decimal digits; NaN when there is none. *)
Definition parseInt10 (s : string) : number :=
  let s1 := trimStart s in
  let '(neg, s2) :=
    match s1 with
    | String "-" r => (true, r)
    | String "+" r => (false, r)
    | _ => (false, s1)
    end in
  let ds := take_digits s2 in
  if is_empty ds then NaN
  else
    let v := digits_value 0 ds in
    round_double (if neg then - v else v).

(** *** Number.prototype.toString

    For a positive double [v], ECMA-262 picks integers [n], [k], [s] with
    [10^(k-1) <= s < 10^k], such that [s * 10^(n-k)] rounds to [v], [k] as
    small as possible, and then [s * 10^(n-k)] as close to [v] as possible
    (an even [s] on a tie). *)

Definition num_digits (z : Z) : Z := Z.of_nat (String.length (decimal z)).

Definition rounds_to (m v : Z) : bool :=
  match round_double m with
  | Finite r => r =? v
  | _ => false
  end.

Definition candidate_ok (v k : Z) (c : Z * Z) : bool :=
  let '(s, n) := c in
  (10 ^ (k - 1) <=? s) && (s <? 10 ^ k) && (k <=? n) &&
  rounds_to (s * 10 ^ (n - k)) v.

Definition proposals (v k n : Z) : list (Z * Z) :=
  let q := v / 10 ^ (n - k) in [(q, n); (q + 1, n)].

Definition candidates (v k : Z) : list (Z * Z) :=
  let nd := num_digits v in
  List.filter (candidate_ok v k) (proposals v k nd ++ proposals v k (nd + 1)).

Definition distance (v k : Z) (c : Z * Z) : Z :=
  Z.abs (fst c * 10 ^ (snd c - k) - v).

Definition closer (v k : Z) (a b : Z * Z) : Z * Z :=
  let da := distance v k a in
  let db := distance v k b in
  if da <? db then a
  else if db <? da then b
  else if Z.even (fst a) then a else b.

Definition pick (v k : Z) (cs : list (Z * Z)) : option (Z * Z) :=
  match cs with
  | [] => None
  | c :: cs' => Some (fold_left (closer v k) cs' c)
  end.

Fixpoint shortest_from (fuel : nat) (v k : Z) : Z * Z * Z :=
  match fuel with
  | O => (v, num_digits v, num_digits v)
  | S f =>
      match pick v k (candidates v k) with
      | Some (s, n) => (s, k, n)
      | None => shortest_from f v (k + 1)
      end
  end.

(** [(s, k, n)] for the positive double [v]; seventeen digits always
    identify a double. *)
Definition shortest (v : Z) : Z * Z * Z := shortest_from 17 v 1.

Definition positive_to_string (v : Z) : string :=
  let '(s, k, n) := shortest v in
  let ds := decimal s in
  if n <=? 21 then ds ++ repeat_char "0" (Z.to_nat (n - k))
  else
    match ds with
    | String d EmptyString => String d ("e+" ++ decimal (n - 1))
    | String d rest => String d ("." ++ rest ++ "e+" ++ decimal (n - 1))
    | EmptyString => EmptyString
    end.

(** [x.toString()] for a number [x]. *)
Definition number_to_string (x : number) : string :=
  match x with
  | NaN => "NaN"
  | Infinity neg => if neg then "-Infinity" else "Infinity"
  | Finite z =>
      if z =? 0 then "0"
      else if z <? 0 then "-" ++ positive_to_string (- z)
      else positive_to_string z
  end.

(** [isNaN(x)] and [x <= 0] on numbers. *)
Definition isNaN (x : number) : bool :=
  match x with NaN => true | _ => false end.

Definition le_zero (x : number) : bool :=
  match x with
  | NaN => false
  | Infinity neg => neg
  | Finite z => z <=? 0
  end.

(** ** Values of a JSON request body

    Numbers are the integer-valued ones (with NaN and the infinities);
    [VObj] stands for a plain object without [length], [toString] or
    [valueOf] properties of its own. *)

#[warnings="-register-all"]
Inductive value : Type :=
| VUndefined : value
| VNull : value
| VBool (b : bool) : value
| VNum (x : number) : value
| VStr (s : string) : value
| VArr (xs : list value) : value
| VObj : value.

(** Truthiness: [if (v)], [!v], [v || d]. *)
Definition truthy (v : value) : bool :=
  match v with
  | VUndefined | VNull => false
  | VBool b => b
  | VNum NaN => false
  | VNum (Infinity _) => true
  | VNum (Finite z) => negb (z =? 0)
  | VStr s => negb (is_empty s)
  | VArr _ | VObj => true
  end.

(** [typeof v === 'string'] *)
Definition is_string (v : value) : bool :=
  match v with VStr _ => true | _ => false end.

(** [v !== undefined && v !== null && v !== ''] *)
Definition provided (v : value) : bool :=
  match v with
  | VUndefined | VNull => false
  | VStr s => negb (is_empty s)
  | _ => true
  end.

Fixpoint join (sep : string) (l : list string) : string :=
  match l with
  | [] => EmptyString
  | [x] => x
  | x :: l' => x ++ sep ++ join sep l'
  end.

(** [String(v)], the conversion [RegExp.prototype.test] applies to its
    argument; an array joins its elements with commas, printing [null] and
    [undefined] elements as the empty string. *)
Fixpoint to_string (v : value) : string :=
  match v with
  | VUndefined => "undefined"
  | VNull => "null"
  | VBool b => if b then "true" else "false"
  | VNum x => number_to_string x
  | VStr s => s
  | VArr xs =>
      join ","
        (List.map (fun x => match x with
                            | VUndefined | VNull => EmptyString
                            | _ => to_string x
                            end) xs)
  | VObj => "[object Object]"
  end.

(** [v.length]: defined for strings and arrays, [undefined] on the other
    values that pass [provided]. *)
Definition length_of (v : value) : option nat :=
  match v with
  | VStr s => Some (String.length s)
  | VArr xs => Some (List.length xs)
  | _ => None
  end.

(** [v.length > n]; a comparison with [undefined] is false. *)
Definition length_gt (v : value) (n : nat) : bool :=
  match length_of v with
  | Some l => (n <? l)%nat
  | None => false
  end.

End JS.


(* ===================================================================== *)
(** * Shared shapes: payloads, violations, errors, responses *)
(* ===================================================================== *)

(** One entry of a [details] array: [{ field, message }]. *)
Record violation : Type := Violation { field : string; message : string }.

(** The request body of POST and PUT, read through its six properties; a
    property that is absent reads [undefined]. *)
Record payload : Type := Payload {
  firstName : JS.value;
  lastName : JS.value;
  email : JS.value;
  phone : JS.value;
  company : JS.value;
  notes : JS.value
}.

(** A thrown error object, read through the properties the program
    inspects; an absent property is [None] ([false] for [isOperational]). *)
Record js_error : Type := JsError {
  err_message : option string;
  err_statusCode : option Z;
  err_status : option Z;
  err_code : option string;
  err_isOperational : bool;
  err_details : option (list violation);
  err_stack : option string
}.

(** [new Error(msg)]; of the stack trace only the first line is kept. *)
Definition new_Error (msg : string) : js_error :=
  {| err_message := Some msg; err_statusCode := None; err_status := None;
     err_code := None; err_isOperational := false; err_details := None;
     err_stack := Some ("Error: " +:+ msg) |}.

Definition with_statusCode (e : js_error) (c : Z) : js_error :=
  {| err_message := err_message e; err_statusCode := Some c;
     err_status := err_status e; err_code := err_code e;
     err_isOperational := err_isOperational e; err_details := err_details e;
     err_stack := err_stack e |}.

Definition with_details (e : js_error) (d : list violation) : js_error :=
  {| err_message := err_message e; err_statusCode := err_statusCode e;
     err_status := err_status e; err_code := err_code e;
     err_isOperational := err_isOperational e; err_details := Some d;
     err_stack := err_stack e |}.

(** The error raised by reading a property of [undefined]. *)
Definition TypeError (msg : string) : js_error :=
  {| err_message := Some msg; err_statusCode := None; err_status := None;
     err_code := None; err_isOperational := false; err_details := None;
     err_stack := Some ("TypeError: " +:+ msg) |}.

(** A computation that returns or throws. *)
Inductive outcome (A : Type) : Type :=
| Return (a : A) : outcome A
| Throw (e : js_error) : outcome A.
Arguments Return {A} a.
Arguments Throw {A} e.

(** A contact as the repository returns it. *)
Module Contact.
Record t : Type := Make {
  id : Z;
  firstName : JS.value;
  lastName : JS.value;
  email : JS.value;
  phone : JS.value;
  company : JS.value;
  notes : JS.value;
  createdAt : Z;
  updatedAt : Z
}.
End Contact.

(** The JSON body of an error response. *)
Record error_body : Type := ErrorBody {
  error : option string;
  details : option (list violation);
  stack : option string;
  originalMessage : option string
}.

(** What a response carries: the JSON of an error, the JSON of a contact,
    nothing, or the HTML page Express writes itself when no handler of the
    application answers an error. *)
Inductive body : Type :=
| BodyError (e : error_body) : body
| BodyContact (c : Contact.t) : body
| BodyEmpty : body
| BodyPage : body.

Record response : Type := Response { status : Z; json : body }.

(** What a middleware does: answer, or pass to the next handler. *)
Inductive middleware_result : Type :=
| Respond (r : response) : middleware_result
| Next : middleware_result.

Definition validation_failed (errors : list violation) : response :=
  {| status := 400;
     json := BodyError {| error := Some "Validation failed";
                          details := Some errors;
                          stack := None; originalMessage := None |} |}.

(* ===================================================================== *)
(** * backend/middleware/validation.js *)
(* ===================================================================== *)

Module Validation.
Import JS.

(** [[^\s@]] *)
Definition email_char (c : ascii) : bool := negb (is_space c || Ascii.eqb c "@").

(** [/^[^\s@]+@[^\s@]+\.[^\s@]+$/] *)
Definition emailRegex : regex :=
  Cat (Plus (Cls email_char))
    (Cat (Lit "@")
       (Cat (Plus (Cls email_char))
          (Cat (Lit ".") (Plus (Cls email_char))))).

Definition isValidEmail (email : string) : bool := test emailRegex email.

(** [[\d\s\-\+\(\)]] *)
Definition phone_char (c : ascii) : bool :=
  is_digit c || is_space c || Ascii.eqb c "-" || Ascii.eqb c "+" ||
  Ascii.eqb c "(" || Ascii.eqb c ")".

(** [/^[\d\s\-\+\(\)]+$/] *)
Definition phoneRegex : regex := Plus (Cls phone_char).

(** [phone.replace(/\D/g, '')] keeps the digits. *)
Definition isValidPhone (phone : string) : bool :=
  test phoneRegex phone &&
  (10 <=? String.length (filter_chars is_digit phone))%nat.

Definition check_firstName (v : value) : list violation :=
  if negb (truthy v) then
    [Violation "firstName" "First name is required"]
  else match v with
       | VStr s =>
           if (String.length (trim s) =? 0)%nat then
             [Violation "firstName" "First name cannot be empty"]
           else if (50 <? String.length s)%nat then
             [Violation "firstName" "First name must not exceed 50 characters"]
           else []
       | _ => [Violation "firstName" "First name must be a string"]
       end.

Definition check_lastName (v : value) : list violation :=
  if negb (truthy v) then
    [Violation "lastName" "Last name is required"]
  else match v with
       | VStr s =>
           if (String.length (trim s) =? 0)%nat then
             [Violation "lastName" "Last name cannot be empty"]
           else if (50 <? String.length s)%nat then
             [Violation "lastName" "Last name must not exceed 50 characters"]
           else []
       | _ => [Violation "lastName" "Last name must be a string"]
       end.

Definition check_email (v : value) : list violation :=
  if provided v then
    match v with
    | VStr s =>
        if negb (isValidEmail s) then
          [Violation "email" "Invalid email format"]
        else []
    | _ => [Violation "email" "Email must be a string"]
    end
  else [].

Definition check_phone (v : value) : list violation :=
  if provided v then
    match v with
    | VStr s =>
        if negb (isValidPhone s) then
          [Violation "phone" "Invalid phone format"]
        else []
    | _ => [Violation "phone" "Phone must be a string"]
    end
  else [].

Definition check_company (v : value) : list violation :=
  if provided v then
    match v with
    | VStr s =>
        if (100 <? String.length s)%nat then
          [Violation "company" "Company must not exceed 100 characters"]
        else []
    | _ => [Violation "company" "Company must be a string"]
    end
  else [].

Definition check_notes (v : value) : list violation :=
  if provided v then
    match v with
    | VStr s =>
        if (500 <? String.length s)%nat then
          [Violation "notes" "Notes must not exceed 500 characters"]
        else []
    | _ => [Violation "notes" "Notes must be a string"]
    end
  else [].

(** The [errors] array of [validateContact] once the six blocks have run:
    each block pushes at most one entry. *)
Definition validateContact_errors (p : payload) : list violation :=
  check_firstName (firstName p) ++ check_lastName (lastName p) ++
  check_email (email p) ++ check_phone (phone p) ++
  check_company (company p) ++ check_notes (notes p).

Definition validateContact (p : payload) : middleware_result :=
  let errors := validateContact_errors p in
  if (0 <? List.length errors)%nat then Respond (validation_failed errors)
  else Next.

(** [req.params.id] is a string, or absent. *)
Definition validateId (id : option string) : middleware_result :=
  match id with
  | None | Some EmptyString =>
      Respond (validation_failed [Violation "id" "ID parameter is required"])
  | Some id =>
      let parsedId := parseInt10 id in
      if isNaN parsedId || le_zero parsedId ||
         negb (String.eqb (number_to_string parsedId) id)
      then Respond (validation_failed
                      [Violation "id" "ID must be a positive integer"])
      else Next
  end.

End Validation.

(* ===================================================================== *)
(** * backend/middleware/errorHandler.js *)
(* ===================================================================== *)

Module ErrorHandler.
Import JS.

(** [class AppError]: an error with a status code, flagged operational. *)
Definition AppError (msg : string) (statusCode : Z) : js_error :=
  {| err_message := Some msg; err_statusCode := Some statusCode;
     err_status := None; err_code := None; err_isOperational := true;
     err_details := None; err_stack := Some ("Error: " +:+ msg) |}.

(** [if (x)] on a numeric property that may be absent. *)
Definition truthy_code (c : option Z) : bool :=
  match c with
  | Some z => negb (z =? 0)
  | None => false
  end.

Definition code_is (e : js_error) (c : string) : bool :=
  match err_code e with
  | Some c' => String.eqb c' c
  | None => false
  end.

Definition getStatusCode (err : js_error) : outcome Z :=
  if truthy_code (err_statusCode err) then Return (default 0 (err_statusCode err))
  else if truthy_code (err_status err) then Return (default 0 (err_status err))
  else
    match err_message err with
    | None =>
        Throw (TypeError
                 "Cannot read properties of undefined (reading 'toLowerCase')")
    | Some m =>
        let errorMessage := toLowerCase m in
        if includes errorMessage "not found" ||
           includes errorMessage "does not exist" then Return 404
        else if includes errorMessage "validation" ||
                includes errorMessage "invalid" ||
                includes errorMessage "required" then Return 400
        else if code_is err "23505" then Return 409
        else if code_is err "23503" then Return 400
        else if code_is err "23502" then Return 400
        else if includes errorMessage "unauthorized" ||
                includes errorMessage "authentication" then Return 401
        else if includes errorMessage "forbidden" ||
                includes errorMessage "permission" then Return 403
        else Return 500
    end.

Definition sanitizeErrorMessage (err : js_error) (statusCode : Z)
  : option string :=
  if err_isOperational err then err_message err
  else if code_is err "23505" then
    Some "A record with this information already exists"
  else if code_is err "23503" then Some "Referenced record does not exist"
  else if code_is err "23502" then Some "Required field is missing"
  else if (400 <=? statusCode) && (statusCode <? 500) then err_message err
  else Some "Internal server error".

(** [errorHandler(err, req, res, next)]; [development] is
    [process.env.NODE_ENV === 'development'].  [logError] only writes to the
    console. *)
Definition errorHandler (development : bool) (err : js_error)
  : outcome response :=
  match getStatusCode err with
  | Throw e => Throw e
  | Return statusCode =>
      let message := sanitizeErrorMessage err statusCode in
      let details :=
        match err_details err with
        | Some d => if statusCode =? 400 then Some d else None
        | None => None
        end in
      Return {| status := statusCode;
                json := BodyError
                  {| error := message;
                     details := details;
                     stack := if development then err_stack err else None;
                     originalMessage :=
                       if development then err_message err else None |} |}
  end.

End ErrorHandler.

(* ===================================================================== *)
(** * backend/config/database.js: the store behind [query] *)
(* ===================================================================== *)

Module Db.
Import JS.

(** A row of table [contacts] (init.sql) as the driver returns it: the
    columns [VARCHAR] and [TEXT] as a string or [null]. *)
Record row : Type := Row {
  id : Z;
  first_name : value;
  last_name : value;
  email : value;
  phone : value;
  company : value;
  notes : value;
  created_at : Z;
  updated_at : Z
}.

(** The table keyed by its primary key, the next value of the [SERIAL]
    sequence, the current timestamp, and for each coming statement whether
    it fails and with which error.  Every failure of a statement is an
    entry of this list: a lost connection as well as an error the table
    definition raises (an id outside the range of [INTEGER], a text longer
    than its [VARCHAR] column, a null name). *)
Record t : Type := Make {
  rows : gmap Z row;
  next_id : Z;
  clock : Z;
  faults : list (option js_error)
}.

(** The four statements of the repository with their parameters. *)
Inductive statement : Type :=
| SelectById (id : number)
| Insert (first_name last_name email phone company notes : value)
| Update (first_name last_name email phone company notes : value) (id : number)
| DeleteById (id : number).

Record result : Type := Result { result_rows : list row; rowCount : nat }.

Definition find (d : t) (id : number) : option row :=
  match id with
  | Finite z => rows d !! z
  | _ => None
  end.

Definition tick (d : t) (rs : gmap Z row) (next : Z) : t :=
  {| rows := rs; next_id := next; clock := clock d + 1;
     faults := tail (faults d) |}.

Definition double_quote : ascii := ascii_of_nat 34.
Definition backslash : ascii := ascii_of_nat 92.

(** The driver's [escapeElement]: backslashes and double quotes get a
    backslash in front, and the element is put between double quotes. *)
Fixpoint escape (s : string) : string :=
  match s with
  | EmptyString => EmptyString
  | String c s' =>
      if Ascii.eqb c backslash || Ascii.eqb c double_quote
      then String backslash (String c (escape s'))
      else String c (escape s')
  end.

Definition escapeElement (s : string) : string :=
  String double_quote (escape s ++ String double_quote EmptyString).

(** The driver's [prepareValue]: the text sent for a parameter, [None] for
    NULL.  [null] and [undefined] are NULL, a string is sent as it is, a
    number or boolean as its [toString()], an array as an array literal
    ([arrayString]) and an object as its JSON text; of an object the model
    keeps no properties, so that text is the one of [{}]. *)
Fixpoint prepareValue (v : value) : option string :=
  match v with
  | VUndefined | VNull => None
  | VStr s => Some s
  | VBool _ | VNum _ => Some (to_string v)
  | VArr xs =>
      Some ("{" ++
            join ","
              (List.map (fun x => match x with
                                  | VArr _ => default EmptyString (prepareValue x)
                                  | _ => match prepareValue x with
                                         | None => "NULL"
                                         | Some t => escapeElement t
                                         end
                                  end) xs) ++
            "}")
  | VObj => Some "{}"
  end.

(** What a [VARCHAR] or [TEXT] column holds for a parameter, as the driver
    returns it in a row. *)
Definition column (v : value) : value :=
  match prepareValue v with
  | Some t => VStr t
  | None => VNull
  end.

(** A statement that the store executes. *)
Definition execute (st : statement) (d : t) : result * t :=
  match st with
  | SelectById i =>
      match find d i with
      | Some r => (Result [r] 1, tick d (rows d) (next_id d))
      | None => (Result [] 0, tick d (rows d) (next_id d))
      end
  | Insert fn ln em ph co no =>
      let r := Row (next_id d) (column fn) (column ln) (column em) (column ph)
                 (column co) (column no) (clock d) (clock d) in
      (Result [r] 1, tick d (<[next_id d := r]> (rows d)) (next_id d + 1))
  | Update fn ln em ph co no i =>
      match find d i with
      | Some old =>
          let r := Row (id old) (column fn) (column ln) (column em) (column ph)
                     (column co) (column no) (created_at old) (clock d) in
          (Result [r] 1, tick d (<[id old := r]> (rows d)) (next_id d))
      | None => (Result [] 0, tick d (rows d) (next_id d))
      end
  | DeleteById i =>
      match find d i with
      | Some old => (Result [] 1, tick d (delete (id old) (rows d)) (next_id d))
      | None => (Result [] 0, tick d (rows d) (next_id d))
      end
  end.

(** [pool.query(text, params)]: the statement fails with the planned
    error, or is executed. *)
Definition pool_query (st : statement) (d : t) : outcome result * t :=
  match faults d with
  | Some e :: _ => (Throw e, tick d (rows d) (next_id d))
  | _ => let '(r, d') := execute st d in (Return r, d')
  end.

End Db.

(* ===================================================================== *)
(** * Effects: the store and the record of repository calls *)
(* ===================================================================== *)

(** The calls the service makes on the repository, as a test double would
    record them. *)
Inductive repo_call : Type :=
| CallFindById (id : JS.number)
| CallCreate (contact : payload)
| CallUpdate (id : JS.number) (contact : payload)
| CallDelete (id : JS.number).

Record world : Type := World { db : Db.t; calls : list repo_call }.

Definition M (A : Type) : Type := world -> outcome A * world.

Definition ret {A} (a : A) : M A := fun w => (Return a, w).
Definition throw {A} (e : js_error) : M A := fun w => (Throw e, w).

Definition bind {A B} (m : M A) (k : A -> M B) : M B :=
  fun w =>
    match m w with
    | (Return a, w') => k a w'
    | (Throw e, w') => (Throw e, w')
    end.

(** [try { m } catch (error) { h error }] *)
Definition try_catch {A} (m : M A) (h : js_error -> M A) : M A :=
  fun w =>
    match m w with
    | (Return a, w') => (Return a, w')
    | (Throw e, w') => h e w'
    end.

Definition record_call (c : repo_call) : M unit :=
  fun w => (Return tt, {| db := db w; calls := calls w ++ [c] |}).

(** [query(text, params)] of database.js: logs, and rethrows on failure. *)
Definition query (st : Db.statement) : M Db.result :=
  fun w =>
    let '(r, d') := Db.pool_query st (db w) in
    (r, {| db := d'; calls := calls w |}).

Notation "'let*' x ':=' m 'in' k" := (bind m (fun x => k))
  (at level 10, x name, m at level 100, k at level 200).

(* ===================================================================== *)
(** * backend/repositories/contactRepository.js *)
(* ===================================================================== *)

Module Repository.
Import JS.

Definition mapRowToContact (r : Db.row) : Contact.t :=
  {| Contact.id := Db.id r;
     Contact.firstName := Db.first_name r;
     Contact.lastName := Db.last_name r;
     Contact.email := Db.email r;
     Contact.phone := Db.phone r;
     Contact.company := Db.company r;
     Contact.notes := Db.notes r;
     Contact.createdAt := Db.created_at r;
     Contact.updatedAt := Db.updated_at r |}.

(** [v || null] *)
Definition or_null (v : value) : value := if truthy v then v else VNull.

(** [result.rows.length > 0 ? mapRowToContact(result.rows[0]) : null] *)
Definition first_row (r : Db.result) : option Contact.t :=
  match Db.result_rows r with
  | x :: _ => Some (mapRowToContact x)
  | [] => None
  end.

Definition findById (id : number) : M (option Contact.t) :=
  let* _ := record_call (CallFindById id) in
  try_catch
    (let* result := query (Db.SelectById id) in ret (first_row result))
    (fun error => throw error).

Definition create (contact : payload) : M (option Contact.t) :=
  let* _ := record_call (CallCreate contact) in
  try_catch
    (let* result := query (Db.Insert (firstName contact) (lastName contact)
                        (or_null (email contact)) (or_null (phone contact))
                        (or_null (company contact)) (or_null (notes contact))) in
     ret (first_row result))
    (fun error => throw error).

Definition update (id : number) (contact : payload) : M (option Contact.t) :=
  let* _ := record_call (CallUpdate id contact) in
  try_catch
    (let* result := query (Db.Update (firstName contact) (lastName contact)
                        (or_null (email contact)) (or_null (phone contact))
                        (or_null (company contact)) (or_null (notes contact))
                        id) in
     ret (first_row result))
    (fun error => throw error).

Definition deleteContact (id : number) : M bool :=
  let* _ := record_call (CallDelete id) in
  try_catch
    (let* result := query (Db.DeleteById id) in
     ret (0 <? Db.rowCount result)%nat)
    (fun error => throw error).

End Repository.

(* ===================================================================== *)
(** * backend/services/contactService.js *)
(* ===================================================================== *)

Module Service.
Import JS.

Definition check_firstName (v : value) : list violation :=
  if negb (truthy v) || negb (is_string v) then
    [Violation "firstName" "First name is required"]
  else if (String.length (trim (to_string v)) =? 0)%nat then
    [Violation "firstName" "First name cannot be empty"]
  else if length_gt v 50 then
    [Violation "firstName" "First name must not exceed 50 characters"]
  else [].

Definition check_lastName (v : value) : list violation :=
  if negb (truthy v) || negb (is_string v) then
    [Violation "lastName" "Last name is required"]
  else if (String.length (trim (to_string v)) =? 0)%nat then
    [Violation "lastName" "Last name cannot be empty"]
  else if length_gt v 50 then
    [Violation "lastName" "Last name must not exceed 50 characters"]
  else [].

(** [emailRegex.test(v)] converts [v] to a string first. *)
Definition check_email (v : value) : list violation :=
  if provided v then
    if negb (test Validation.emailRegex (to_string v)) then
      [Violation "email" "Invalid email format"]
    else if length_gt v 100 then
      [Violation "email" "Email must not exceed 100 characters"]
    else []
  else [].

Definition check_phone (v : value) : list violation :=
  if provided v then
    if length_gt v 20 then
      [Violation "phone" "Phone must not exceed 20 characters"]
    else []
  else [].

Definition check_company (v : value) : list violation :=
  if provided v then
    if length_gt v 100 then
      [Violation "company" "Company must not exceed 100 characters"]
    else []
  else [].

Definition check_notes (v : value) : list violation :=
  if provided v then
    if length_gt v 500 then
      [Violation "notes" "Notes must not exceed 500 characters"]
    else []
  else [].

Definition validateContactData (contactData : payload) : list violation :=
  check_firstName (firstName contactData) ++
  check_lastName (lastName contactData) ++
  check_email (email contactData) ++ check_phone (phone contactData) ++
  check_company (company contactData) ++ check_notes (notes contactData).

Definition not_found : js_error :=
  with_statusCode (new_Error "Contact not found") 404.

Definition validation_error (validationErrors : list violation) : js_error :=
  with_details (with_statusCode (new_Error "Validation failed") 400)
    validationErrors.

Definition findById (id : number) : M Contact.t :=
  try_catch
    (let* contact := Repository.findById id in
     match contact with
     | None => throw not_found
     | Some c => ret c
     end)
    (fun error =>
       if bool_decide (err_statusCode error = Some 404) then throw error
       else throw (new_Error "Failed to retrieve contact")).

Definition create (contactData : payload) : M (option Contact.t) :=
  let validationErrors := validateContactData contactData in
  if (0 <? List.length validationErrors)%nat then
    throw (validation_error validationErrors)
  else
    try_catch (Repository.create contactData)
      (fun _ => throw (new_Error "Failed to create contact")).

Definition update (id : number) (contactData : payload)
  : M (option Contact.t) :=
  let* existingContact := Repository.findById id in
  match existingContact with
  | None => throw not_found
  | Some _ =>
      let validationErrors := validateContactData contactData in
      if (0 <? List.length validationErrors)%nat then
        throw (validation_error validationErrors)
      else
        try_catch (Repository.update id contactData)
          (fun _ => throw (new_Error "Failed to update contact"))
  end.

Definition remove (id : number) : M unit :=
  let* existingContact := Repository.findById id in
  match existingContact with
  | None => throw not_found
  | Some _ =>
      try_catch (let* _ := Repository.deleteContact id in ret tt)
        (fun _ => throw (new_Error "Failed to delete contact"))
  end.

End Service.

(* ===================================================================== *)
(** * backend/controllers/contactController.js, backend/routes/contacts.js *)
(* ===================================================================== *)

Module Routes.
Import JS.

(** The status Express's final handler gives an error: [err.status], else
    [err.statusCode], when it is a number from 400 to 599, else 500 (the
    response still has its initial status 200). *)
Definition error_status (c : option Z) : option Z :=
  match c with
  | Some z => if (400 <=? z) && (z <? 600) then Some z else None
  | None => None
  end.

Definition final_handler (err : js_error) : response :=
  {| status := default (default 500 (error_status (err_statusCode err)))
                 (error_status (err_status err));
     json := BodyPage |}.

(** [catch (error) { next(error) }] hands the error to [errorHandler],
    which server.js registers last.  When [errorHandler] itself throws,
    Express catches the exception and passes it on; no handler of the
    application is left, so Express's final handler answers. *)
Definition next_error (development : bool) (error : js_error) : M response :=
  match ErrorHandler.errorHandler development error with
  | Return r => ret r
  | Throw e => ret (final_handler e)
  end.

Definition contact_body (c : option Contact.t) : body :=
  match c with
  | Some c => BodyContact c
  | None => BodyEmpty
  end.

Definition getContactById (development : bool) (id : string) : M response :=
  try_catch
    (let* contact := Service.findById (parseInt10 id) in
     ret (Response 200 (BodyContact contact)))
    (next_error development).

Definition createContact (development : bool) (contactData : payload)
  : M response :=
  try_catch
    (let* newContact := Service.create contactData in
     ret (Response 201 (contact_body newContact)))
    (next_error development).

Definition updateContact (development : bool) (id : string)
  (contactData : payload) : M response :=
  try_catch
    (let* updatedContact := Service.update (parseInt10 id) contactData in
     ret (Response 200 (contact_body updatedContact)))
    (next_error development).

Definition deleteContact (development : bool) (id : string) : M response :=
  try_catch
    (let* _ := Service.remove (parseInt10 id) in ret (Response 204 BodyEmpty))
    (next_error development).

(** [router.post('/', validateContact, createContact)] *)
Definition post (development : bool) (contactData : payload) : M response :=
  match Validation.validateContact contactData with
  | Respond r => ret r
  | Next => createContact development contactData
  end.

(** [router.put('/:id', validateId, validateContact, updateContact)] *)
Definition put (development : bool) (id : string) (contactData : payload)
  : M response :=
  match Validation.validateId (Some id) with
  | Respond r => ret r
  | Next =>
      match Validation.validateContact contactData with
      | Respond r => ret r
      | Next => updateContact development id contactData
      end
  end.

(** [router.get('/:id', validateId, getContactById)] *)
Definition get (development : bool) (id : string) : M response :=
  match Validation.validateId (Some id) with
  | Respond r => ret r
  | Next => getContactById development id
  end.

(** [router.delete('/:id', validateId, deleteContact)] *)
Definition delete (development : bool) (id : string) : M response :=
  match Validation.validateId (Some id) with
  | Respond r => ret r
  | Next => deleteContact development id
  end.

End Routes.

(* ===================================================================== *)
(** * frontend/src/components/ContactForm.tsx: the form's own validation *)
(* ===================================================================== *)

Module Form.
Import JS.

(** [interface FormData]: the six inputs of the form, all strings. *)
Record FormData : Type := MakeData {
  firstName : string;
  lastName : string;
  email : string;
  phone : string;
  company : string;
  notes : string
}.

(** [interface ValidationErrors]: a message per field, or none. *)
Module Errors.
Record t : Type := Make {
  firstName : option string;
  lastName : option string;
  email : option string;
  phone : option string;
  company : option string;
  notes : option string
}.
End Errors.

(** [/^[^\s@]+@[^\s@]+\.[^\s@]+$/], a literal of the form's own. *)
Definition email_char (c : ascii) : bool := negb (is_space c || Ascii.eqb c "@").

Definition emailRegex : regex :=
  Cat (Plus (Cls email_char))
    (Cat (Lit "@")
       (Cat (Plus (Cls email_char))
          (Cat (Lit ".") (Plus (Cls email_char))))).

(** [/^[\d\s()+-]+$/] *)
Definition phone_char (c : ascii) : bool :=
  is_digit c || is_space c || Ascii.eqb c "(" || Ascii.eqb c ")" ||
  Ascii.eqb c "+" || Ascii.eqb c "-".

Definition phoneRegex : regex := Plus (Cls phone_char).

(** The [newErrors] object that [validateForm] builds. *)
Definition validateForm_errors (formData : FormData) : Errors.t :=
  {| Errors.firstName :=
       if is_empty (trim (firstName formData)) then
         Some "First name is required"
       else if (50 <? String.length (firstName formData))%nat then
         Some "First name must be 50 characters or less"
       else None;
     Errors.lastName :=
       if is_empty (trim (lastName formData)) then
         Some "Last name is required"
       else if (50 <? String.length (lastName formData))%nat then
         Some "Last name must be 50 characters or less"
       else None;
     Errors.email :=
       if negb (is_empty (email formData)) &&
          negb (is_empty (trim (email formData))) then
         if negb (test emailRegex (email formData)) then
           Some "Invalid email format"
         else None
       else None;
     Errors.phone :=
       if negb (is_empty (phone formData)) &&
          negb (is_empty (trim (phone formData))) then
         if negb (test phoneRegex (phone formData)) then
           Some "Invalid phone format"
         else None
       else None;
     Errors.company :=
       if negb (is_empty (company formData)) &&
          (100 <? String.length (company formData))%nat then
         Some "Company must be 100 characters or less"
       else None;
     Errors.notes :=
       if negb (is_empty (notes formData)) &&
          (500 <? String.length (notes formData))%nat then
         Some "Notes must be 500 characters or less"
       else None |}.

Definition no_error (e : option string) : bool :=
  match e with None => true | Some _ => false end.

(** [validateForm()]: [Object.keys(newErrors).length === 0]. *)
Definition validateForm (formData : FormData) : bool :=
  let newErrors := validateForm_errors formData in
  no_error (Errors.firstName newErrors) && no_error (Errors.lastName newErrors) &&
  no_error (Errors.email newErrors) && no_error (Errors.phone newErrors) &&
  no_error (Errors.company newErrors) && no_error (Errors.notes newErrors).

(** [s.trim() || undefined] *)
Definition trim_or_undefined (s : string) : value :=
  if is_empty (trim s) then VUndefined else VStr (trim s).

(** The [contactData] that [handleSubmit] sends once [validateForm] has
    passed. *)
Definition contactData (formData : FormData) : payload :=
  Payload (VStr (trim (firstName formData))) (VStr (trim (lastName formData)))
    (trim_or_undefined (email formData)) (trim_or_undefined (phone formData))
    (trim_or_undefined (company formData)) (trim_or_undefined (notes formData)).

End Form.

(* ===================================================================== *)
(** * frontend/src/api/config.ts: errors as the client reports them *)
(* ===================================================================== *)

Module Client.
Import JS.

(** [error.response.data]: an object read through its properties [error],
    [details] and [message], or a value that is not an object. *)
Inductive data : Type :=
| Obj (error details message : value)
| Prim (v : value).

Record axios_response : Type := AxiosResponse { res_status : Z; res_data : data }.

Record AxiosError : Type := MakeAxiosError {
  ax_message : option string;
  ax_response : option axios_response
}.

Record ApiError : Type := MakeApiError {
  api_message : value;
  api_status : Z;
  api_details : option value
}.

(** [a || b] *)
Definition or_else (a b : value) : value := if truthy a then a else b.

Definition transformError (error : AxiosError) : ApiError :=
  match ax_response error with
  | None =>
      {| api_message :=
           or_else (match ax_message error with
                    | Some m => VStr m
                    | None => VUndefined
                    end)
             (VStr "Network error. Please check your connection.");
         api_status := 0;
         api_details := None |}
  | Some (AxiosResponse status d) =>
      let message0 := VStr "An error occurred" in
      let '(message1, details) :=
        match d with
        | Obj e ds m =>
            let m1 := if truthy e then e else message0 in
            let dt := if truthy ds then Some ds else None in
            let m2 := if truthy m then m else m1 in
            (m2, dt)
        | Prim _ => (message0, None)
        end in
      let message2 :=
        if status =? 400 then
          or_else message1 (VStr "Invalid request. Please check your input.")
        else if status =? 404 then
          or_else message1 (VStr "Resource not found.")
        else if status =? 500 then
          or_else message1 (VStr "Server error. Please try again later.")
        else
          or_else message1
            (VStr ("Request failed with status " ++
                   number_to_string (Finite status))) in
      {| api_message := message2; api_status := status; api_details := details |}
  end.

End Client.

(* ===================================================================== *)
(** * Vocabulary of the properties *)
(* ===================================================================== *)

(** The entries of a violations list that concern field [f]. *)
Definition violations_for (f : string) (vs : list violation) : list violation :=
  List.filter (fun v => String.eqb (field v) f) vs.

(** The list reports a violation for field [f]. *)
Definition reports (f : string) (vs : list violation) : bool :=
  match violations_for f vs with
  | [] => false
  | _ :: _ => true
  end.

(** A block of the rule set pushes nothing, or one entry for its field. *)
Definition at_most_one (f : string) (l : list violation) : Prop :=
  l = [] \/ exists m, l = [Violation f m].

(** The order in which the six fields are checked. *)
Definition field_order : list string :=
  ["firstName"; "lastName"; "email"; "phone"; "company"; "notes"].

(** The number of digit characters of a string. *)
Definition count_digits (s : string) : nat :=
  String.length (JS.filter_chars JS.is_digit s).

(** A non-empty run of characters other than white space and [@]. *)
Definition email_word (w : string) : Prop :=
  JS.is_empty w = false /\ JS.all_chars Validation.email_char w = true.

(** The shape [local@domain.tld]. *)
Definition email_shape (s : string) : Prop :=
  exists l d t,
    s = l ++ "@" ++ d ++ "." ++ t /\ email_word l /\ email_word d /\ email_word t.

(** A required field that is missing or holds only white space. *)
Definition blank (v : JS.value) : bool :=
  match v with
  | JS.VUndefined | JS.VNull => true
  | JS.VStr s => JS.all_chars JS.is_space s
  | _ => false
  end.

(** The [error] and [details] members of a response body. *)
Definition error_of (r : response) : option string :=
  match json r with
  | BodyError e => error e
  | _ => None
  end.

Definition details_of (r : response) : list violation :=
  match json r with
  | BodyError e => default [] (details e)
  | _ => []
  end.

(** The message contains the words [k], whatever the case of its letters. *)
Definition mentions (m k : string) : bool :=
  JS.includes (JS.toLowerCase m) k.

(** The error carries no usable [statusCode] and no usable [status]. *)
Definition no_status (e : js_error) : Prop :=
  ErrorHandler.truthy_code (err_statusCode e) = false /\
  ErrorHandler.truthy_code (err_status e) = false.

(** The error carries one of the three storage-constraint codes. *)
Definition constraint_code (e : js_error) : bool :=
  ErrorHandler.code_is e "23505" || ErrorHandler.code_is e "23503" ||
  ErrorHandler.code_is e "23502".

(** The digits-only strings that do not start with [0]: the decimal
    representations of the positive integers. *)
Definition canonical_positive (s : string) : Prop :=
  exists n, 0 < n /\ s = JS.decimal n.

(** The next statement sent to the store is executed, not failed. *)
Definition healthy (d : Db.t) : bool :=
  match Db.faults d with
  | Some _ :: _ => false
  | _ => true
  end.

(** The world after the repository has looked [id] up: the call is
    recorded, one statement has gone to the store, the table is the same. *)
Definition after_lookup (w : world) (id : JS.number) : world :=
  {| db := Db.tick (db w) (Db.rows (db w)) (Db.next_id (db w));
     calls := calls w ++ [CallFindById id] |}.

(** The next [n] statements sent to the store are all executed. *)
Definition calm (n : nat) (d : Db.t) : bool :=
  forallb (fun f => match f with None => true | Some _ => false end)
    (firstn n (Db.faults d)).

(** Every row is stored under its own id. *)
Definition keyed_by_id (d : Db.t) : Prop :=
  forall z r, Db.rows d !! z = Some r -> Db.id r = z.

(** A firstName or lastName that the rule sets accept: a string that is
    not only white space and has at most 50 characters. *)
Definition name_ok (v : JS.value) : Prop :=
  exists s, v = JS.VStr s /\ JS.all_chars JS.is_space s = false /\
            (String.length s <= 50)%nat.

(** An optional field: not provided (absent, null or empty), or a string
    that satisfies [P]. *)
Definition optional_ok (P : string -> Prop) (v : JS.value) : Prop :=
  JS.provided v = false \/ exists s, v = JS.VStr s /\ P s.

(** The length limit of a field, which only binds strings. *)
Definition within (n : nat) (v : JS.value) : Prop :=
  forall s, v = JS.VStr s -> (String.length s <= n)%nat.

(** The message hits one of the nine words the classifier looks for. *)
Definition keyword_hit (m : string) : bool :=
  mentions m "not found" || mentions m "does not exist" ||
  mentions m "validation" || mentions m "invalid" || mentions m "required" ||
  mentions m "unauthorized" || mentions m "authentication" ||
  mentions m "forbidden" || mentions m "permission".

(** The number of occurrences of a character. *)
Definition count_char (c : ascii) (s : string) : nat :=
  String.length (JS.filter_chars (Ascii.eqb c) s).

(** The row that [INSERT] and [UPDATE] write for a payload whose fields
    are strings or absent: the fields themselves, the falsy optional ones
    as null. *)
Definition row_of (id : Z) (p : payload) (created updated : Z) : Db.row :=
  Db.Row id (firstName p) (lastName p)
    (Repository.or_null (email p)) (Repository.or_null (phone p))
    (Repository.or_null (company p)) (Repository.or_null (notes p))
    created updated.

(** The row that [INSERT] and [UPDATE] write for any payload: the text of
    the parameters the repository passes. *)
Definition stored_row (id : Z) (p : payload) (created updated : Z) : Db.row :=
  Db.Row id (Db.column (firstName p)) (Db.column (lastName p))
    (Db.column (Repository.or_null (email p)))
    (Db.column (Repository.or_null (phone p)))
    (Db.column (Repository.or_null (company p)))
    (Db.column (Repository.or_null (notes p)))
    created updated.

(** The value is a string, or it is absent, null or the empty string. *)
Definition text_or_absent (v : JS.value) : Prop :=
  JS.is_string v = true \/ JS.provided v = false.

(** Each of the four optional fields is a string or absent. *)
Definition optional_text (p : payload) : Prop :=
  text_or_absent (email p) /\ text_or_absent (phone p) /\
  text_or_absent (company p) /\ text_or_absent (notes p).



(** The world after one repository call [c] whose statement left the
    table [rows'] and the sequence at [next']. *)
Definition after_call (w : world) (c : repo_call) (rows' : gmap Z Db.row)
  (next' : Z) : world :=
  {| db := Db.tick (db w) rows' next'; calls := calls w ++ [c] |}.

(** The world after a repository call whose statement did not change the
    table: a lookup, a failed statement, a write that matched no row. *)
Definition after_read (w : world) (c : repo_call) : world :=
  after_call w c (Db.rows (db w)) (Db.next_id (db w)).

(* ===================================================================== *)
(** * Properties of the JavaScript fragment *)
(* ===================================================================== *)

Section RegexFacts.
Import JS.

Lemma append_nil_l (s : string) : "" ++ s = s.
Proof. reflexivity. Qed.

Lemma append_cons (c : ascii) (s t : string) :
  String c s ++ t = String c (s ++ t).
Proof. reflexivity. Qed.

Lemma append_empty_r (s : string) : s ++ "" = s.
Proof.
  induction s as [|c s IH]; [reflexivity | now rewrite append_cons, IH].
Qed.

Lemma append_assoc (s1 s2 s3 : string) : (s1 ++ s2) ++ s3 = s1 ++ (s2 ++ s3).
Proof.
  induction s1 as [|c s1 IH]; [reflexivity | now rewrite !append_cons, IH].
Qed.

Lemma append_eq_empty (s1 s2 : string) :
  s1 ++ s2 = "" -> s1 = "" /\ s2 = "".
Proof. destruct s1; [auto | rewrite append_cons; discriminate]. Qed.

Lemma nullable_lang (r : regex) : nullable r = true <-> lang r "".
Proof.
  induction r as [| |p|r1 IH1 r2 IH2|r1 IH1 r2 IH2|r IH]; simpl.
  - split; [discriminate | inversion 1].
  - split; [constructor | reflexivity].
  - split; [discriminate | inversion 1].
  - rewrite andb_true_iff, IH1, IH2. split.
    + intros [H1 H2]. exact (lang_cat _ _ "" "" H1 H2).
    + inversion 1 as [| |? ? s1 s2 H1 H2 E1 E2| | | |]; subst.
      apply append_eq_empty in E2 as [-> ->]. auto.
  - rewrite orb_true_iff, IH1, IH2. split.
    + intros [H|H]; [now apply lang_alt_l | now apply lang_alt_r].
    + inversion 1; subst; auto.
  - split; [constructor | reflexivity].
Qed.

(** A non-empty word of [Star r] starts with a non-empty word of [r]. *)
Lemma lang_star_cons (r : regex) (c : ascii) (s : string) :
  lang (Star r) (String c s) ->
  exists s1 s2, s = s1 ++ s2 /\ lang r (String c s1) /\ lang (Star r) s2.
Proof.
  intros H. remember (Star r) as r' eqn:Er. remember (String c s) as w eqn:Ew.
  induction H as [| | | | | |r0 s1 s2 H1 _ H2 IH2]; try discriminate.
  injection Er as ->. destruct s1 as [|c1 s1].
  - rewrite append_nil_l in Ew. apply IH2; auto.
  - rewrite append_cons in Ew. injection Ew as -> <-. eauto.
Qed.

Lemma deriv_lang (r : regex) (c : ascii) (s : string) :
  lang (deriv c r) s <-> lang r (String c s).
Proof.
  revert s. induction r as [| |p|r1 IH1 r2 IH2|r1 IH1 r2 IH2|r IH];
    intros s; simpl.
  - split; inversion 1.
  - split; inversion 1.
  - destruct (p c) eqn:Hp; split.
    + inversion 1; subst. now constructor.
    + inversion 1; subst. constructor.
    + inversion 1.
    + inversion 1; subst. congruence.
  - assert (Hcat : lang (Cat (deriv c r1) r2) s ->
                   lang (Cat r1 r2) (String c s)).
    { inversion 1 as [| |? ? s1 s2 H1 H2| | | |]; subst.
      apply IH1 in H1. exact (lang_cat _ _ (String c s1) s2 H1 H2). }
    assert (Hinv : lang (Cat r1 r2) (String c s) ->
                   lang (Cat (deriv c r1) r2) s \/
                   (lang r1 "" /\ lang (deriv c r2) s)).
    { inversion 1 as [| |? ? s1 s2 H1 H2 E1 E2| | | |]; subst.
      destruct s1 as [|c1 s1].
      - rewrite append_nil_l in E2. right. subst s2.
        split; [assumption | now apply IH2].
      - rewrite append_cons in E2. injection E2 as -> <-. left.
        apply lang_cat; [now apply IH1 | assumption]. }
    destruct (nullable r1) eqn:Hn; split.
    + inversion 1; subst; [now apply Hcat|].
      apply nullable_lang in Hn.
      match goal with H : lang (deriv c r2) s |- _ => apply IH2 in H;
        exact (lang_cat _ _ "" _ Hn H) end.
    + intros H. destruct (Hinv H) as [H'|[_ H']];
        [now apply lang_alt_l | now apply lang_alt_r].
    + apply Hcat.
    + intros H. destruct (Hinv H) as [H'|[H' _]]; [assumption|].
      apply nullable_lang in H'. congruence.
  - split.
    + inversion 1; subst; [apply lang_alt_l; now apply IH1
                          | apply lang_alt_r; now apply IH2].
    + inversion 1; subst; [apply lang_alt_l; now apply IH1
                          | apply lang_alt_r; now apply IH2].
  - split.
    + inversion 1 as [| |? ? s1 s2 H1 H2| | | |]; subst.
      apply IH in H1. exact (lang_star_app _ (String c s1) s2 H1 H2).
    + intros H. apply lang_star_cons in H as (s1 & s2 & -> & H1 & H2).
      apply lang_cat; [now apply IH | assumption].
Qed.

(** [test] decides membership in the language of the pattern. *)
Lemma test_lang (r : regex) (s : string) : test r s = true <-> lang r s.
Proof.
  revert r. induction s as [|c s IH]; intros r; simpl.
  - apply nullable_lang.
  - rewrite IH. apply deriv_lang.
Qed.

End RegexFacts.

(* ===================================================================== *)
(** * The two rule sets, field by field *)
(* ===================================================================== *)

Section RuleSets.
Import JS.

Ltac split_checks :=
  repeat match goal with
         | |- context [if ?b then _ else _] => destruct b
         | |- context [match ?v with VUndefined => _ | _ => _ end] => destruct v
         end.

Ltac one_entry := split_checks; solve [now left | right; eexists; reflexivity].

Lemma middleware_firstName_one v : at_most_one "firstName" (Validation.check_firstName v).
Proof. unfold Validation.check_firstName. one_entry. Qed.
Lemma middleware_lastName_one v : at_most_one "lastName" (Validation.check_lastName v).
Proof. unfold Validation.check_lastName. one_entry. Qed.
Lemma middleware_email_one v : at_most_one "email" (Validation.check_email v).
Proof. unfold Validation.check_email. one_entry. Qed.
Lemma middleware_phone_one v : at_most_one "phone" (Validation.check_phone v).
Proof. unfold Validation.check_phone. one_entry. Qed.
Lemma middleware_company_one v : at_most_one "company" (Validation.check_company v).
Proof. unfold Validation.check_company. one_entry. Qed.
Lemma middleware_notes_one v : at_most_one "notes" (Validation.check_notes v).
Proof. unfold Validation.check_notes. one_entry. Qed.

Lemma service_firstName_one v : at_most_one "firstName" (Service.check_firstName v).
Proof. unfold Service.check_firstName. one_entry. Qed.
Lemma service_lastName_one v : at_most_one "lastName" (Service.check_lastName v).
Proof. unfold Service.check_lastName. one_entry. Qed.
Lemma service_email_one v : at_most_one "email" (Service.check_email v).
Proof. unfold Service.check_email. one_entry. Qed.
Lemma service_phone_one v : at_most_one "phone" (Service.check_phone v).
Proof. unfold Service.check_phone. one_entry. Qed.
Lemma service_company_one v : at_most_one "company" (Service.check_company v).
Proof. unfold Service.check_company. one_entry. Qed.
Lemma service_notes_one v : at_most_one "notes" (Service.check_notes v).
Proof. unfold Service.check_notes. one_entry. Qed.

Lemma violations_for_app f l1 l2 :
  violations_for f (l1 ++ l2) = (violations_for f l1 ++ violations_for f l2)%list.
Proof. unfold violations_for. apply List.filter_app. Qed.

Lemma violations_for_same f l : at_most_one f l -> violations_for f l = l.
Proof.
  intros [->|[m ->]]; [reflexivity|].
  unfold violations_for. simpl. now rewrite String.eqb_refl.
Qed.

Lemma violations_for_other f g l :
  String.eqb g f = false -> at_most_one g l -> violations_for f l = [].
Proof.
  intros Hne [->|[m ->]]; [reflexivity|].
  unfold violations_for. simpl. now rewrite Hne.
Qed.

(** Adding a block in front keeps the fields in checking order. *)
Lemma sublist_block f l rest order :
  at_most_one f l ->
  sublist (List.map field rest) order ->
  sublist (List.map field (l ++ rest)) (f :: order).
Proof.
  intros [->|[m ->]] H; simpl.
  - now apply sublist_cons.
  - now apply sublist_skip.
Qed.

Lemma at_most_one_last f l :
  at_most_one f l -> sublist (List.map field l) [f].
Proof.
  intros [->|[m ->]]; simpl.
  - apply sublist_nil_l.
  - apply sublist_skip, sublist_nil.
Qed.

Lemma field_order_NoDup : NoDup field_order.
Proof.
  unfold field_order.
  repeat (apply NoDup_cons; split;
          [rewrite ?not_elem_of_cons; repeat split;
           solve [discriminate | apply not_elem_of_nil] |]).
  apply NoDup_nil_2.
Qed.

Ltac block_fact check v H :=
  first
    [ pose proof (middleware_firstName_one v : at_most_one _ (check v)) as H
    | pose proof (middleware_lastName_one v : at_most_one _ (check v)) as H
    | pose proof (middleware_email_one v : at_most_one _ (check v)) as H
    | pose proof (middleware_phone_one v : at_most_one _ (check v)) as H
    | pose proof (middleware_company_one v : at_most_one _ (check v)) as H
    | pose proof (middleware_notes_one v : at_most_one _ (check v)) as H
    | pose proof (service_firstName_one v : at_most_one _ (check v)) as H
    | pose proof (service_lastName_one v : at_most_one _ (check v)) as H
    | pose proof (service_email_one v : at_most_one _ (check v)) as H
    | pose proof (service_phone_one v : at_most_one _ (check v)) as H
    | pose proof (service_company_one v : at_most_one _ (check v)) as H
    | pose proof (service_notes_one v : at_most_one _ (check v)) as H ].

Ltac project_field :=
  rewrite !violations_for_app;
  repeat match goal with
         | |- context [violations_for ?f (?check ?v)] =>
             let H := fresh "H" in
             block_fact check v H;
             match type of H with
             | at_most_one ?g _ =>
                 first [ constr_eq g f; rewrite (violations_for_same f _ H)
                       | rewrite (violations_for_other f g _ eq_refl H) ]
             end;
             clear H
         end;
  rewrite ?app_nil_r; reflexivity.

Lemma middleware_for_email p :
  violations_for "email" (Validation.validateContact_errors p) =
  Validation.check_email (email p).
Proof. unfold Validation.validateContact_errors. project_field. Qed.
Lemma middleware_for_phone p :
  violations_for "phone" (Validation.validateContact_errors p) =
  Validation.check_phone (phone p).
Proof. unfold Validation.validateContact_errors. project_field. Qed.

Lemma service_for_firstName p :
  violations_for "firstName" (Service.validateContactData p) =
  Service.check_firstName (firstName p).
Proof. unfold Service.validateContactData. project_field. Qed.
Lemma service_for_lastName p :
  violations_for "lastName" (Service.validateContactData p) =
  Service.check_lastName (lastName p).
Proof. unfold Service.validateContactData. project_field. Qed.
Lemma service_for_email p :
  violations_for "email" (Service.validateContactData p) =
  Service.check_email (email p).
Proof. unfold Service.validateContactData. project_field. Qed.
Lemma service_for_phone p :
  violations_for "phone" (Service.validateContactData p) =
  Service.check_phone (phone p).
Proof. unfold Service.validateContactData. project_field. Qed.

Lemma middleware_in_order p :
  sublist (List.map field (Validation.validateContact_errors p)) field_order.
Proof.
  unfold Validation.validateContact_errors, field_order.
  apply sublist_block; [apply middleware_firstName_one|].
  apply sublist_block; [apply middleware_lastName_one|].
  apply sublist_block; [apply middleware_email_one|].
  apply sublist_block; [apply middleware_phone_one|].
  apply sublist_block; [apply middleware_company_one|].
  apply at_most_one_last, middleware_notes_one.
Qed.

Lemma service_in_order p :
  sublist (List.map field (Service.validateContactData p)) field_order.
Proof.
  unfold Service.validateContactData, field_order.
  apply sublist_block; [apply service_firstName_one|].
  apply sublist_block; [apply service_lastName_one|].
  apply sublist_block; [apply service_email_one|].
  apply sublist_block; [apply service_phone_one|].
  apply sublist_block; [apply service_company_one|].
  apply at_most_one_last, service_notes_one.
Qed.

End RuleSets.

(* ===================================================================== *)
(** * The field validators *)
(* ===================================================================== *)

Section FieldValidators.
Import JS.

Lemma trimStart_blank (s : string) :
  all_chars is_space s = true -> trimStart s = "".
Proof.
  induction s as [|c s IH]; simpl; [reflexivity|].
  intros H. apply andb_true_iff in H as [Hc Hs]. rewrite Hc. auto.
Qed.

(** A string of white space trims to the empty string. *)
Lemma trim_blank (s : string) : all_chars is_space s = true -> trim s = "".
Proof. intros H. unfold trim. now rewrite trimStart_blank. Qed.

Lemma lang_cat_inv (r1 r2 : regex) (s : string) :
  lang (Cat r1 r2) s <->
  exists s1 s2, s = s1 ++ s2 /\ lang r1 s1 /\ lang r2 s2.
Proof.
  split.
  - inversion 1; subst; eauto.
  - intros (s1 & s2 & -> & H1 & H2). now apply lang_cat.
Qed.

Lemma lang_cls_inv (p : ascii -> bool) (s : string) :
  lang (Cls p) s <-> exists c, s = String c "" /\ p c = true.
Proof.
  split.
  - inversion 1; subst; eauto.
  - intros (c & -> & H). now apply lang_cls.
Qed.

Lemma lang_lit_inv (c : ascii) (s : string) :
  lang (Lit c) s <-> s = String c "".
Proof.
  unfold Lit. rewrite lang_cls_inv. split.
  - intros (c' & -> & H). apply Ascii.eqb_eq in H. now subst.
  - intros ->. exists c. split; [reflexivity | apply Ascii.eqb_refl].
Qed.

Lemma lang_star_cls (p : ascii -> bool) (s : string) :
  lang (Star (Cls p)) s <-> all_chars p s = true.
Proof.
  split.
  - intros H. remember (Star (Cls p)) as r eqn:Er.
    induction H as [| | | | | |r0 s1 s2 H1 _ H2 IH2]; try discriminate.
    + reflexivity.
    + injection Er as ->. apply lang_cls_inv in H1 as (c & -> & Hc).
      rewrite append_cons, append_nil_l. simpl. rewrite Hc. now apply IH2.
  - induction s as [|c s IH]; simpl; intros H.
    + constructor.
    + apply andb_true_iff in H as [Hc Hs].
      change (String c s) with (String c "" ++ s).
      apply lang_star_app; [now apply lang_cls | auto].
Qed.

(** [[class]+] matches the non-empty strings over the class. *)
Lemma lang_plus_cls (p : ascii -> bool) (s : string) :
  lang (Plus (Cls p)) s <-> is_empty s = false /\ all_chars p s = true.
Proof.
  unfold Plus. rewrite lang_cat_inv. split.
  - intros (s1 & s2 & -> & H1 & H2).
    apply lang_cls_inv in H1 as (c & -> & Hc). apply lang_star_cls in H2.
    rewrite append_cons, append_nil_l. simpl. now rewrite Hc, H2.
  - destruct s as [|c s]; simpl; intros [He H]; [discriminate|].
    apply andb_true_iff in H as [Hc Hs].
    exists (String c ""), s. repeat split.
    + now apply lang_cls.
    + now apply lang_star_cls.
Qed.

(** [isValidPhone]: only digits, white space, [+], [-], [(], [)], and at
    least ten digits. *)
Lemma isValidPhone_spec (s : string) :
  Validation.isValidPhone s = true <->
  all_chars Validation.phone_char s = true /\ (10 <= count_digits s)%nat.
Proof.
  unfold Validation.isValidPhone, Validation.phoneRegex, count_digits.
  rewrite andb_true_iff, test_lang, lang_plus_cls, Nat.leb_le.
  split; [tauto|]. intros [H1 H2]. repeat split; try assumption.
  destruct s; [simpl in H2; lia | reflexivity].
Qed.

(** [isValidEmail]: the shape [local@domain.tld]. *)
Lemma isValidEmail_spec (s : string) :
  Validation.isValidEmail s = true <-> email_shape s.
Proof.
  unfold Validation.isValidEmail, Validation.emailRegex, email_shape, email_word.
  rewrite test_lang, lang_cat_inv. split.
  - intros (l & s1 & -> & Hl & H1).
    apply lang_cat_inv in H1 as (a & s2 & -> & Ha & H2).
    apply lang_cat_inv in H2 as (d & s3 & -> & Hd & H3).
    apply lang_cat_inv in H3 as (b & t & -> & Hb & Ht).
    apply lang_lit_inv in Ha as ->. apply lang_lit_inv in Hb as ->.
    apply lang_plus_cls in Hl, Hd, Ht. exists l, d, t. tauto.
  - intros (l & d & t & -> & Hl & Hd & Ht).
    apply lang_plus_cls in Hl, Hd, Ht.
    exists l, ("@" ++ d ++ "." ++ t). repeat split; [assumption|].
    apply lang_cat; [now apply lang_lit_inv|].
    apply lang_cat; [assumption|].
    apply lang_cat; [now apply lang_lit_inv | assumption].
Qed.

End FieldValidators.

(* ===================================================================== *)
(** * The contact validation rule set *)
(* ===================================================================== *)

Section RuleSetClaims.
Import JS.

Lemma provided_string (s : string) : s <> "" -> provided (VStr s) = true.
Proof. destruct s; [intros H; now contradiction H | reflexivity]. Qed.

Lemma reports_nonempty f vs :
  reports f vs = true -> (0 <? List.length vs)%nat = true.
Proof.
  unfold reports, violations_for. destruct vs as [|v vs]; simpl.
  - discriminate.
  - reflexivity.
Qed.

Lemma middleware_response_details p r :
  Validation.validateContact p = Respond r ->
  status r = 400 /\ error_of r = Some "Validation failed" /\
  details_of r = Validation.validateContact_errors p.
Proof.
  unfold Validation.validateContact.
  destruct (0 <? _)%nat; [|discriminate].
  intros [= <-]. repeat split.
Qed.

(** The service turns a non-empty violations list into the response 400
    "Validation failed" with that list as details, and touches nothing. *)
Lemma create_rejects development p w :
  (0 <? List.length (Service.validateContactData p))%nat = true ->
  Service.create p w = (Throw (Service.validation_error (Service.validateContactData p)), w) /\
  Routes.createContact development p w =
    (Return (Response 400
               (BodyError
                  {| error := Some "Validation failed";
                     details := Some (Service.validateContactData p);
                     stack := if development
                              then Some "Error: Validation failed" else None;
                     originalMessage := if development
                                        then Some "Validation failed" else None |})),
     w).
Proof.
  intros H. unfold Routes.createContact, try_catch, bind, Service.create.
  rewrite H. split; reflexivity.
Qed.

(** The middleware checks the shape of an email, not its length. *)
Lemma middleware_email_rule (p : payload) (s : string) :
  email p = VStr s -> s <> "" ->
  (reports "email" (Validation.validateContact_errors p) = true <->
   ~ email_shape s).
Proof.
  intros Hp Hs. unfold reports. rewrite middleware_for_email, Hp.
  unfold Validation.check_email. rewrite (provided_string s Hs).
  pose proof (isValidEmail_spec s) as Hv.
  destruct (Validation.isValidEmail s); cbn [negb].
  - split; [discriminate|]. intros H. exfalso. apply H, Hv. reflexivity.
  - split; [|reflexivity]. intros _ H. apply Hv in H. discriminate.
Qed.

(** The examples of the test suite of the field validators. *)
Lemma field_validator_examples :
  List.map Validation.isValidEmail
    ["a@b.co"; "test@example.com"; "a@b"; "@b.com"; "a b@c.com"; "invalid"]
  = [true; true; false; false; false; false] /\
  List.map Validation.isValidPhone
    ["+1-555-123-4567"; "(555) 123-4567"; "5551234567"; "123"; "abc-def-ghij"]
  = [true; true; true; false; false].
Proof. split; reflexivity. Qed.





End RuleSetClaims.

(** C10: for every payload, each of the two rule sets produces at most one
    violation per field, and the violations appear in the order firstName,
    lastName, email, phone, company, notes: the fields of the list form a
    subsequence of that order, so no field occurs twice, neither in the
    list nor in the [details] array of the middleware's response. *)
Theorem C10_one_violation_per_field_in_order (p : payload) :
  sublist (List.map field (Validation.validateContact_errors p)) field_order /\
  NoDup (List.map field (Validation.validateContact_errors p)) /\
  sublist (List.map field (Service.validateContactData p)) field_order /\
  NoDup (List.map field (Service.validateContactData p)) /\
  (forall r, Validation.validateContact p = Respond r ->
             NoDup (List.map field (details_of r))).
Proof.
  pose proof (middleware_in_order p) as Hm.
  pose proof (service_in_order p) as Hs.
  pose proof field_order_NoDup as Hn.
  repeat split; try assumption.
  - exact (sublist_NoDup _ _ Hn Hm).
  - exact (sublist_NoDup _ _ Hn Hs).
  - intros r Hr. apply middleware_response_details in Hr as (_ & _ & ->).
    exact (sublist_NoDup _ _ Hn Hm).
Qed.




(** C3, as stated, fails on the service rule set: a phone of ten letters
    contains characters outside the allowed set and yet gets no violation
    from [validateContactData]; and a phone of the valid shape with 22
    characters and 15 digits gets one, which a POST request receives as 400
    with a violation for phone. *)
Lemma C3_service_phone_counterexample :
  let p := Payload (JS.VStr "Ada") (JS.VStr "Byron") JS.VUndefined
             (JS.VStr "abcdefghij") JS.VUndefined JS.VUndefined in
  let q := Payload (JS.VStr "Ada") (JS.VStr "Byron") JS.VUndefined
             (JS.VStr "+1 (555) 123-4567 8901") JS.VUndefined JS.VUndefined in
  JS.all_chars Validation.phone_char "abcdefghij" = false /\
  Service.validateContactData p = [] /\
  JS.all_chars Validation.phone_char "+1 (555) 123-4567 8901" = true /\
  count_digits "+1 (555) 123-4567 8901" = 15%nat /\
  Validation.validateContact_errors q = [] /\
  Service.validateContactData q =
    [Violation "phone" "Phone must not exceed 20 characters"] /\
  forall w, exists r,
    Routes.post false q w = (Return r, w) /\ status r = 400 /\
    reports "phone" (details_of r) = true.
Proof.
  repeat (split; [reflexivity|]). intros w. eexists. repeat split.
Qed.

(** C3, amended: for every payload whose phone is a non-empty string, the
    middleware rule set [validateContact] reports a violation for phone if
    and only if the phone contains a character other than a digit, white
    space, [+], [-], [(], [)] or has fewer than ten digits; the service rule
    set [validateContactData] reports a violation for phone if and only if
    the phone has more than 20 characters. *)
Theorem C3_phone_rule (p : payload) (s : string) :
  phone p = JS.VStr s -> s <> "" ->
  (reports "phone" (Validation.validateContact_errors p) = true <->
   (JS.all_chars Validation.phone_char s = false \/ (count_digits s < 10)%nat)) /\
  (reports "phone" (Service.validateContactData p) = true <->
   (20 < String.length s)%nat).
Proof.
  intros Hp Hs. unfold reports.
  rewrite middleware_for_phone, service_for_phone, Hp.
  unfold Validation.check_phone, Service.check_phone, JS.length_gt, JS.length_of.
  rewrite (provided_string s Hs).
  split.
  - pose proof (isValidPhone_spec s) as Hv.
    destruct (Validation.isValidPhone s); cbn [negb].
    + destruct Hv as [Hv _]. destruct (Hv eq_refl) as [Ha Hd].
      split; [discriminate|]. intros [H|H]; [congruence | lia].
    + split; [|reflexivity]. intros _.
      destruct (JS.all_chars Validation.phone_char s) eqn:Ha; [|now left].
      right. destruct (Nat.lt_ge_cases (count_digits s) 10) as [|Hd];
        [assumption|].
      destruct Hv as [_ Hv]. now specialize (Hv (conj eq_refl Hd)).
  - destruct (20 <? String.length s)%nat eqn:Hl.
    + apply Nat.ltb_lt in Hl. split; [auto | reflexivity].
    + apply Nat.ltb_ge in Hl. split; [discriminate | lia].
Qed.

(** The theorem applied to the phone of ten letters. *)
Lemma C3_phone_rule_witness :
  let p := Payload (JS.VStr "Ada") (JS.VStr "Byron") JS.VUndefined
             (JS.VStr "abcdefghij") JS.VUndefined JS.VUndefined in
  reports "phone" (Validation.validateContact_errors p) = true /\
  ~ reports "phone" (Service.validateContactData p) = true.
Proof.
  intros p.
  assert (Hne : "abcdefghij" <> "") by discriminate.
  destruct (C3_phone_rule p "abcdefghij" eq_refl Hne) as [Hm Hs].
  split.
  - apply Hm. left. reflexivity.
  - intros H. apply Hs in H. simpl in H. lia.
Defined.

(** C4, as stated, fails on the middleware rule set: a well-shaped email of
    101 characters gets no violation from [validateContact], which has no
    length test for email and lets the body pass; it is the service rule
    set behind it that reports the length. *)
Lemma C4_middleware_length_counterexample :
  let s := JS.repeat_char "a" 95 ++ "@b.com" in
  let p := Payload (JS.VStr "Ada") (JS.VStr "Byron") (JS.VStr s)
             JS.VUndefined JS.VUndefined JS.VUndefined in
  String.length s = 101%nat /\
  Validation.isValidEmail s = true /\
  Validation.validateContact_errors p = [] /\
  Validation.validateContact p = Next /\
  Service.validateContactData p =
    [Violation "email" "Email must not exceed 100 characters"].
Proof. repeat split. Qed.

(** C4, amended: for every payload whose email is a non-empty string, the
    middleware rule set [validateContact] reports a violation for email if
    and only if the email does not have the shape [local@domain.tld], with
    the message "Invalid email format", whatever its length; the service
    rule set [validateContactData] reports one if and only if the email
    does not have that shape or has more than 100 characters, with
    "Invalid email format" for the shape and "Email must not exceed 100
    characters" for the length of a well-shaped email.  In both cases
    [Service.create] throws the validation failure and a POST request is
    answered 400 "Validation failed" with the store and the repository
    untouched; so a well-shaped email of 101 characters passes the
    middleware and is rejected by the service. *)
Theorem C4_email_rule (p : payload) (s : string) :
  email p = JS.VStr s -> s <> "" ->
  (reports "email" (Validation.validateContact_errors p) = true <->
   ~ email_shape s) /\
  (~ email_shape s ->
   violations_for "email" (Validation.validateContact_errors p) =
     [Violation "email" "Invalid email format"]) /\
  (reports "email" (Service.validateContactData p) = true <->
   (~ email_shape s \/ (100 < String.length s)%nat)) /\
  (~ email_shape s ->
   violations_for "email" (Service.validateContactData p) =
     [Violation "email" "Invalid email format"]) /\
  (email_shape s -> (100 < String.length s)%nat ->
   violations_for "email" (Service.validateContactData p) =
     [Violation "email" "Email must not exceed 100 characters"]) /\
  ((~ email_shape s \/ (100 < String.length s)%nat) ->
   (forall w,
      Service.create p w =
        (Throw (Service.validation_error (Service.validateContactData p)), w)) /\
   forall development w, exists r,
     Routes.post development p w = (Return r, w) /\
     status r = 400 /\ error_of r = Some "Validation failed").
Proof.
  intros Hp Hs.
  pose proof (isValidEmail_spec s) as Hv.
  assert (Hmw : violations_for "email" (Validation.validateContact_errors p) =
                if Validation.isValidEmail s then []
                else [Violation "email" "Invalid email format"]).
  { rewrite middleware_for_email, Hp. unfold Validation.check_email.
    rewrite (provided_string s Hs).
    destruct (Validation.isValidEmail s); reflexivity. }
  assert (Hsv : violations_for "email" (Service.validateContactData p) =
                if Validation.isValidEmail s then
                  if (100 <? String.length s)%nat
                  then [Violation "email" "Email must not exceed 100 characters"]
                  else []
                else [Violation "email" "Invalid email format"]).
  { rewrite service_for_email, Hp.
    unfold Service.check_email, JS.length_gt, JS.length_of.
    rewrite (provided_string s Hs). cbn [JS.to_string].
    unfold Validation.isValidEmail.
    destruct (JS.test Validation.emailRegex s); reflexivity. }
  assert (Hrep : ~ email_shape s \/ (100 < String.length s)%nat ->
                 reports "email" (Service.validateContactData p) = true).
  { unfold reports. rewrite Hsv. intros [H|H].
    - destruct (Validation.isValidEmail s); [|reflexivity].
      exfalso. apply H, Hv. reflexivity.
    - apply Nat.ltb_lt in H. rewrite H.
      destruct (Validation.isValidEmail s); reflexivity. }
  split; [exact (middleware_email_rule p s Hp Hs)|].
  split.
  { intros H. rewrite Hmw. destruct (Validation.isValidEmail s); [|reflexivity].
    exfalso. apply H, Hv. reflexivity. }
  split.
  { split; [|exact Hrep]. unfold reports. rewrite Hsv.
    destruct (Validation.isValidEmail s).
    - destruct (100 <? String.length s)%nat eqn:Hl; [|discriminate].
      intros _. right. now apply Nat.ltb_lt.
    - intros _. left. intros H. apply Hv in H. discriminate. }
  split.
  { intros H. rewrite Hsv. destruct (Validation.isValidEmail s); [|reflexivity].
    exfalso. apply H, Hv. reflexivity. }
  split.
  { intros H Hl. rewrite Hsv. apply Hv in H. rewrite H.
    apply Nat.ltb_lt in Hl. now rewrite Hl. }
  intros Hbad. specialize (Hrep Hbad). apply reports_nonempty in Hrep. split.
  - intros w. exact (proj1 (create_rejects false p w Hrep)).
  - intros development w. unfold Routes.post.
    destruct (Validation.validateContact p) as [r|] eqn:Hm.
    + exists r. apply middleware_response_details in Hm as (H1 & H2 & _).
      repeat split; assumption.
    + destruct (create_rejects development p w Hrep) as [_ ->].
      eexists. repeat split.
Qed.

(** The theorem applied to a well-shaped email of 101 characters. *)
Lemma C4_email_rule_witness :
  let s := JS.repeat_char "a" 95 ++ "@b.com" in
  let p := Payload (JS.VStr "Ada") (JS.VStr "Byron") (JS.VStr s)
             JS.VUndefined JS.VUndefined JS.VUndefined in
  String.length s = 101%nat /\
  Validation.isValidEmail s = true /\
  ~ reports "email" (Validation.validateContact_errors p) = true /\
  reports "email" (Service.validateContactData p) = true /\
  exists r, Routes.post false p (World (Db.Make ∅ 1 0 []) []) =
              (Return r, World (Db.Make ∅ 1 0 []) []) /\ status r = 400.
Proof.
  intros s p.
  assert (Hlen : String.length s = 101%nat) by reflexivity.
  assert (Hne : s <> "") by discriminate.
  assert (Hbad : ~ email_shape s \/ (100 < String.length s)%nat)
    by (right; rewrite Hlen; lia).
  assert (Hshape : email_shape s) by (apply isValidEmail_spec; reflexivity).
  destruct (C4_email_rule p s eq_refl Hne) as (Hmw & _ & Hsv & _ & _ & Hpost).
  split; [exact Hlen|]. split; [reflexivity|].
  split; [intros H; apply Hmw in H; exact (H Hshape)|].
  split; [apply Hsv; exact Hbad|].
  destruct (Hpost Hbad) as [_ Hp].
  destruct (Hp false (World (Db.Make ∅ 1 0 []) [])) as (r & Hr & Hst & _).
  exists r. split; assumption.
Defined.

(* ===================================================================== *)
(** * The error classifier and the error response *)
(* ===================================================================== *)

(** C6, as stated, fails at its last step: an error without status whose
    message is "permission denied for table contacts" matches none of the
    rules the claim lists (its code 42501 is not a constraint code), and the
    classifier returns 403, not the default 500; a message with
    "unauthorized" gives 401.  And a [statusCode] attribute that is 0 is not
    returned: the classifier goes on to the message. *)
Lemma C6_default_counterexample :
  let e := JsError (Some "permission denied for table contacts") None None
             (Some "42501") false None None in
  mentions "permission denied for table contacts" "not found" = false /\
  mentions "permission denied for table contacts" "does not exist" = false /\
  mentions "permission denied for table contacts" "validation" = false /\
  mentions "permission denied for table contacts" "invalid" = false /\
  mentions "permission denied for table contacts" "required" = false /\
  constraint_code e = false /\
  ErrorHandler.getStatusCode e = Return 403 /\
  ErrorHandler.getStatusCode (new_Error "Unauthorized") = Return 401 /\
  ErrorHandler.getStatusCode
    (JsError (Some "Contact not found") (Some 0) None None false None None)
  = Return 404.
Proof. repeat split. Qed.

(** C6, amended: the classifier takes the first matching rule, in this
    order: a [statusCode] that is not 0 (the code tests it with [if]) is
    returned as it is; otherwise a [status] that is not 0; otherwise a
    message containing "not found" or "does not exist" gives 404, whatever
    the storage-constraint code; otherwise a message containing
    "validation", "invalid" or "required" gives 400; otherwise the codes
    23505, 23503, 23502 give 409, 400, 400; otherwise a message containing
    "unauthorized" or "authentication" gives 401; otherwise one containing
    "forbidden" or "permission" gives 403; otherwise the default is 500. *)
Theorem C6_first_match_order (e : js_error) :
  (forall c, err_statusCode e = Some c -> c <> 0 ->
             ErrorHandler.getStatusCode e = Return c) /\
  (forall c, ErrorHandler.truthy_code (err_statusCode e) = false ->
             err_status e = Some c -> c <> 0 ->
             ErrorHandler.getStatusCode e = Return c) /\
  (forall m, no_status e -> err_message e = Some m ->
     (mentions m "not found" || mentions m "does not exist" = true ->
      ErrorHandler.getStatusCode e = Return 404) /\
     (mentions m "not found" || mentions m "does not exist" = false ->
      (mentions m "validation" || mentions m "invalid" ||
       mentions m "required" = true ->
       ErrorHandler.getStatusCode e = Return 400) /\
      (mentions m "validation" || mentions m "invalid" ||
       mentions m "required" = false ->
       (err_code e = Some "23505" -> ErrorHandler.getStatusCode e = Return 409) /\
       (err_code e = Some "23503" -> ErrorHandler.getStatusCode e = Return 400) /\
       (err_code e = Some "23502" -> ErrorHandler.getStatusCode e = Return 400) /\
       (constraint_code e = false ->
        (mentions m "unauthorized" || mentions m "authentication" = true ->
         ErrorHandler.getStatusCode e = Return 401) /\
        (mentions m "unauthorized" || mentions m "authentication" = false ->
         (mentions m "forbidden" || mentions m "permission" = true ->
          ErrorHandler.getStatusCode e = Return 403) /\
         (mentions m "forbidden" || mentions m "permission" = false ->
          ErrorHandler.getStatusCode e = Return 500)))))).
Proof.
  unfold ErrorHandler.getStatusCode, no_status, constraint_code, mentions,
    ErrorHandler.code_is.
  split; [|split].
  - intros c Hc Hne. rewrite Hc. simpl.
    destruct (c =? 0) eqn:E; [apply Z.eqb_eq in E; contradiction | reflexivity].
  - intros c Hsc Hc Hne. rewrite Hsc, Hc. simpl.
    destruct (c =? 0) eqn:E; [apply Z.eqb_eq in E; contradiction | reflexivity].
  - intros m [Hsc Hst] Hm. rewrite Hsc, Hst, Hm.
    split; [intros ->; reflexivity|]. intros ->.
    split; [intros ->; reflexivity|]. intros ->.
    split; [intros ->; reflexivity|].
    split; [intros ->; reflexivity|].
    split; [intros ->; reflexivity|].
    destruct (err_code e) as [k|]; simpl.
    + intros Hk. apply orb_false_iff in Hk as [Hk H3].
      apply orb_false_iff in Hk as [H1 H2]. rewrite H1, H2, H3.
      split; [intros ->; reflexivity|]. intros ->.
      split; intros ->; reflexivity.
    + intros _. split; [intros ->; reflexivity|]. intros ->.
      split; intros ->; reflexivity.
Qed.

(** The theorem applied to a "not found" message that comes with the
    unique-violation code, and to an explicit status code. *)
Lemma C6_first_match_order_witness :
  ErrorHandler.getStatusCode
    (JsError (Some "Record not found") None None (Some "23505") false None None)
  = Return 404 /\
  ErrorHandler.getStatusCode
    (JsError (Some "Validation failed") (Some 418) None None false None None)
  = Return 418.
Proof.
  split.
  - refine (proj1 (proj2 (proj2 (C6_first_match_order
                (JsError (Some "Record not found") None None (Some "23505")
                   false None None))) "Record not found" _ eq_refl) _).
    + split; reflexivity.
    + reflexivity.
  - refine (proj1 (C6_first_match_order
                (JsError (Some "Validation failed") (Some 418) None None
                   false None None)) 418 eq_refl _).
    discriminate.
Defined.

(** C9: the classifier returns a status for every error whose message is a
    string, and an error with no [statusCode], no [status] and no message
    makes [getStatusCode], and with it [errorHandler], throw the TypeError
    of reading [toLowerCase] on [undefined] instead of returning 500. *)
Theorem C9_classifier_throws_without_message (e : js_error) :
  (forall m, err_message e = Some m ->
             exists c, ErrorHandler.getStatusCode e = Return c) /\
  (err_statusCode e = None -> err_status e = None -> err_message e = None ->
   ErrorHandler.getStatusCode e =
     Throw (TypeError
              "Cannot read properties of undefined (reading 'toLowerCase')") /\
   forall development,
     ErrorHandler.errorHandler development e =
       Throw (TypeError
                "Cannot read properties of undefined (reading 'toLowerCase')")).
Proof.
  split.
  - intros m Hm. unfold ErrorHandler.getStatusCode. rewrite Hm.
    repeat match goal with
           | |- context [if ?b then _ else _] => destruct b
           end; eexists; reflexivity.
  - intros Hsc Hst Hm.
    assert (H : ErrorHandler.getStatusCode e =
                Throw (TypeError
                  "Cannot read properties of undefined (reading 'toLowerCase')")).
    { unfold ErrorHandler.getStatusCode. now rewrite Hsc, Hst, Hm. }
    split; [exact H|].
    intros development. unfold ErrorHandler.errorHandler. now rewrite H.
Qed.

(** The theorem applied to a thrown object that has only a [code]. *)
Lemma C9_classifier_throws_without_message_witness :
  ErrorHandler.errorHandler false
    (JsError None None None (Some "ECONNRESET") false None None) =
  Throw (TypeError "Cannot read properties of undefined (reading 'toLowerCase')").
Proof.
  exact (proj2 (proj2 (C9_classifier_throws_without_message
                         (JsError None None None (Some "ECONNRESET") false
                            None None))
                  eq_refl eq_refl eq_refl) false).
Defined.

(** C7, as stated, fails in both ranges: an operational error with status
    503 reaches the client with its own message, and an error with the
    unique-violation code, classified 409, reaches the client with the fixed
    friendly message instead of its own.  In development mode the body of a
    500 response also carries the original message, as [originalMessage]. *)
Lemma C7_message_counterexample :
  ErrorHandler.errorHandler false
    (ErrorHandler.AppError "Connection pool exhausted" 503) =
  Return (Response 503
            (BodyError (ErrorBody (Some "Connection pool exhausted")
                          None None None))) /\
  ErrorHandler.errorHandler false
    (JsError (Some "duplicate key value") None None (Some "23505") false None None) =
  Return (Response 409
            (BodyError (ErrorBody
                          (Some "A record with this information already exists")
                          None None None))) /\
  ErrorHandler.errorHandler true (new_Error "Database connection failed") =
  Return (Response 500
            (BodyError (ErrorBody (Some "Internal server error") None
                          (Some "Error: Database connection failed")
                          (Some "Database connection failed")))).
Proof. repeat split. Qed.

(** C7, amended: for every error that is not flagged operational and has
    none of the codes 23505, 23503, 23502, the [error] member of the
    response is "Internal server error" when the status is in the 5xx range
    and the original message when it is in the 4xx range.  An operational
    error always answers with its own message.  An error that is not
    operational answers, whatever its status and its message, with "A
    record with this information already exists" when its code is 23505,
    with "Referenced record does not exist" when it is 23503 and with
    "Required field is missing" when it is 23502.  Outside development mode
    the body carries no [originalMessage] and no [stack]. *)
Theorem C7_sanitized_message (development : bool) (e : js_error) (r : response) :
  ErrorHandler.errorHandler development e = Return r ->
  (err_isOperational e = false -> constraint_code e = false ->
   (500 <= status r < 600 -> error_of r = Some "Internal server error") /\
   (400 <= status r < 500 -> error_of r = err_message e)) /\
  (err_isOperational e = true -> error_of r = err_message e) /\
  (err_isOperational e = false ->
   (err_code e = Some "23505" ->
    error_of r = Some "A record with this information already exists") /\
   (err_code e = Some "23503" ->
    error_of r = Some "Referenced record does not exist") /\
   (err_code e = Some "23502" ->
    error_of r = Some "Required field is missing")) /\
  (development = false ->
   exists d, json r = BodyError (ErrorBody (error_of r) d None None)).
Proof.
  unfold ErrorHandler.errorHandler.
  destruct (ErrorHandler.getStatusCode e) as [c|]; [|discriminate].
  intros [= <-]. unfold error_of, constraint_code. simpl.
  unfold ErrorHandler.sanitizeErrorMessage.
  split; [|split; [|split]].
  - intros -> H. apply orb_false_iff in H as [H H3].
    apply orb_false_iff in H as [H1 H2]. rewrite H1, H2, H3.
    split; intros Hc.
    + replace ((400 <=? c) && (c <? 500)) with false by lia. reflexivity.
    + replace ((400 <=? c) && (c <? 500)) with true by lia. reflexivity.
  - intros ->. reflexivity.
  - intros ->. unfold ErrorHandler.code_is.
    repeat split; intros ->; reflexivity.
  - intros ->. eexists. reflexivity.
Qed.

(** The theorem applied to the wrapped storage failure of the service, and
    to a foreign-key violation whose own message contains "not found". *)
Lemma C7_sanitized_message_witness :
  (exists r,
     ErrorHandler.errorHandler false (new_Error "Failed to create contact") =
       Return r /\
     status r = 500 /\ error_of r = Some "Internal server error") /\
  (exists r,
     ErrorHandler.errorHandler false
       (JsError (Some "Key (owner)=(7) not found in table owners") None None
          (Some "23503") false None None) = Return r /\
     status r = 404 /\ error_of r = Some "Referenced record does not exist").
Proof.
  split.
  - eexists. split; [reflexivity|]. split; [reflexivity|].
    refine (proj1 (proj1 (C7_sanitized_message false
                            (new_Error "Failed to create contact") _ eq_refl)
                     eq_refl eq_refl) _).
    simpl. lia.
  - eexists. split; [reflexivity|]. split; [reflexivity|].
    exact (proj1 (proj2 (proj1 (proj2 (proj2
             (C7_sanitized_message false
                (JsError (Some "Key (owner)=(7) not found in table owners")
                   None None (Some "23503") false None None) _ eq_refl)))
             eq_refl)) eq_refl).
Defined.

(* ===================================================================== *)
(** * The service: existence check, validation, write *)
(* ===================================================================== *)

Section ServiceFacts.
Import JS.

(** What [Repository.findById] returns and leaves behind. *)
Lemma findById_run (id : number) (w : world) :
  Repository.findById id w =
  (match Db.faults (db w) with
   | Some e :: _ => Throw e
   | _ => Return (Repository.mapRowToContact <$> Db.find (db w) id)
   end, after_lookup w id).
Proof.
  unfold Repository.findById, bind, try_catch, record_call, query, throw, ret,
    Db.pool_query, after_lookup. simpl.
  destruct (Db.faults (db w)) as [|[e|] fs]; try reflexivity;
    destruct (Db.find (db w) id); reflexivity.
Qed.

Lemma findById_healthy (id : number) (w : world) :
  healthy (db w) = true ->
  Repository.findById id w =
  (Return (Repository.mapRowToContact <$> Db.find (db w) id), after_lookup w id).
Proof.
  intros H. rewrite findById_run. unfold healthy in H.
  destruct (Db.faults (db w)) as [|[e|] fs]; [reflexivity | discriminate | reflexivity].
Qed.

(** Unless the lookup finds the contact and the fields are valid,
    [Service.update] stops right after the lookup. *)
Lemma update_stops (id : number) (fields : payload) (w : world) :
  healthy (db w) = false \/ Db.find (db w) id = None \/
  (0 <? List.length (Service.validateContactData fields))%nat = true ->
  exists e, Service.update id fields w = (Throw e, after_lookup w id).
Proof.
  intros H. unfold Service.update, bind. rewrite findById_run.
  unfold healthy in H.
  destruct (Db.faults (db w)) as [|[e|] fs]; try (eexists; reflexivity).
  - destruct H as [H|[H|H]]; [discriminate| |].
    + rewrite H. eexists; reflexivity.
    + destruct (Db.find (db w) id); simpl; [rewrite H|]; eexists; reflexivity.
  - destruct H as [H|[H|H]]; [discriminate| |].
    + rewrite H. eexists; reflexivity.
    + destruct (Db.find (db w) id); simpl; [rewrite H|]; eexists; reflexivity.
Qed.

Lemma blank_firstName_reported (p : payload) :
  blank (firstName p) = true ->
  reports "firstName" (Service.validateContactData p) = true.
Proof.
  unfold reports. rewrite service_for_firstName. unfold Service.check_firstName.
  destruct (firstName p) as [| | | |s| |]; try discriminate; try reflexivity.
  simpl. intros H. destruct s; [reflexivity|].
  simpl negb. cbv iota. simpl orb. cbv iota.
  rewrite (trim_blank _ H). reflexivity.
Qed.

Lemma blank_lastName_reported (p : payload) :
  blank (lastName p) = true ->
  reports "lastName" (Service.validateContactData p) = true.
Proof.
  unfold reports. rewrite service_for_lastName. unfold Service.check_lastName.
  destruct (lastName p) as [| | | |s| |]; try discriminate; try reflexivity.
  simpl. intros H. destruct s; [reflexivity|].
  simpl negb. cbv iota. simpl orb. cbv iota.
  rewrite (trim_blank _ H). reflexivity.
Qed.

End ServiceFacts.

(** C1: when the repository finds no contact for the id, [Service.update]
    throws the not-found error with status 404, classified 404 by the error
    handler, whatever the fields are; the lookup is the only repository
    call it makes, and the table is unchanged.  More generally
    [Service.update] records a repository [update] call only if the lookup
    found the contact and the fields passed validation: the existence check
    comes before validation, and validation before the write. *)
Theorem C1_update_checks_existence_first
  (id : JS.number) (fields : payload) (w : world) :
  (forall w1,
     Repository.findById id w = (Return None, w1) ->
     Service.update id fields w = (Throw Service.not_found, w1) /\
     err_statusCode Service.not_found = Some 404 /\
     ErrorHandler.getStatusCode Service.not_found = Return 404 /\
     calls w1 = (calls w ++ [CallFindById id])%list /\
     Db.rows (db w1) = Db.rows (db w)) /\
  (forall o w' i c,
     Service.update id fields w = (o, w') ->
     In (CallUpdate i c) (calls w') ->
     In (CallUpdate i c) (calls w) \/
     ((exists found w1,
         Repository.findById id w = (Return (Some found), w1)) /\
      Service.validateContactData fields = [])).
Proof.
  split.
  - intros w1 Hfind.
    assert (Hw1 : w1 = after_lookup w id).
    { rewrite findById_run in Hfind. now injection Hfind. }
    split; [unfold Service.update, bind; now rewrite Hfind|].
    subst w1. repeat split.
  - intros o w' i c Hrun Hin.
    assert (Hstop : (exists e, Service.update id fields w =
                                 (Throw e, after_lookup w id)) ->
                    In (CallUpdate i c) (calls w)).
    { intros [e He]. rewrite He in Hrun. injection Hrun as _ <-.
      simpl in Hin. apply in_app_or in Hin as [Hin|[Hin|[]]];
        [assumption | discriminate]. }
    destruct (healthy (db w)) eqn:Hh.
    + destruct (Db.find (db w) id) as [r|] eqn:Hf.
      * destruct (Service.validateContactData fields) as [|v vs] eqn:Hv.
        -- right. split; [|reflexivity].
           exists (Repository.mapRowToContact r), (after_lookup w id).
           rewrite (findById_healthy id w Hh), Hf. reflexivity.
        -- left. apply Hstop, update_stops. right; right. now rewrite Hv.
      * left. apply Hstop, update_stops. tauto.
    + left. apply Hstop, update_stops. tauto.
Qed.

(** The theorem applied to id 999 on an empty table, with invalid fields;
    and the request [PUT /api/contacts/999] with a valid body, answered 404
    after the lookup alone. *)
Lemma C1_update_checks_existence_first_witness :
  let w := World (Db.Make ∅ 1 0 []) [] in
  let w1 := World (Db.Make ∅ 1 1 []) [CallFindById (JS.Finite 999)] in
  let invalid := Payload JS.VUndefined JS.VUndefined JS.VUndefined
                   JS.VUndefined JS.VUndefined JS.VUndefined in
  let valid := Payload (JS.VStr "Jane") (JS.VStr "Smith") JS.VUndefined
                 JS.VUndefined JS.VUndefined JS.VUndefined in
  Service.update (JS.Finite 999) invalid w = (Throw Service.not_found, w1) /\
  Routes.put false "999" valid w =
    (Return (Response 404
               (BodyError (ErrorBody (Some "Contact not found") None None None))),
     w1).
Proof.
  intros w w1 invalid valid. split.
  - exact (proj1 (proj1 (C1_update_checks_existence_first
                           (JS.Finite 999) invalid w) w1 eq_refl)).
  - reflexivity.
Defined.

(** C2, as stated, fails for update: on an existing id and a payload
    without firstName, [Service.update] does call the repository, to look
    the contact up, before it raises the validation failure. *)
Lemma C2_update_lookup_counterexample :
  let row := Db.Row 1 (JS.VStr "Jane") (JS.VStr "Smith") JS.VNull JS.VNull
               JS.VNull JS.VNull 0 0 in
  let w := World (Db.Make {[ 1 := row ]} 2 1 []) [] in
  let p := Payload JS.VUndefined (JS.VStr "Doe") JS.VUndefined JS.VUndefined
             JS.VUndefined JS.VUndefined in
  exists e w',
    Service.update (JS.Finite 1) p w = (Throw e, w') /\
    err_statusCode e = Some 400 /\
    calls w = [] /\
    calls w' = [CallFindById (JS.Finite 1)].
Proof. eexists. eexists. repeat split. Qed.

(** C2, amended: for every payload whose firstName or lastName is missing
    (absent or null) or holds only white space, the service rule set reports
    that field; [Service.create] throws the validation failure with status
    400 and these details without any repository call and without touching
    the store; [Service.update] on an id that the repository finds throws
    the same failure after that lookup, which is its only repository call,
    and leaves the table unchanged. *)
Theorem C2_blank_name_rejected (p : payload) :
  blank (firstName p) = true \/ blank (lastName p) = true ->
  (blank (firstName p) = true ->
   reports "firstName" (Service.validateContactData p) = true) /\
  (blank (lastName p) = true ->
   reports "lastName" (Service.validateContactData p) = true) /\
  err_statusCode (Service.validation_error (Service.validateContactData p))
    = Some 400 /\
  err_details (Service.validation_error (Service.validateContactData p))
    = Some (Service.validateContactData p) /\
  (forall w,
     Service.create p w =
       (Throw (Service.validation_error (Service.validateContactData p)), w)) /\
  (forall id w found w1,
     Repository.findById id w = (Return (Some found), w1) ->
     Service.update id p w =
       (Throw (Service.validation_error (Service.validateContactData p)), w1) /\
     calls w1 = (calls w ++ [CallFindById id])%list /\
     Db.rows (db w1) = Db.rows (db w)).
Proof.
  intros Hblank.
  assert (Hne : (0 <? List.length (Service.validateContactData p))%nat = true).
  { destruct Hblank as [H|H];
      [apply blank_firstName_reported in H | apply blank_lastName_reported in H];
      exact (reports_nonempty _ _ H). }
  split; [apply blank_firstName_reported|].
  split; [apply blank_lastName_reported|].
  split; [reflexivity|]. split; [reflexivity|]. split.
  - intros w. unfold Service.create. now rewrite Hne.
  - intros id w found w1 Hfind.
    assert (Hw1 : w1 = after_lookup w id).
    { rewrite findById_run in Hfind. now injection Hfind. }
    split; [unfold Service.update, bind; now rewrite Hfind, Hne|].
    subst w1. split; reflexivity.
Qed.

(** The theorem applied to a payload whose firstName is three spaces, for
    create on an empty table and for update on the id of a stored contact. *)
Lemma C2_blank_name_rejected_witness :
  let p := Payload (JS.VStr "   ") (JS.VStr "Doe") JS.VUndefined JS.VUndefined
             JS.VUndefined JS.VUndefined in
  let row := Db.Row 1 (JS.VStr "Jane") (JS.VStr "Smith") JS.VNull JS.VNull
               JS.VNull JS.VNull 0 0 in
  let w := World (Db.Make {[ 1 := row ]} 2 1 []) [] in
  let w1 := World (Db.Make {[ 1 := row ]} 2 2 []) [CallFindById (JS.Finite 1)] in
  Service.validateContactData p =
    [Violation "firstName" "First name cannot be empty"] /\
  Service.create p w =
    (Throw (Service.validation_error (Service.validateContactData p)), w) /\
  Service.update (JS.Finite 1) p w =
    (Throw (Service.validation_error (Service.validateContactData p)), w1).
Proof.
  intros p row w w1. split; [reflexivity|].
  assert (H : blank (firstName p) = true \/ blank (lastName p) = true)
    by (left; reflexivity).
  destruct (C2_blank_name_rejected p H) as (_ & _ & _ & _ & Hc & Hu).
  split; [exact (Hc w)|].
  exact (proj1 (Hu (JS.Finite 1) w (Repository.mapRowToContact row) w1 eq_refl)).
Defined.

(* ===================================================================== *)
(** * Decimal digits, doubles and [toString] *)
(* ===================================================================== *)

Section NumberFacts.
Import JS.

Lemma all_chars_app (p : ascii -> bool) (s t : string) :
  all_chars p (s ++ t) = all_chars p s && all_chars p t.
Proof.
  induction s as [|c s IH]; [reflexivity|].
  rewrite append_cons. simpl. now rewrite IH, andb_assoc.
Qed.

Lemma digits_value_app (a : Z) (s t : string) :
  digits_value a (s ++ t) = digits_value (digits_value a s) t.
Proof.
  revert a. induction s as [|c s IH]; intros a; [reflexivity|].
  rewrite append_cons. simpl. apply IH.
Qed.

Lemma take_digits_all (s : string) :
  all_chars is_digit s = true -> take_digits s = s.
Proof.
  induction s as [|c s IH]; simpl; [reflexivity|].
  intros H. apply andb_true_iff in H as [Hc Hs]. now rewrite Hc, IH.
Qed.

(** The ten digit characters. *)
Lemma digit_char_facts (d : Z) :
  0 <= d <= 9 ->
  is_digit (digit_char d) = true /\ digit_val (digit_char d) = d /\
  is_space (digit_char d) = false /\
  (0 < d -> digit_char d <> "0"%char).
Proof.
  intros H.
  assert (E : d = 0 \/ d = 1 \/ d = 2 \/ d = 3 \/ d = 4 \/ d = 5 \/ d = 6 \/
              d = 7 \/ d = 8 \/ d = 9) by lia.
  repeat destruct E as [->|E]; try subst d;
    (split; [reflexivity|]; split; [reflexivity|]; split; [reflexivity|];
     intros H0; try lia; intros E0; vm_compute in E0; discriminate).
Qed.

(** A digit is neither white space nor a sign. *)
Lemma digit_not_sign (c : ascii) (r : string) :
  is_digit c = true ->
  is_space c = false /\
  match String c r with
  | String "-" r' => (true, r')
  | String "+" r' => (false, r')
  | _ => (false, String c r)
  end = (false, String c r).
Proof.
  destruct c as [[] [] [] [] [] [] [] []]; try discriminate; intros _;
    split; reflexivity.
Qed.

Lemma digits_of_acc (f : nat) (z : Z) (acc : string) :
  digits_of f z acc = digits_of f z "" ++ acc.
Proof.
  revert z acc. induction f as [|f IH]; intros z acc; simpl; [reflexivity|].
  destruct (z <? 10); [reflexivity|].
  rewrite (IH _ (String _ acc)), (IH _ (String _ "")).
  now rewrite append_assoc.
Qed.

Lemma digits_of_more_fuel (f : nat) (z : Z) (acc : string) :
  0 <= z < 2 ^ Z.of_nat (S f) ->
  digits_of (S f) z acc = digits_of (S (S f)) z acc.
Proof.
  revert z acc. induction f as [|f IH]; intros z acc Hz.
  - change (2 ^ Z.of_nat 1) with 2 in Hz. simpl.
    destruct (z <? 10) eqn:E; [reflexivity | apply Z.ltb_ge in E; lia].
  - change (digits_of (S (S f)) z acc) with
      (let acc' := String (digit_char (z mod 10)) acc in
       if z <? 10 then acc' else digits_of (S f) (z / 10) acc').
    change (digits_of (S (S (S f))) z acc) with
      (let acc' := String (digit_char (z mod 10)) acc in
       if z <? 10 then acc' else digits_of (S (S f)) (z / 10) acc').
    cbv zeta. destruct (z <? 10); [reflexivity|].
    apply IH. split; [apply Z.div_pos; lia|].
    apply Z.div_lt_upper_bound; [lia|].
    rewrite (Nat2Z.inj_succ (S f)), Z.pow_succ_r in Hz by lia. lia.
Qed.

Lemma digits_of_enough (f g : nat) (z : Z) (acc : string) :
  0 <= z < 2 ^ Z.of_nat (S f) -> (f <= g)%nat ->
  digits_of (S f) z acc = digits_of (S g) z acc.
Proof.
  intros Hz Hfg. induction Hfg as [|g Hfg IH]; [reflexivity|].
  rewrite IH. apply digits_of_more_fuel.
  destruct Hz as [H0 Hz]. split; [assumption|].
  eapply Z.lt_le_trans; [exact Hz|].
  apply Z.pow_le_mono_r; lia.
Qed.

Lemma decimal_small (z : Z) :
  0 <= z < 10 -> decimal z = String (digit_char z) "".
Proof.
  intros Hz. unfold decimal. simpl.
  rewrite Z.mod_small by lia.
  destruct (z <? 10) eqn:E; [reflexivity | apply Z.ltb_ge in E; lia].
Qed.

Lemma decimal_step (z : Z) :
  10 <= z -> decimal z = decimal (z / 10) ++ String (digit_char (z mod 10)) "".
Proof.
  intros Hz. unfold decimal.
  assert (Hlog : 3 <= Z.log2 z).
  { apply Z.log2_le_pow2; [lia|]. change (2 ^ 3) with 8. lia. }
  assert (Hq : 0 < z / 10) by (apply Z.div_str_pos; lia).
  assert (Hup : z < 2 ^ Z.succ (Z.log2 z)) by (apply Z.log2_spec; lia).
  assert (Hlt : Z.log2 (z / 10) < Z.log2 z).
  { apply Z.log2_lt_pow2; [assumption|].
    apply Z.div_lt_upper_bound; [lia|].
    rewrite Z.pow_succ_r in Hup by lia. lia. }
  destruct (Z.to_nat (Z.log2 z)) as [|a] eqn:Ea; [lia|].
  change (digits_of (S (S a)) z "") with
    (let acc' := String (digit_char (z mod 10)) "" in
     if z <? 10 then acc' else digits_of (S a) (z / 10) acc').
  cbv zeta. destruct (z <? 10) eqn:E; [apply Z.ltb_lt in E; lia|].
  rewrite digits_of_acc. f_equal.
  symmetry. apply digits_of_enough; [|lia].
  split; [lia|].
  replace (Z.of_nat (S (Z.to_nat (Z.log2 (z / 10)))))
    with (Z.succ (Z.log2 (z / 10))).
  - apply Z.log2_spec. assumption.
  - pose proof (Z.log2_nonneg (z / 10)). lia.
Qed.

(** Induction along the decimal digits. *)
Lemma decimal_ind (P : Z -> Prop) :
  (forall z, 0 <= z < 10 -> P z) ->
  (forall z, 10 <= z -> P (z / 10) -> P z) ->
  forall z, 0 <= z -> P z.
Proof.
  intros Hsmall Hstep z Hz. revert Hz.
  induction z as [z IH] using (well_founded_induction (Z.lt_wf 0)).
  intros Hz. destruct (Z_lt_ge_dec z 10) as [Hlt|Hge].
  - apply Hsmall. lia.
  - apply Hstep; [lia|]. apply IH.
    + split; [apply Z.div_pos; lia | apply Z.div_lt; lia].
    + apply Z.div_pos; lia.
Qed.

Lemma decimal_all_digits (z : Z) :
  0 <= z -> all_chars is_digit (decimal z) = true.
Proof.
  revert z. apply decimal_ind; intros z Hz.
  - rewrite decimal_small by assumption. simpl.
    destruct (digit_char_facts z) as (-> & _); [lia | reflexivity].
  - intros IH. rewrite decimal_step, all_chars_app, IH by assumption. simpl.
    destruct (digit_char_facts (z mod 10)) as (-> & _);
      [pose proof (Z.mod_pos_bound z 10); lia | reflexivity].
Qed.

Lemma digits_value_decimal (z : Z) :
  0 <= z -> digits_value 0 (decimal z) = z.
Proof.
  revert z. apply decimal_ind; intros z Hz.
  - rewrite decimal_small by assumption. simpl.
    destruct (digit_char_facts z) as (_ & -> & _); lia.
  - intros IH. rewrite decimal_step, digits_value_app, IH by assumption. simpl.
    destruct (digit_char_facts (z mod 10)) as (_ & -> & _);
      [pose proof (Z.mod_pos_bound z 10); lia|].
    pose proof (Z.div_mod z 10). lia.
Qed.

(** The decimal digits of a positive integer start with a non-zero digit. *)
Lemma decimal_head (z : Z) :
  0 < z ->
  exists c r, decimal z = String c r /\ is_digit c = true /\ c <> "0"%char.
Proof.
  intros Hz. assert (H0 : 0 <= z) by lia. revert z H0 Hz.
  apply (decimal_ind (fun z => 0 < z -> _)); intros z Hz.
  - intros Hpos. rewrite decimal_small by assumption.
    destruct (digit_char_facts z) as (Hd & _ & _ & Hn); [lia|].
    exists (digit_char z), "". auto.
  - intros IH _. rewrite decimal_step by assumption.
    destruct IH as (c & r & -> & Hc & Hn); [apply Z.div_str_pos; lia|].
    rewrite append_cons. eauto.
Qed.

Lemma decimal_times_ten (z : Z) :
  0 < z -> decimal (z * 10) = decimal z ++ "0".
Proof.
  intros Hz. rewrite decimal_step by lia.
  now rewrite Z.div_mul, Z.mod_mul by lia.
Qed.

Lemma decimal_times_pow10 (z : Z) (j : nat) :
  0 < z -> decimal (z * 10 ^ Z.of_nat j) = decimal z ++ repeat_char "0" j.
Proof.
  revert z. induction j as [|j IH]; intros z Hz.
  - simpl. now rewrite Z.mul_1_r, append_empty_r.
  - rewrite Nat2Z.inj_succ, Z.pow_succ_r, Z.mul_assoc by lia.
    rewrite IH, decimal_times_ten by lia.
    now rewrite append_assoc.
Qed.

Lemma length_app (s t : string) :
  String.length (s ++ t) = (String.length s + String.length t)%nat.
Proof.
  induction s as [|c s IH]; [reflexivity|].
  rewrite append_cons. simpl. now rewrite IH.
Qed.

Lemma decimal_length_bound (z : Z) :
  0 <= z -> forall m, z < 10 ^ Z.of_nat (S m) ->
  (String.length (decimal z) <= S m)%nat.
Proof.
  revert z. apply (decimal_ind (fun z => forall m, _ -> _)); intros z Hz.
  - intros m _. rewrite decimal_small by assumption. simpl. lia.
  - intros IH m Hm. rewrite decimal_step, length_app by assumption. simpl.
    destruct m as [|m]; [change (10 ^ Z.of_nat 1) with 10 in Hm; lia|].
    assert (Hq : z / 10 < 10 ^ Z.of_nat (S m)).
    { apply Z.div_lt_upper_bound; [lia|].
      rewrite (Nat2Z.inj_succ (S m)), Z.pow_succ_r in Hm by lia. lia. }
    specialize (IH m Hq). lia.
Qed.


(** A positive integer below 2^53 is a double, and a larger one rounds to a
    double that is at least 2^53, or to infinity. *)
Lemma round_double_small (z : Z) :
  Z.abs z < 2 ^ 53 -> round_double z = Finite z.
Proof.
  intros H. unfold round_double. apply Z.ltb_lt in H. now rewrite H.
Qed.

Lemma round_double_large (z r : Z) :
  2 ^ 53 <= z -> round_double z = Finite r -> 2 ^ 53 <= r.
Proof.
  intros Hz. unfold round_double.
  rewrite Z.abs_eq by lia.
  destruct (z <? 2 ^ 53) eqn:E; [apply Z.ltb_lt in E; lia|].
  assert (Hlog : 53 <= Z.log2 z) by (apply Z.log2_le_pow2; lia).
  set (e := Z.log2 z - 52).
  assert (He : 1 <= e) by (unfold e; lia).
  assert (Hpow : 2 ^ 52 * 2 ^ e <= z).
  { rewrite <- Z.pow_add_r by lia. replace (52 + e) with (Z.log2 z) by (unfold e; lia).
    apply Z.log2_spec. lia. }
  assert (Hpe : 2 <= 2 ^ e).
  { change 2 with (2 ^ 1) at 1. apply Z.pow_le_mono_r; lia. }
  assert (Hq : 2 ^ 52 <= z / 2 ^ e).
  { apply Z.div_le_lower_bound; lia. }
  set (q := z / 2 ^ e) in *.
  set (q' := if z mod 2 ^ e <? 2 ^ (e - 1) then q
             else if 2 ^ (e - 1) <? z mod 2 ^ e then q + 1
                  else if Z.even q then q else q + 1).
  assert (Hq' : q <= q').
  { unfold q'. repeat match goal with
                      | |- context [if ?b then _ else _] => destruct b
                      end; lia. }
  destruct (q' * 2 ^ e <? 2 ^ 1024); [|discriminate].
  intros [= <-]. rewrite Z.sgn_pos by lia.
  change (2 ^ 53) with (2 ^ 52 * 2). nia.
Qed.

Lemma rounds_to_exact (m v : Z) :
  0 < m -> 0 < v < 2 ^ 53 -> rounds_to m v = true -> m = v.
Proof.
  intros Hm Hv. unfold rounds_to.
  destruct (Z_lt_ge_dec m (2 ^ 53)) as [Hlt|Hge].
  - rewrite round_double_small by (rewrite Z.abs_eq; lia).
    intros H. apply Z.eqb_eq in H. exact H.
  - destruct (round_double m) as [|neg|r] eqn:E; try discriminate.
    apply round_double_large in E; [|lia].
    intros H. apply Z.eqb_eq in H. lia.
Qed.

Lemma closer_cases (v k : Z) (a b : Z * Z) :
  closer v k a b = a \/ closer v k a b = b.
Proof.
  unfold closer.
  repeat match goal with
         | |- context [if ?c then _ else _] => destruct c
         end; auto.
Qed.

Lemma fold_closer_in (v k : Z) (cs : list (Z * Z)) (c : Z * Z) :
  fold_left (closer v k) cs c = c \/ In (fold_left (closer v k) cs c) cs.
Proof.
  revert c. induction cs as [|d cs IH]; intros c; simpl; [now left|].
  destruct (IH (closer v k c d)) as [H|H].
  - rewrite H. destruct (closer_cases v k c d) as [->| ->]; auto.
  - auto.
Qed.

Lemma pick_in (v k : Z) (cs : list (Z * Z)) (c : Z * Z) :
  pick v k cs = Some c -> In c cs.
Proof.
  destruct cs as [|d cs]; simpl; [discriminate|].
  intros [= <-]. destruct (fold_closer_in v k cs d) as [->|H]; auto.
Qed.

(** What [shortest_from] returns: all the digits of [v], or a candidate
    that passed the test. *)
Lemma shortest_from_cases (fuel : nat) (v k : Z) :
  1 <= k ->
  forall s k' n, shortest_from fuel v k = (s, k', n) ->
  (s = v /\ k' = n /\ n = num_digits v) \/
  (1 <= k' /\ candidate_ok v k' (s, n) = true).
Proof.
  revert k. induction fuel as [|fuel IH]; intros k Hk s k' n; simpl.
  - intros [= <- <- <-]. now left.
  - destruct (pick v k (candidates v k)) as [[s0 n0]|] eqn:Hp.
    + intros [= <- <- <-]. right. split; [assumption|].
      apply pick_in in Hp. unfold candidates in Hp.
      apply List.filter_In in Hp. tauto.
    + intros H. apply (IH (k + 1)); [lia | assumption].
Qed.

(** The digits chosen by [toString] form a positive integer. *)
Lemma shortest_positive (v s k n : Z) :
  0 < v -> shortest v = (s, k, n) -> 0 < s.
Proof.
  intros Hv H. apply shortest_from_cases in H as [(-> & _)|[Hk Hok]]; try lia.
  unfold candidate_ok in Hok.
  apply andb_true_iff in Hok as [Hok _]. apply andb_true_iff in Hok as [Hok _].
  apply andb_true_iff in Hok as [Hlo _]. apply Z.leb_le in Hlo.
  assert (0 < 10 ^ (k - 1)) by (apply Z.pow_pos_nonneg; lia). lia.
Qed.

(** Below 2^53 the chosen digits are the digits of [v] itself, up to
    trailing zeros, and [n] is at most 16. *)
Lemma shortest_exact (v s k n : Z) :
  0 < v < 2 ^ 53 -> shortest v = (s, k, n) ->
  0 < s /\ k <= n <= 16 /\ s * 10 ^ (n - k) = v.
Proof.
  intros Hv H. pose proof (shortest_positive v s k n (proj1 Hv) H) as Hs.
  assert (Hv16 : v < 10 ^ 16) by (change (10 ^ 16) with 10000000000000000;
                                  change (2 ^ 53) with 9007199254740992 in Hv; lia).
  apply shortest_from_cases in H as [(-> & -> & ->)|[Hk Hok]]; try lia.
  - split; [assumption|]. rewrite Z.sub_diag, Z.mul_1_r.
    unfold num_digits.
    pose proof (decimal_length_bound v (Z.lt_le_incl _ _ (proj1 Hv)) 15 Hv16).
    split; [lia | reflexivity].
  - unfold candidate_ok in Hok.
    apply andb_true_iff in Hok as [Hok Hr]. apply andb_true_iff in Hok as [Hok Hkn].
    apply andb_true_iff in Hok as [Hlo Hhi].
    apply Z.leb_le in Hlo, Hkn.
    assert (Hp : 0 < 10 ^ (n - k)) by (apply Z.pow_pos_nonneg; lia).
    apply rounds_to_exact in Hr; [|nia|assumption].
    split; [assumption|]. split; [|assumption]. split; [assumption|].
    assert (Hn : 10 ^ (n - 1) <= v).
    { replace (n - 1) with ((k - 1) + (n - k)) by lia.
      rewrite Z.pow_add_r by lia. nia. }
    destruct (Z_le_gt_dec n 16) as [|Hgt]; [assumption|].
    assert (10 ^ 16 <= 10 ^ (n - 1)) by (apply Z.pow_le_mono_r; lia). lia.
Qed.

(** Below 2^53, [toString] prints the decimal digits. *)
Lemma positive_to_string_exact (v : Z) :
  0 < v < 2 ^ 53 -> positive_to_string v = decimal v.
Proof.
  intros Hv. unfold positive_to_string.
  destruct (shortest v) as [[s k] n] eqn:H.
  apply shortest_exact in H as (Hs & [Hkn Hn] & <-); [|assumption].
  destruct (n <=? 21) eqn:E; [|apply Z.leb_gt in E; lia].
  rewrite <- decimal_times_pow10 by assumption.
  now rewrite Z2Nat.id by lia.
Qed.

End NumberFacts.

(* ===================================================================== *)
(** * The id validator *)
(* ===================================================================== *)

Section IdValidator.
Import JS.

Lemma digit_val_range (c : ascii) : is_digit c = true -> 0 <= digit_val c <= 9.
Proof.
  unfold is_digit, digit_val. intros H.
  apply andb_true_iff in H as [H1 H2]. apply Z.leb_le in H1, H2. lia.
Qed.

Lemma digit_char_val (c : ascii) : is_digit c = true -> digit_char (digit_val c) = c.
Proof.
  destruct c as [[] [] [] [] [] [] [] []]; try discriminate; reflexivity.
Qed.

Lemma decimal_digits_value (a : Z) (s : string) :
  0 < a -> all_chars is_digit s = true ->
  decimal (digits_value a s) = decimal a ++ s.
Proof.
  revert a. induction s as [|c s IH]; intros a Ha Hs; simpl.
  - now rewrite append_empty_r.
  - simpl in Hs. apply andb_true_iff in Hs as [Hc Hs].
    pose proof (digit_val_range c Hc) as Hr.
    rewrite IH by (assumption || lia).
    rewrite (decimal_step (10 * a + digit_val c)) by lia.
    replace ((10 * a + digit_val c) / 10) with a
      by (apply Z.div_unique with (r := digit_val c); lia).
    replace ((10 * a + digit_val c) mod 10) with (digit_val c)
      by (apply Z.mod_unique with (q := a); lia).
    rewrite digit_char_val by assumption.
    now rewrite append_assoc.
Qed.

Lemma digits_value_positive (a : Z) (s : string) :
  0 < a -> all_chars is_digit s = true -> 0 < digits_value a s.
Proof.
  revert a. induction s as [|c s IH]; intros a Ha Hs; simpl; [assumption|].
  simpl in Hs. apply andb_true_iff in Hs as [Hc Hs].
  pose proof (digit_val_range c Hc). apply IH; [lia | assumption].
Qed.

(** The canonical decimal representations of the positive integers are the
    non-empty strings of digits that do not start with 0. *)
Lemma canonical_positive_spec (s : string) :
  canonical_positive s <->
  all_chars is_digit s = true /\
  exists c r, s = String c r /\ c <> "0"%char.
Proof.
  unfold canonical_positive. split.
  - intros (n & Hn & ->). split; [apply decimal_all_digits; lia|].
    destruct (decimal_head n Hn) as (c & r & -> & _ & Hc). eauto.
  - intros (Hall & c & r & -> & Hc).
    simpl in Hall. apply andb_true_iff in Hall as [Hd Hr].
    pose proof (digit_val_range c Hd) as Hv.
    assert (Hpos : 0 < digit_val c).
    { destruct (Z.eq_dec (digit_val c) 0) as [E|]; [|lia].
      exfalso. apply Hc. rewrite <- (digit_char_val c Hd), E. reflexivity. }
    exists (digits_value (digit_val c) r). split.
    + now apply digits_value_positive.
    + rewrite decimal_digits_value by assumption.
      rewrite decimal_small by lia. now rewrite digit_char_val.
Qed.

(** [parseInt] reads the decimal digits of a positive integer back. *)
Lemma parseInt10_decimal (n : Z) :
  0 < n -> parseInt10 (decimal n) = round_double n.
Proof.
  intros Hn.
  pose proof (decimal_all_digits n (Z.lt_le_incl _ _ Hn)) as Hall.
  pose proof (digits_value_decimal n (Z.lt_le_incl _ _ Hn)) as Hval.
  destruct (decimal_head n Hn) as (c & r & Hd & Hc & _).
  rewrite Hd in *. unfold parseInt10.
  destruct (digit_not_sign c r Hc) as [Hsp Hsign].
  simpl trimStart. rewrite Hsp, Hsign, (take_digits_all _ Hall).
  simpl is_empty. cbv iota. now rewrite Hval.
Qed.

(** [parseInt] stops at the first character that is not a digit. *)
Lemma parseInt10_one_digit (d x : ascii) (t : string) :
  is_digit d = true -> is_digit x = false ->
  parseInt10 (String d (String x t)) = Finite (digit_val d).
Proof.
  intros Hd Hx. unfold parseInt10.
  destruct (digit_not_sign d (String x t) Hd) as [Hsp Hsign].
  simpl trimStart. rewrite Hsp, Hsign. simpl take_digits. rewrite Hd, Hx.
  simpl. apply round_double_small.
  pose proof (digit_val_range d Hd).
  change (2 ^ 53) with 9007199254740992. lia.
Qed.

Lemma validateId_accepts (n : Z) :
  0 < n < 2 ^ 53 -> Validation.validateId (Some (decimal n)) = Next.
Proof.
  intros Hn. unfold Validation.validateId.
  destruct (decimal_head n (proj1 Hn)) as (c & r & Hd & _).
  rewrite parseInt10_decimal by lia.
  rewrite round_double_small by (rewrite Z.abs_eq; lia).
  unfold number_to_string, isNaN, le_zero.
  replace (n =? 0) with false by lia.
  replace (n <? 0) with false by lia.
  replace (n <=? 0) with false by lia.
  rewrite positive_to_string_exact by assumption.
  rewrite String.eqb_refl. rewrite Hd. reflexivity.
Qed.

Lemma validateId_sound (id : string) :
  Validation.validateId (Some id) = Next -> canonical_positive id.
Proof.
  unfold Validation.validateId.
  destruct id as [|c0 id']; [discriminate|].
  set (id := String c0 id'). 
  destruct (parseInt10 id) as [|neg|z] eqn:Hparse; simpl isNaN; simpl le_zero.
  - discriminate.
  - destruct neg; [discriminate|]. cbn [orb number_to_string].
    destruct (String.eqb "Infinity" id) eqn:E; [|discriminate].
    apply String.eqb_eq in E. rewrite <- E in Hparse.
    vm_compute in Hparse. discriminate.
  - cbv beta iota. simpl orb.
    destruct (z <=? 0) eqn:Hz; [discriminate|]. apply Z.leb_gt in Hz.
    unfold number_to_string.
    replace (z =? 0) with false by lia.
    replace (z <? 0) with false by lia.
    destruct (String.eqb (positive_to_string z) id) eqn:E; [|discriminate].
    intros _. apply String.eqb_eq in E.
    unfold positive_to_string in E.
    destruct (shortest z) as [[s k] n] eqn:Hsh.
    pose proof (shortest_positive z s k n Hz Hsh) as Hs.
    destruct (n <=? 21) eqn:Hn.
    + exists (s * 10 ^ Z.of_nat (Z.to_nat (n - k))). split.
      * assert (0 < 10 ^ Z.of_nat (Z.to_nat (n - k)))
          by (apply Z.pow_pos_nonneg; lia). nia.
      * rewrite decimal_times_pow10 by assumption. now symmetry.
    + exfalso. apply Z.leb_gt in Hn.
      destruct (decimal_head s Hs) as (d & rest & Hd & Hdig & _).
      rewrite Hd in E.
      assert (Hone : parseInt10 id = Finite (digit_val d)).
      { rewrite <- E. destruct rest as [|c1 rest].
        - change ("e+" ++ decimal (n - 1))
            with (String "e" (String "+" (decimal (n - 1)))).
          now apply parseInt10_one_digit.
        - change ("." ++ String c1 rest ++ "e+" ++ decimal (n - 1))
            with (String "." (String c1 rest ++ "e+" ++ decimal (n - 1))).
          now apply parseInt10_one_digit. }
      rewrite Hone in Hparse. injection Hparse as <-.
      pose proof (digit_val_range d Hdig) as Hr.
      apply shortest_exact in Hsh as (_ & [_ Hn16] & _); [lia|].
      change (2 ^ 53) with 9007199254740992. lia.
Qed.

Lemma round_double_positive (n : Z) :
  0 < n -> isNaN (round_double n) = false /\ le_zero (round_double n) = false.
Proof.
  intros Hn. destruct (Z_lt_ge_dec n (2 ^ 53)) as [Hlt|Hge].
  - rewrite round_double_small by (rewrite Z.abs_eq; lia).
    simpl. split; [reflexivity | lia].
  - destruct (round_double n) as [|neg|r] eqn:E.
    + unfold round_double in E.
      destruct (Z.abs n <? 2 ^ 53); [discriminate|].
      match type of E with
      | (if ?b then _ else _) = _ => destruct b; discriminate
      end.
    + unfold round_double in E.
      destruct (Z.abs n <? 2 ^ 53); [discriminate|].
      match type of E with
      | (if ?b then _ else _) = _ => destruct b; [discriminate|]
      end.
      injection E as <-. simpl. split; [reflexivity | lia].
    + apply round_double_large in E; [|lia].
      simpl. split; [reflexivity|].
      change (2 ^ 53) with 9007199254740992 in E. lia.
Qed.

(** The validator passes exactly the canonical decimal representations of
    positive integers that [parseInt] and [toString] give back unchanged. *)
Lemma validateId_iff (s : string) :
  Validation.validateId (Some s) = Next <->
  canonical_positive s /\ number_to_string (parseInt10 s) = s.
Proof.
  split.
  - intros H. split; [now apply validateId_sound|].
    unfold Validation.validateId in H.
    destruct s as [|c s]; [discriminate|].
    destruct (String.eqb (number_to_string (parseInt10 (String c s)))
                (String c s)) eqn:E.
    + now apply String.eqb_eq in E.
    + rewrite !orb_true_r in H. discriminate.
  - intros [(n & Hn & ->) Heq]. unfold Validation.validateId.
    destruct (decimal_head n Hn) as (c & r & Hd & _).
    rewrite Heq, String.eqb_refl.
    rewrite parseInt10_decimal by assumption.
    destruct (round_double_positive n Hn) as [-> ->].
    rewrite Hd. reflexivity.
Qed.

(** How [validateId] answers. *)
Lemma validateId_cases (id : option string) :
  Validation.validateId id = Next \/
  ((id = None \/ id = Some "") /\
   Validation.validateId id =
     Respond (validation_failed [Violation "id" "ID parameter is required"])) \/
  ((exists s, id = Some s /\ s <> "") /\
   Validation.validateId id =
     Respond (validation_failed
                [Violation "id" "ID must be a positive integer"])).
Proof.
  destruct id as [[|c s]|]; simpl.
  - right; left. auto.
  - match goal with
    | |- context [if ?b then _ else _] => destruct b
    end.
    + right; right. split; [|reflexivity]. eexists. split; [reflexivity|discriminate].
    + now left.
  - right; left. auto.
Qed.

(** [parseInt] followed by [toString] on some ids, as a JavaScript engine
    prints them. *)
Lemma parse_print_examples :
  List.map (fun s => number_to_string (parseInt10 s))
    ["42"; "007"; "4.5"; " 12"; "-3"; "12abc"; "abc";
     "9007199254740992"; "9007199254740993"; "9007199254740995";
     "12345678901234567890"; "100000000000000000000";
     "1000000000000000000000"; "123456789012345678901234567890"]
  = ["42"; "7"; "4"; "12"; "-3"; "12"; "NaN";
     "9007199254740992"; "9007199254740992"; "9007199254740996";
     "12345678901234567000"; "100000000000000000000";
     "1e+21"; "1.2345678901234568e+29"].
Proof. vm_compute. reflexivity. Qed.

End IdValidator.

(** C8, as stated, fails: 9007199254740993 is the canonical decimal
    representation of a positive integer, and so is 10^21, but [parseInt]
    returns a double, whose [toString] differs from the id, and the
    validator answers 400. *)
Lemma C8_large_id_counterexample :
  canonical_positive "9007199254740993" /\
  JS.number_to_string (JS.parseInt10 "9007199254740993") = "9007199254740992" /\
  Validation.validateId (Some "9007199254740993") =
    Respond (validation_failed [Violation "id" "ID must be a positive integer"]) /\
  canonical_positive "1000000000000000000000" /\
  JS.number_to_string (JS.parseInt10 "1000000000000000000000") = "1e+21" /\
  Validation.validateId (Some "1000000000000000000000") =
    Respond (validation_failed [Violation "id" "ID must be a positive integer"]).
Proof.
  split; [exists 9007199254740993; split; [lia | vm_compute; reflexivity]|].
  split; [vm_compute; reflexivity|].
  split; [vm_compute; reflexivity|].
  split; [exists 1000000000000000000000; split; [lia | vm_compute; reflexivity]|].
  split; vm_compute; reflexivity.
Qed.

(** C8, amended: the id validator lets a request pass only if the id is the
    canonical decimal representation of a positive integer (digits only, no
    leading zero, no sign, no decimals, no white space); it lets exactly
    those representations pass that [parseInt] and [toString] give back
    unchanged, and every representation of an integer below 2^53 is one of
    them.  When it does not
    pass, the answer is 400 "Validation failed" with the single detail
    [{field: "id", message: "ID must be a positive integer"}], or with the
    message "ID parameter is required" when the id is absent or empty. *)
Theorem C8_id_validator (id : option string) :
  (Validation.validateId id = Next ->
   exists s, id = Some s /\ canonical_positive s) /\
  (forall s, id = Some s ->
     (Validation.validateId id = Next <->
      canonical_positive s /\ JS.number_to_string (JS.parseInt10 s) = s)) /\
  (forall n, 0 < n < 2 ^ 53 -> id = Some (JS.decimal n) ->
             Validation.validateId id = Next) /\
  (Validation.validateId id <> Next ->
   ((id = None \/ id = Some "") /\
    Validation.validateId id =
      Respond (validation_failed [Violation "id" "ID parameter is required"])) \/
   ((exists s, id = Some s /\ s <> "") /\
    Validation.validateId id =
      Respond (validation_failed
                 [Violation "id" "ID must be a positive integer"]))).
Proof.
  split; [|split; [|split]].
  - destruct id as [s|]; [|discriminate].
    intros H. exists s. split; [reflexivity | now apply validateId_sound].
  - intros s ->. apply validateId_iff.
  - intros n Hn ->. now apply validateId_accepts.
  - intros H. destruct (validateId_cases id) as [Hc|Hc]; [contradiction | exact Hc].
Qed.

(** The theorem applied to the ids "999999", "007" and "4.5". *)
Lemma C8_id_validator_witness :
  Validation.validateId (Some "999999") = Next /\
  canonical_positive "999999" /\
  Validation.validateId (Some "007") =
    Respond (validation_failed [Violation "id" "ID must be a positive integer"]) /\
  Validation.validateId (Some "4.5") =
    Respond (validation_failed [Violation "id" "ID must be a positive integer"]).
Proof.
  assert (Hpass : Validation.validateId (Some "999999") = Next).
  { refine (proj1 (proj2 (proj2 (C8_id_validator (Some "999999"))))
              999999 _ eq_refl).
    change (2 ^ 53) with 9007199254740992. lia. }
  split; [exact Hpass|]. split.
  - destruct (proj1 (C8_id_validator (Some "999999")) Hpass) as (s & [= <-] & Hc).
    exact Hc.
  - split.
    + destruct (proj2 (proj2 (proj2 (C8_id_validator (Some "007")))))
        as [[[H|H] _]|[_ H]];
        [vm_compute; discriminate | discriminate | discriminate | exact H].
    + destruct (proj2 (proj2 (proj2 (C8_id_validator (Some "4.5")))))
        as [[[H|H] _]|[_ H]];
        [vm_compute; discriminate | discriminate | discriminate | exact H].
Defined.


(* ===================================================================== *)
(** * White space and [trim] *)
(* ===================================================================== *)

Section TrimFacts.
Import JS.

Lemma trimStart_cases (s : string) :
  (trimStart s = "" /\ all_chars is_space s = true) \/
  (exists c r, trimStart s = String c r /\ is_space c = false /\
               all_chars is_space s = false).
Proof.
  induction s as [|c s IH]; simpl; [now left|].
  destruct (is_space c) eqn:Hc; simpl.
  - exact IH.
  - right. eauto.
Qed.

Lemma trimEnd_head (c : ascii) (r : string) :
  is_space c = false -> trimEnd (String c r) = String c (trimEnd r).
Proof. intros H. simpl. now rewrite H. Qed.

(** [s.trim()] is empty exactly when [s] holds only white space. *)
Lemma trim_is_empty (s : string) : is_empty (trim s) = all_chars is_space s.
Proof.
  unfold trim. destruct (trimStart_cases s) as [[-> ->]|(c & r & -> & Hc & ->)].
  - reflexivity.
  - now rewrite trimEnd_head.
Qed.

Lemma length_zero_is_empty (s : string) :
  (String.length s =? 0)%nat = is_empty s.
Proof. destruct s; reflexivity. Qed.

Lemma trimStart_length (s : string) :
  (String.length (trimStart s) <= String.length s)%nat.
Proof.
  induction s as [|c s IH]; simpl; [lia|].
  destruct (is_space c); simpl; lia.
Qed.

Lemma trimEnd_length (s : string) :
  (String.length (trimEnd s) <= String.length s)%nat.
Proof.
  induction s as [|c s IH]; simpl; [lia|].
  destruct (is_space c && is_empty (trimEnd s)); simpl; lia.
Qed.

(** Trimming never makes a string longer. *)
Lemma trim_length (s : string) :
  (String.length (trim s) <= String.length s)%nat.
Proof.
  unfold trim. pose proof (trimStart_length s).
  pose proof (trimEnd_length (trimStart s)). lia.
Qed.

Lemma trimEnd_idempotent (s : string) : trimEnd (trimEnd s) = trimEnd s.
Proof.
  induction s as [|c s IH]; simpl; [reflexivity|].
  destruct (is_space c && is_empty (trimEnd s)) eqn:E; simpl; [reflexivity|].
  now rewrite IH, E.
Qed.

Lemma trim_idempotent (s : string) : trim (trim s) = trim s.
Proof.
  unfold trim. destruct (trimStart_cases s) as [[-> _]|(c & r & -> & Hc & _)].
  - reflexivity.
  - rewrite trimEnd_head by assumption. simpl trimStart. rewrite Hc.
    rewrite <- (trimEnd_head c r Hc). apply trimEnd_idempotent.
Qed.

Lemma all_chars_trimStart (p : ascii -> bool) (s : string) :
  all_chars p s = true -> all_chars p (trimStart s) = true.
Proof.
  induction s as [|c s IH]; simpl; [reflexivity|].
  intros H. apply andb_true_iff in H as [Hc Hs].
  destruct (is_space c); simpl; [auto | now rewrite Hc, Hs].
Qed.

Lemma all_chars_trimEnd (p : ascii -> bool) (s : string) :
  all_chars p s = true -> all_chars p (trimEnd s) = true.
Proof.
  induction s as [|c s IH]; simpl; [reflexivity|].
  intros H. apply andb_true_iff in H as [Hc Hs].
  destruct (is_space c && is_empty (trimEnd s)); simpl;
    [reflexivity | now rewrite Hc, IH].
Qed.

Lemma all_chars_trim (p : ascii -> bool) (s : string) :
  all_chars p s = true -> all_chars p (trim s) = true.
Proof. intros H. unfold trim. now apply all_chars_trimEnd, all_chars_trimStart. Qed.

Lemma space_not_digit (c : ascii) : is_space c = true -> is_digit c = false.
Proof.
  destruct c as [[] [] [] [] [] [] [] []]; try discriminate; reflexivity.
Qed.

Lemma digits_trimStart (s : string) :
  filter_chars is_digit (trimStart s) = filter_chars is_digit s.
Proof.
  induction s as [|c s IH]; simpl; [reflexivity|].
  destruct (is_space c) eqn:Hc; [|reflexivity].
  now rewrite (space_not_digit c Hc).
Qed.

Lemma digits_trimEnd (s : string) :
  filter_chars is_digit (trimEnd s) = filter_chars is_digit s.
Proof.
  induction s as [|c s IH]; simpl; [reflexivity|].
  destruct (is_space c) eqn:Hc; simpl.
  - rewrite (space_not_digit c Hc).
    destruct (trimEnd s) eqn:E; simpl in *.
    + exact IH.
    + now rewrite (space_not_digit c Hc).
  - now rewrite IH.
Qed.

(** Trimming keeps the digits. *)
Lemma count_digits_trim (s : string) : count_digits (trim s) = count_digits s.
Proof.
  unfold count_digits, trim. now rewrite digits_trimEnd, digits_trimStart.
Qed.

Lemma trimEnd_no_space (s : string) :
  all_chars (fun c => negb (is_space c)) s = true -> trimEnd s = s.
Proof.
  induction s as [|c s IH]; simpl; [reflexivity|].
  intros H. apply andb_true_iff in H as [Hc Hs].
  apply negb_true_iff in Hc. now rewrite Hc, IH.
Qed.

(** A string without white space is its own trim. *)
Lemma trim_no_space (s : string) :
  all_chars (fun c => negb (is_space c)) s = true -> trim s = s.
Proof.
  intros H. unfold trim. destruct s as [|c s]; [reflexivity|].
  pose proof H as H'. simpl in H'. apply andb_true_iff in H' as [Hc _].
  apply negb_true_iff in Hc. simpl trimStart. rewrite Hc.
  now apply trimEnd_no_space.
Qed.

End TrimFacts.

(* ===================================================================== *)
(** * What the rule sets accept *)
(* ===================================================================== *)

Section Acceptance.
Import JS.

Lemma provided_false_cases (v : value) :
  provided v = false -> v = VUndefined \/ v = VNull \/ v = VStr "".
Proof.
  destruct v as [| | | |s| |]; try discriminate; auto.
  destruct s; [auto | discriminate].
Qed.

(** The chain of a required name: the same in both rule sets up to the
    messages. *)
Lemma name_block (required wrong empty long : list violation) (v : value) :
  required <> [] -> wrong <> [] -> empty <> [] -> long <> [] ->
  ((if negb (truthy v) then required
    else match v with
         | VStr s =>
             if (String.length (trim s) =? 0)%nat then empty
             else if (50 <? String.length s)%nat then long else []
         | _ => wrong
         end) = [] <-> name_ok v).
Proof.
  intros Hr Hw He Hl. unfold name_ok.
  destruct (truthy v) eqn:Ht; simpl.
  - destruct v as [| |b|x|s|xs|];
      try (split; [intros E; now contradiction Hw
                  | intros (s' & ? & _); discriminate]).
    rewrite length_zero_is_empty, trim_is_empty.
    destruct (all_chars is_space s) eqn:Hs.
    + split; [intros E; now contradiction He|].
      intros (s' & [= <-] & Hs' & _). congruence.
    + destruct (50 <? String.length s)%nat eqn:Hlen.
      * split; [intros E; now contradiction Hl|].
        intros (s' & [= <-] & _ & Hle). apply Nat.ltb_lt in Hlen. lia.
      * split; [|reflexivity]. intros _. apply Nat.ltb_ge in Hlen. eauto.
  - split; [intros E; now contradiction Hr|].
    intros (s & -> & Hs & _). destruct s; [discriminate|]. discriminate.
Qed.

Lemma middleware_name_ok (v : value) :
  (Validation.check_firstName v = [] <-> name_ok v) /\
  (Validation.check_lastName v = [] <-> name_ok v).
Proof.
  split; apply name_block; discriminate.
Qed.

Lemma service_name_ok (v : value) :
  (Service.check_firstName v = [] <-> name_ok v) /\
  (Service.check_lastName v = [] <-> name_ok v).
Proof.
  assert (E : forall required empty long : list violation,
             (if negb (truthy v) || negb (is_string v) then required
              else if (String.length (trim (to_string v)) =? 0)%nat then empty
                   else if length_gt v 50 then long else []) =
             (if negb (truthy v) then required
              else match v with
                   | VStr s =>
                       if (String.length (trim s) =? 0)%nat then empty
                       else if (50 <? String.length s)%nat then long else []
                   | _ => required
                   end)).
  { intros required empty long.
    destruct v; cbn [is_string negb]; rewrite ?orb_true_r, ?orb_false_r;
      try reflexivity;
      match goal with
      | |- _ = (if ?c then _ else _) => destruct c; reflexivity
      end. }
  unfold Service.check_firstName, Service.check_lastName.
  rewrite !E. split; apply name_block; discriminate.
Qed.

(** An optional block of the middleware: a test on strings, a type error
    on other provided values. *)
Lemma optional_block (P : string -> Prop) (ok : string -> bool)
  (bad wrong : list violation) (v : value) :
  (forall s, ok s = true <-> P s) -> bad <> [] -> wrong <> [] ->
  ((if provided v then
      match v with
      | VStr s => if negb (ok s) then bad else []
      | _ => wrong
      end
    else []) = [] <-> optional_ok P v).
Proof.
  intros Hok Hbad Hwrong. unfold optional_ok.
  destruct (provided v) eqn:Hp.
  - destruct v as [| |b|x|s|xs|]; try discriminate;
      try (split; [intros E; now contradiction Hwrong
                  | intros [?|(s' & ? & _)]; discriminate]).
    destruct (ok s) eqn:E; simpl.
    + split; [|reflexivity]. intros _. right. exists s. split; [reflexivity|].
      now apply Hok.
    + split; [intros E'; now contradiction Hbad|].
      intros [?|(s' & [= <-] & Hs)]; [discriminate|].
      apply Hok in Hs. congruence.
  - split; [now left | reflexivity].
Qed.

Lemma middleware_email_ok (v : value) :
  Validation.check_email v = [] <-> optional_ok email_shape v.
Proof.
  unfold Validation.check_email.
  apply (optional_block email_shape Validation.isValidEmail);
    [apply isValidEmail_spec | discriminate | discriminate].
Qed.

Lemma middleware_phone_ok (v : value) :
  Validation.check_phone v = [] <->
  optional_ok (fun s => all_chars Validation.phone_char s = true /\
                        (10 <= count_digits s)%nat) v.
Proof.
  unfold Validation.check_phone.
  apply (optional_block _ Validation.isValidPhone);
    [apply isValidPhone_spec | discriminate | discriminate].
Qed.

Lemma middleware_company_ok (v : value) :
  Validation.check_company v = [] <->
  optional_ok (fun s => (String.length s <= 100)%nat) v.
Proof.
  unfold Validation.check_company.
  rewrite <- (optional_block (fun s => (String.length s <= 100)%nat)
                (fun s => negb (100 <? String.length s)%nat)
                [Violation "company" "Company must not exceed 100 characters"]
                [Violation "company" "Company must be a string"] v).
  - destruct (provided v); [|reflexivity].
    destruct v; try reflexivity. now rewrite negb_involutive.
  - intros s. rewrite negb_true_iff, Nat.ltb_ge. reflexivity.
  - discriminate.
  - discriminate.
Qed.

Lemma middleware_notes_ok (v : value) :
  Validation.check_notes v = [] <->
  optional_ok (fun s => (String.length s <= 500)%nat) v.
Proof.
  unfold Validation.check_notes.
  rewrite <- (optional_block (fun s => (String.length s <= 500)%nat)
                (fun s => negb (500 <? String.length s)%nat)
                [Violation "notes" "Notes must not exceed 500 characters"]
                [Violation "notes" "Notes must be a string"] v).
  - destruct (provided v); [|reflexivity].
    destruct v; try reflexivity. now rewrite negb_involutive.
  - intros s. rewrite negb_true_iff, Nat.ltb_ge. reflexivity.
  - discriminate.
  - discriminate.
Qed.

Lemma app_nil_iff {A} (l1 l2 : list A) : (l1 ++ l2)%list = [] <-> l1 = [] /\ l2 = [].
Proof.
  split; [apply app_eq_nil | intros [-> ->]; reflexivity].
Qed.

Lemma validateContact_next (p : payload) :
  Validation.validateContact p = Next <-> Validation.validateContact_errors p = [].
Proof.
  unfold Validation.validateContact.
  destruct (Validation.validateContact_errors p); simpl;
    split; try reflexivity; discriminate.
Qed.

Lemma middleware_errors_nil (p : payload) :
  Validation.validateContact_errors p = [] <->
  name_ok (firstName p) /\ name_ok (lastName p) /\
  optional_ok email_shape (email p) /\
  optional_ok (fun s => JS.all_chars Validation.phone_char s = true /\
                        (10 <= count_digits s)%nat) (phone p) /\
  optional_ok (fun s => (String.length s <= 100)%nat) (company p) /\
  optional_ok (fun s => (String.length s <= 500)%nat) (notes p).
Proof.
  unfold Validation.validateContact_errors.
  rewrite !app_nil_iff.
  rewrite (proj1 (middleware_name_ok (firstName p))),
    (proj2 (middleware_name_ok (lastName p))),
    middleware_email_ok, middleware_phone_ok, middleware_company_ok,
    middleware_notes_ok.
  reflexivity.
Qed.

End Acceptance.

(** The middleware lets a body pass exactly when firstName and lastName are
    strings that are not blank and have at most 50 characters, and each of
    the optional fields is absent, null, empty, or a string that satisfies
    its rule: the email shape, the phone characters with at least ten
    digits, at most 100 characters for company and 500 for notes. *)
Theorem validateContact_accepts_iff (p : payload) :
  Validation.validateContact p = Next <->
  name_ok (firstName p) /\ name_ok (lastName p) /\
  optional_ok email_shape (email p) /\
  optional_ok (fun s => JS.all_chars Validation.phone_char s = true /\
                        (10 <= count_digits s)%nat) (phone p) /\
  optional_ok (fun s => (String.length s <= 100)%nat) (company p) /\
  optional_ok (fun s => (String.length s <= 500)%nat) (notes p).
Proof.
  rewrite validateContact_next. apply middleware_errors_nil.
Qed.

(** The theorem applied to the body of John Doe with a null email. *)
Lemma validateContact_accepts_iff_witness :
  name_ok (JS.VStr "John") /\ optional_ok email_shape JS.VNull.
Proof.
  destruct (proj1 (validateContact_accepts_iff
                     (Payload (JS.VStr "John") (JS.VStr "Doe") JS.VNull
                        JS.VUndefined JS.VUndefined JS.VUndefined)) eq_refl)
    as (H1 & _ & H3 & _).
  split; [exact H1 | exact H3].
Defined.

Section ServiceAcceptance.
Import JS.

Lemma email_shape_nonempty (s : string) : email_shape s -> s <> "".
Proof.
  intros (l & d & t & -> & [Hl _] & _). destruct l; [discriminate|].
  rewrite append_cons. discriminate.
Qed.

Lemma service_email_after (v : value) :
  optional_ok email_shape v ->
  (Service.check_email v = [] <-> within 100 v).
Proof.
  unfold Service.check_email, within. intros [Hp|(s & -> & Hs)].
  - rewrite Hp. split; [|reflexivity]. intros _ s ->.
    destruct s; [simpl; lia | discriminate].
  - rewrite (provided_string s (email_shape_nonempty s Hs)).
    cbn [to_string]. apply isValidEmail_spec in Hs.
    unfold Validation.isValidEmail in Hs. rewrite Hs. cbn [negb].
    unfold length_gt, length_of.
    destruct (100 <? String.length s)%nat eqn:Hl.
    + apply Nat.ltb_lt in Hl. split; [discriminate|].
      intros H. specialize (H s eq_refl). lia.
    + apply Nat.ltb_ge in Hl. split; [|reflexivity].
      intros _ s' [= <-]. exact Hl.
Qed.

Lemma service_length_block (n : nat) (long : list violation) (v : value) :
  long <> [] ->
  (is_string v = true \/ provided v = false) ->
  ((if provided v then if length_gt v n then long else [] else []) = [] <->
   within n v).
Proof.
  intros Hlong Hv. unfold within.
  destruct (provided v) eqn:Hp.
  - destruct Hv as [Hs|Hs]; [|discriminate].
    destruct v as [| | | |s| |]; try discriminate.
    unfold length_gt, length_of.
    destruct (n <? String.length s)%nat eqn:Hl.
    + apply Nat.ltb_lt in Hl. split; [intros E; now contradiction Hlong|].
      intros H. specialize (H s eq_refl). lia.
    + apply Nat.ltb_ge in Hl. split; [|reflexivity].
      intros _ s' [= <-]. exact Hl.
  - split; [|reflexivity]. intros _ s ->.
    destruct s; [simpl; lia | discriminate].
Qed.

Lemma optional_ok_typed (P : string -> Prop) (v : value) :
  optional_ok P v -> is_string v = true \/ provided v = false.
Proof. intros [H|(s & -> & _)]; [now right | now left]. Qed.

Lemma optional_ok_within (n : nat) (v : value) :
  optional_ok (fun s => (String.length s <= n)%nat) v -> within n v.
Proof.
  intros [Hp|(s & -> & Hs)] s' E.
  - subst v. destruct s'; [simpl; lia | discriminate].
  - now injection E as <-.
Qed.

End ServiceAcceptance.

(** Behind the middleware the service rule set adds two limits and nothing
    else: a body that passes [validateContact] passes [validateContactData]
    exactly when its email has at most 100 and its phone at most 20
    characters. *)
Theorem service_after_middleware (p : payload) :
  Validation.validateContact p = Next ->
  (Service.validateContactData p = [] <->
   within 100 (email p) /\ within 20 (phone p)).
Proof.
  intros H. apply validateContact_next, middleware_errors_nil in H
    as (Hfn & Hln & Hem & Hph & Hco & Hno).
  unfold Service.validateContactData. rewrite !app_nil_iff.
  rewrite (proj1 (service_name_ok (firstName p))),
    (proj2 (service_name_ok (lastName p))).
  rewrite (service_email_after _ Hem).
  unfold Service.check_phone, Service.check_company, Service.check_notes.
  rewrite (service_length_block 20 _ (phone p)), (service_length_block 100 _ (company p)),
    (service_length_block 500 _ (notes p));
    try discriminate; eauto using optional_ok_typed.
  pose proof (optional_ok_within 100 _ Hco).
  pose proof (optional_ok_within 500 _ Hno).
  tauto.
Qed.

(** The theorem applied to a body with a well-shaped phone of 22
    characters. *)
Lemma service_after_middleware_witness :
  let p := Payload (JS.VStr "Ada") (JS.VStr "Byron") (JS.VStr "ada@b.co")
             (JS.VStr "+1 (555) 123-4567 8901") JS.VUndefined JS.VUndefined in
  Validation.validateContact p = Next /\
  ~ within 20 (phone p) /\
  Service.validateContactData p <> [].
Proof.
  intros p.
  assert (Hm : Validation.validateContact p = Next) by reflexivity.
  assert (Hw : ~ within 20 (phone p)).
  { intros H. specialize (H _ eq_refl). simpl in H. lia. }
  split; [exact Hm|]. split; [exact Hw|].
  intros E. apply (proj1 (service_after_middleware p Hm)) in E. tauto.
Defined.

(** On the values a form sends (strings, null, absent) the two rule sets
    give the same violations, with the same messages, for firstName,
    lastName, company and notes: for the names whenever the value is a
    string or falsy, for company and notes whenever it is a string or not
    provided. *)
Theorem rule_sets_agree (v : JS.value) :
  (JS.is_string v = true \/ JS.truthy v = false ->
   Validation.check_firstName v = Service.check_firstName v /\
   Validation.check_lastName v = Service.check_lastName v) /\
  (JS.is_string v = true \/ JS.provided v = false ->
   Validation.check_company v = Service.check_company v /\
   Validation.check_notes v = Service.check_notes v).
Proof.
  unfold Validation.check_firstName, Validation.check_lastName,
    Validation.check_company, Validation.check_notes,
    Service.check_firstName, Service.check_lastName,
    Service.check_company, Service.check_notes, JS.length_gt, JS.length_of.
  split; intros [H|H].
  - destruct v; try discriminate. cbn [JS.is_string JS.to_string negb orb].
    rewrite orb_false_r. split; reflexivity.
  - rewrite H. split; reflexivity.
  - destruct v; try discriminate. split; reflexivity.
  - rewrite H. split; reflexivity.
Qed.

(** The theorem applied to a name of 51 characters and to an absent
    company. *)
Lemma rule_sets_agree_witness :
  Validation.check_firstName (JS.VStr (JS.repeat_char "a" 51)) =
  Service.check_firstName (JS.VStr (JS.repeat_char "a" 51)) /\
  Validation.check_company JS.VUndefined = Service.check_company JS.VUndefined.
Proof.
  split.
  - exact (proj1 (proj1 (rule_sets_agree (JS.VStr (JS.repeat_char "a" 51)))
                    (or_introl eq_refl))).
  - exact (proj1 (proj2 (rule_sets_agree JS.VUndefined) (or_intror eq_refl))).
Defined.

(* ===================================================================== *)
(** * The repository and the service on the store *)
(* ===================================================================== *)

Section StoreFacts.
Import JS.

Lemma after_lookup_read (w : world) (id : number) :
  after_lookup w id = after_read w (CallFindById id).
Proof. reflexivity. Qed.

Lemma calm_succ (n : nat) (d : Db.t) :
  calm (S n) d = true ->
  healthy d = true /\ forall rs nx, calm n (Db.tick d rs nx) = true.
Proof.
  unfold calm, healthy, Db.tick. simpl Db.faults.
  destruct (Db.faults d) as [|[e|] fs]; simpl.
  - intros _. split; [reflexivity|]. intros _ _. now destruct n.
  - discriminate.
  - intros H. split; [reflexivity | intros _ _; exact H].
Qed.

Lemma column_text (v : value) :
  text_or_absent v -> Db.column (Repository.or_null v) = Repository.or_null v.
Proof.
  intros [H|H]; destruct v as [| | | |s| |]; try discriminate; try reflexivity;
    destruct s; reflexivity.
Qed.

(** For a payload of strings and absent fields the store writes the fields
    themselves. *)
Lemma stored_row_text (id : Z) (p : payload) (created updated : Z) :
  is_string (firstName p) = true -> is_string (lastName p) = true ->
  optional_text p ->
  stored_row id p created updated = row_of id p created updated.
Proof.
  intros Hf Hl (He & Hp & Hc & Hn). unfold stored_row, row_of.
  rewrite !column_text by assumption.
  destruct (firstName p); try discriminate.
  destruct (lastName p); try discriminate. reflexivity.
Qed.

(** What [Repository.create] returns and leaves behind. *)
Lemma create_run (p : payload) (w : world) :
  let r := stored_row (Db.next_id (db w)) p (Db.clock (db w)) (Db.clock (db w)) in
  Repository.create p w =
  match Db.faults (db w) with
  | Some e :: _ => (Throw e, after_read w (CallCreate p))
  | _ => (Return (Some (Repository.mapRowToContact r)),
          after_call w (CallCreate p)
            (<[Db.next_id (db w) := r]> (Db.rows (db w)))
            (Db.next_id (db w) + 1))
  end.
Proof.
  unfold Repository.create, bind, try_catch, record_call, query, throw, ret,
    Db.pool_query, after_read, after_call. simpl.
  destruct (Db.faults (db w)) as [|[e|] fs]; reflexivity.
Qed.

(** What [Repository.update] returns and leaves behind. *)
Lemma update_run (id : number) (p : payload) (w : world) :
  Repository.update id p w =
  match Db.faults (db w) with
  | Some e :: _ => (Throw e, after_read w (CallUpdate id p))
  | _ =>
      match Db.find (db w) id with
      | Some old =>
          let r := stored_row (Db.id old) p (Db.created_at old) (Db.clock (db w)) in
          (Return (Some (Repository.mapRowToContact r)),
           after_call w (CallUpdate id p)
             (<[Db.id old := r]> (Db.rows (db w))) (Db.next_id (db w)))
      | None => (Return None, after_read w (CallUpdate id p))
      end
  end.
Proof.
  unfold Repository.update, bind, try_catch, record_call, query, throw, ret,
    Db.pool_query, after_read, after_call. simpl.
  destruct (Db.faults (db w)) as [|[e|] fs]; try reflexivity;
    destruct (Db.find (db w) id); reflexivity.
Qed.

(** What [Repository.delete] returns and leaves behind. *)
Lemma delete_run (id : number) (w : world) :
  Repository.deleteContact id w =
  match Db.faults (db w) with
  | Some e :: _ => (Throw e, after_read w (CallDelete id))
  | _ =>
      match Db.find (db w) id with
      | Some old =>
          (Return true,
           after_call w (CallDelete id)
             (delete (Db.id old) (Db.rows (db w))) (Db.next_id (db w)))
      | None => (Return false, after_read w (CallDelete id))
      end
  end.
Proof.
  unfold Repository.deleteContact, bind, try_catch, record_call, query, throw,
    ret, Db.pool_query, after_read, after_call. simpl.
  destruct (Db.faults (db w)) as [|[e|] fs]; try reflexivity;
    destruct (Db.find (db w) id); reflexivity.
Qed.

Lemma service_findById_run (id : number) (w : world) :
  Service.findById id w =
  (match Db.faults (db w) with
   | Some e :: _ =>
       if bool_decide (err_statusCode e = Some 404) then Throw e
       else Throw (new_Error "Failed to retrieve contact")
   | _ =>
       match Db.find (db w) id with
       | Some r => Return (Repository.mapRowToContact r)
       | None => Throw Service.not_found
       end
   end, after_lookup w id).
Proof.
  unfold Service.findById, try_catch, bind. rewrite findById_run.
  destruct (Db.faults (db w)) as [|[e|] fs];
    try (destruct (Db.find (db w) id); reflexivity).
  unfold throw. destruct (bool_decide (err_statusCode e = Some 404)); reflexivity.
Qed.

Ltac by_health H :=
  unfold healthy in H;
  match type of H with
  | context [Db.faults ?d] =>
      destruct (Db.faults d) as [|[?|] ?]; [reflexivity | discriminate | reflexivity]
  end.

Lemma create_healthy (p : payload) (w : world) :
  healthy (db w) = true ->
  let r := stored_row (Db.next_id (db w)) p (Db.clock (db w)) (Db.clock (db w)) in
  Repository.create p w =
  (Return (Some (Repository.mapRowToContact r)),
   after_call w (CallCreate p)
     (<[Db.next_id (db w) := r]> (Db.rows (db w))) (Db.next_id (db w) + 1)).
Proof. intros H r. rewrite create_run. cbv zeta. by_health H. Qed.

Lemma update_healthy (id : number) (p : payload) (w : world) :
  healthy (db w) = true ->
  Repository.update id p w =
  match Db.find (db w) id with
  | Some old =>
      let r := stored_row (Db.id old) p (Db.created_at old) (Db.clock (db w)) in
      (Return (Some (Repository.mapRowToContact r)),
       after_call w (CallUpdate id p)
         (<[Db.id old := r]> (Db.rows (db w))) (Db.next_id (db w)))
  | None => (Return None, after_read w (CallUpdate id p))
  end.
Proof. intros H. rewrite update_run. by_health H. Qed.

Lemma delete_healthy (id : number) (w : world) :
  healthy (db w) = true ->
  Repository.deleteContact id w =
  match Db.find (db w) id with
  | Some old =>
      (Return true,
       after_call w (CallDelete id)
         (delete (Db.id old) (Db.rows (db w))) (Db.next_id (db w)))
  | None => (Return false, after_read w (CallDelete id))
  end.
Proof. intros H. rewrite delete_run. by_health H. Qed.

Lemma service_findById_healthy (id : number) (w : world) :
  healthy (db w) = true ->
  Service.findById id w =
  (match Db.find (db w) id with
   | Some r => Return (Repository.mapRowToContact r)
   | None => Throw Service.not_found
   end, after_lookup w id).
Proof. intros H. rewrite service_findById_run. by_health H. Qed.

Lemma find_after_call (w : world) (c : repo_call) (rs : gmap Z Db.row)
  (nx z : Z) :
  Db.find (db (after_call w c rs nx)) (Finite z) = rs !! z.
Proof. reflexivity. Qed.

Lemma name_ok_text (v : value) : name_ok v -> is_string v = true.
Proof. intros (s & -> & _). reflexivity. Qed.

(** The names of a payload the service accepts are strings. *)
Lemma service_names_text (p : payload) :
  Service.validateContactData p = [] ->
  is_string (firstName p) = true /\ is_string (lastName p) = true.
Proof.
  unfold Service.validateContactData. rewrite !app_nil_iff.
  intros (Hf & Hl & _).
  apply (proj1 (service_name_ok _)) in Hf.
  apply (proj2 (service_name_ok _)) in Hl.
  split; apply name_ok_text; assumption.
Qed.

(** The row the store writes for a payload the service accepts and whose
    optional fields are strings or absent. *)
Lemma stored_row_accepted (id : Z) (p : payload) (created updated : Z) :
  Service.validateContactData p = [] -> optional_text p ->
  stored_row id p created updated = row_of id p created updated.
Proof.
  intros Hv Ht. destruct (service_names_text p Hv) as [Hf Hl].
  now apply stored_row_text.
Qed.

(** The row the store writes for a payload the middleware lets pass. *)
Lemma stored_row_passed (id : Z) (p : payload) (created updated : Z) :
  Validation.validateContact p = Next ->
  stored_row id p created updated = row_of id p created updated.
Proof.
  intros H. apply validateContact_next, middleware_errors_nil in H
    as (Hf & Hl & He & Hp & Hc & Hn).
  apply stored_row_text; try (now apply name_ok_text).
  repeat split; eapply optional_ok_typed; eassumption.
Qed.

End StoreFacts.

(** A contact that [Service.create] accepts and whose optional fields are
    strings or absent is stored under the next id of the sequence with both
    timestamps equal, its names as they are and its falsy optional fields
    as null, and [Service.findById] on that id returns the very contact
    [create] returned, without changing the table. *)
Theorem create_then_findById (p : payload) (w : world) :
  Service.validateContactData p = [] -> optional_text p ->
  calm 2 (db w) = true ->
  let id := Db.next_id (db w) in
  let r := row_of id p (Db.clock (db w)) (Db.clock (db w)) in
  let c := Repository.mapRowToContact r in
  exists w1 w2,
    Service.create p w = (Return (Some c), w1) /\
    Db.rows (db w1) = <[id := r]> (Db.rows (db w)) /\
    calls w1 = (calls w ++ [CallCreate p])%list /\
    Contact.id c = id /\
    Contact.firstName c = firstName p /\ Contact.lastName c = lastName p /\
    Contact.email c = Repository.or_null (email p) /\
    Contact.createdAt c = Contact.updatedAt c /\
    Service.findById (JS.Finite id) w1 = (Return c, w2) /\
    Db.rows (db w2) = Db.rows (db w1).
Proof.
  intros Hv Ht Hcalm id r c.
  apply calm_succ in Hcalm as [Hh Hcalm].
  set (w1 := after_call w (CallCreate p) (<[id := r]> (Db.rows (db w))) (id + 1)).
  exists w1, (after_lookup w1 (JS.Finite id)).
  assert (Hc : Service.create p w = (Return (Some c), w1)).
  { unfold Service.create, try_catch. rewrite Hv. simpl.
    rewrite (create_healthy p w Hh). cbv zeta.
    now rewrite (stored_row_accepted _ p _ _ Hv Ht). }
  split; [exact Hc|]. repeat (split; [reflexivity|]).
  split; [|reflexivity].
  specialize (Hcalm (<[id := r]> (Db.rows (db w))) (id + 1)).
  apply calm_succ in Hcalm as [Hh1 _].
  rewrite (service_findById_healthy _ w1 Hh1).
  unfold w1. rewrite find_after_call, lookup_insert_eq. reflexivity.
Qed.

(** The theorem applied to the contact John Doe on an empty table. *)
Lemma create_then_findById_witness :
  let p := Payload (JS.VStr "John") (JS.VStr "Doe") JS.VUndefined
             (JS.VStr "") JS.VUndefined JS.VUndefined in
  let w := World (Db.Make ∅ 1 7 []) [] in
  let c := Contact.Make 1 (JS.VStr "John") (JS.VStr "Doe") JS.VNull JS.VNull
             JS.VNull JS.VNull 7 7 in
  exists w1 w2,
    Service.create p w = (Return (Some c), w1) /\
    Service.findById (JS.Finite 1) w1 = (Return c, w2).
Proof.
  intros p w c.
  assert (Ht : optional_text p)
    by (repeat split; first [now left | now right]).
  destruct (create_then_findById p w eq_refl Ht eq_refl)
    as (w1 & w2 & H1 & _ & _ & _ & _ & _ & _ & _ & H2 & _).
  exists w1, w2. split; [exact H1 | exact H2].
Defined.

(** On an existing id and fields that the service accepts and whose
    optional ones are strings or absent, [Service.update] rewrites the row
    in place: the id and the creation time stay, the update time is the
    time of the UPDATE statement, no other row changes, and
    [Service.findById] then returns the contact [update] returned. *)
Theorem update_then_findById (z : Z) (p : payload) (old : Db.row) (w : world) :
  keyed_by_id (db w) -> calm 3 (db w) = true ->
  Db.find (db w) (JS.Finite z) = Some old ->
  Service.validateContactData p = [] -> optional_text p ->
  let r := row_of z p (Db.created_at old) (Db.clock (db w) + 1) in
  let c := Repository.mapRowToContact r in
  exists w1 w2,
    Service.update (JS.Finite z) p w = (Return (Some c), w1) /\
    Db.rows (db w1) = <[z := r]> (Db.rows (db w)) /\
    calls w1 = (calls w ++ [CallFindById (JS.Finite z);
                            CallUpdate (JS.Finite z) p])%list /\
    (forall j, j <> z -> Db.rows (db w1) !! j = Db.rows (db w) !! j) /\
    Contact.id c = z /\ Contact.createdAt c = Db.created_at old /\
    Service.findById (JS.Finite z) w1 = (Return c, w2) /\
    Db.rows (db w2) = Db.rows (db w1).
Proof.
  intros Hkey Hcalm Hfind Hv Ht r c.
  assert (Hid : Db.id old = z) by (apply Hkey; exact Hfind).
  apply calm_succ in Hcalm as [Hh Hcalm].
  specialize (Hcalm (Db.rows (db w)) (Db.next_id (db w))).
  apply calm_succ in Hcalm as [Hh1 Hcalm].
  set (w0 := after_lookup w (JS.Finite z)) in *.
  set (w1 := after_call w0 (CallUpdate (JS.Finite z) p)
               (<[z := r]> (Db.rows (db w))) (Db.next_id (db w))).
  exists w1, (after_lookup w1 (JS.Finite z)).
  assert (Hu : Service.update (JS.Finite z) p w = (Return (Some c), w1)).
  { unfold Service.update, bind. rewrite (findById_healthy _ w Hh), Hfind.
    simpl. rewrite Hv. simpl. unfold try_catch. fold w0.
    rewrite (update_healthy _ p w0 Hh1).
    change (Db.find (db w0) (JS.Finite z)) with (Db.find (db w) (JS.Finite z)).
    rewrite Hfind. cbv zeta. rewrite Hid.
    now rewrite (stored_row_accepted _ p _ _ Hv Ht). }
  split; [exact Hu|]. split; [reflexivity|].
  split; [unfold w1, w0, after_call, after_lookup; simpl;
          now rewrite <- app_assoc|].
  split; [intros j Hj; unfold w1; simpl; now rewrite lookup_insert_ne|].
  split; [reflexivity|]. split; [reflexivity|].
  split; [|reflexivity].
  specialize (Hcalm (<[z := r]> (Db.rows (db w))) (Db.next_id (db w))).
  apply calm_succ in Hcalm as [Hh2 _].
  rewrite (service_findById_healthy _ w1 Hh2).
  unfold w1. rewrite find_after_call, lookup_insert_eq. reflexivity.
Qed.

Section Samples.

(** A table with the single contact Jane Smith under id 1. *)
Lemma sample_table_keyed :
  keyed_by_id
    (Db.Make {[ 1 := Db.Row 1 (JS.VStr "Jane") (JS.VStr "Smith") JS.VNull
                       JS.VNull JS.VNull JS.VNull 0 0 ]} 2 5 []).
Proof.
  intros z r H. simpl in H. apply lookup_singleton_Some in H as [<- <-].
  reflexivity.
Qed.

End Samples.

(** The theorem applied to the stored contact Jane Smith, renamed. *)
Lemma update_then_findById_witness :
  let row := Db.Row 1 (JS.VStr "Jane") (JS.VStr "Smith") JS.VNull JS.VNull
               JS.VNull JS.VNull 0 0 in
  let w := World (Db.Make {[ 1 := row ]} 2 5 []) [] in
  let p := Payload (JS.VStr "Jane") (JS.VStr "Miller") JS.VUndefined
             JS.VUndefined (JS.VStr "Acme") JS.VUndefined in
  let c := Contact.Make 1 (JS.VStr "Jane") (JS.VStr "Miller") JS.VNull JS.VNull
             (JS.VStr "Acme") JS.VNull 0 6 in
  exists w1 w2,
    Service.update (JS.Finite 1) p w = (Return (Some c), w1) /\
    Service.findById (JS.Finite 1) w1 = (Return c, w2).
Proof.
  intros row w p c.
  assert (Ht : optional_text p)
    by (repeat split; first [now left | now right]).
  destruct (update_then_findById 1 p row w sample_table_keyed eq_refl
              eq_refl eq_refl Ht)
    as (w1 & w2 & H1 & _ & _ & _ & _ & _ & H2 & _).
  exists w1, w2. split; [exact H1 | exact H2].
Defined.

(** [Service.remove] on an existing id deletes that row and no other, and
    a second [remove] of the same id is a 404 not-found that reaches the
    repository for the lookup only: deleting twice is not a success
    twice. *)
Theorem remove_then_not_found (z : Z) (old : Db.row) (w : world) :
  keyed_by_id (db w) -> calm 3 (db w) = true ->
  Db.find (db w) (JS.Finite z) = Some old ->
  exists w1 w2,
    Service.remove (JS.Finite z) w = (Return tt, w1) /\
    Db.rows (db w1) = delete z (Db.rows (db w)) /\
    calls w1 = (calls w ++ [CallFindById (JS.Finite z);
                            CallDelete (JS.Finite z)])%list /\
    Service.remove (JS.Finite z) w1 = (Throw Service.not_found, w2) /\
    calls w2 = (calls w1 ++ [CallFindById (JS.Finite z)])%list /\
    Db.rows (db w2) = Db.rows (db w1).
Proof.
  intros Hkey Hcalm Hfind.
  assert (Hid : Db.id old = z) by (apply Hkey; exact Hfind).
  apply calm_succ in Hcalm as [Hh Hcalm].
  specialize (Hcalm (Db.rows (db w)) (Db.next_id (db w))).
  apply calm_succ in Hcalm as [Hh1 Hcalm].
  set (w0 := after_lookup w (JS.Finite z)) in *.
  set (w1 := after_call w0 (CallDelete (JS.Finite z))
               (delete z (Db.rows (db w))) (Db.next_id (db w))).
  exists w1, (after_lookup w1 (JS.Finite z)).
  assert (Hr : Service.remove (JS.Finite z) w = (Return tt, w1)).
  { unfold Service.remove, bind. rewrite (findById_healthy _ w Hh), Hfind.
    simpl. unfold try_catch. fold w0.
    rewrite (delete_healthy _ w0 Hh1).
    change (Db.find (db w0) (JS.Finite z)) with (Db.find (db w) (JS.Finite z)).
    rewrite Hfind, Hid. reflexivity. }
  split; [exact Hr|]. split; [reflexivity|].
  split; [unfold w1, w0, after_call, after_lookup; simpl;
          now rewrite <- app_assoc|].
  split; [|split; reflexivity].
  specialize (Hcalm (delete z (Db.rows (db w))) (Db.next_id (db w))).
  apply calm_succ in Hcalm as [Hh2 _].
  unfold Service.remove, bind. rewrite (findById_healthy _ w1 Hh2).
  unfold w1. rewrite find_after_call, lookup_delete_eq. reflexivity.
Qed.

(** The theorem applied to the stored contact Jane Smith. *)
Lemma remove_then_not_found_witness :
  let row := Db.Row 1 (JS.VStr "Jane") (JS.VStr "Smith") JS.VNull JS.VNull
               JS.VNull JS.VNull 0 0 in
  let w := World (Db.Make {[ 1 := row ]} 2 5 []) [] in
  exists w1 w2,
    Service.remove (JS.Finite 1) w = (Return tt, w1) /\
    Service.remove (JS.Finite 1) w1 = (Throw Service.not_found, w2).
Proof.
  intros row w.
  destruct (remove_then_not_found 1 row w sample_table_keyed eq_refl eq_refl)
    as (w1 & w2 & H1 & _ & _ & H2 & _).
  exists w1, w2. split; [exact H1 | exact H2].
Defined.

(** When the store fails on the existence lookup, [Service.update] and
    [Service.remove] throw the storage error itself, unwrapped, while
    [Service.findById] replaces it by "Failed to retrieve contact" (unless
    the error carries status 404) and [Service.create] replaces a failed
    insert by "Failed to create contact"; none of them changes the table. *)
Theorem lookup_failure_is_not_wrapped
  (e : js_error) (fs : list (option js_error)) (id : JS.number)
  (p : payload) (w : world) :
  Db.faults (db w) = Some e :: fs ->
  Service.update id p w = (Throw e, after_lookup w id) /\
  Service.remove id w = (Throw e, after_lookup w id) /\
  (err_statusCode e <> Some 404 ->
   Service.findById id w =
     (Throw (new_Error "Failed to retrieve contact"), after_lookup w id)) /\
  (Service.validateContactData p = [] ->
   Service.create p w =
     (Throw (new_Error "Failed to create contact"),
      after_read w (CallCreate p))) /\
  Db.rows (db (after_lookup w id)) = Db.rows (db w) /\
  Db.rows (db (after_read w (CallCreate p))) = Db.rows (db w).
Proof.
  intros Hf. repeat split.
  - unfold Service.update, bind. rewrite findById_run, Hf. reflexivity.
  - unfold Service.remove, bind. rewrite findById_run, Hf. reflexivity.
  - intros Hne. rewrite service_findById_run, Hf.
    rewrite bool_decide_eq_false_2 by assumption. reflexivity.
  - intros Hv. unfold Service.create, try_catch. rewrite Hv. simpl.
    rewrite create_run, Hf. reflexivity.
Qed.

(** The theorem applied to a store that refuses the connection. *)
Lemma lookup_failure_is_not_wrapped_witness :
  let e := JsError (Some "connect ECONNREFUSED 10.0.0.4:5432") None None
             (Some "ECONNREFUSED") false None None in
  let w := World (Db.Make ∅ 1 0 [Some e]) [] in
  let p := Payload (JS.VStr "John") (JS.VStr "Doe") JS.VUndefined
             JS.VUndefined JS.VUndefined JS.VUndefined in
  Service.update (JS.Finite 1) p w = (Throw e, after_lookup w (JS.Finite 1)) /\
  Service.findById (JS.Finite 1) w =
    (Throw (new_Error "Failed to retrieve contact"),
     after_lookup w (JS.Finite 1)).
Proof.
  intros e w p.
  destruct (lookup_failure_is_not_wrapped e [] (JS.Finite 1) p w eq_refl)
    as (Hu & _ & Hf & _).
  split; [exact Hu|]. apply Hf. discriminate.
Defined.

(** When the lookup succeeds and the store fails on the write, the service
    replaces the storage error by its fixed message, "Failed to update
    contact" or "Failed to delete contact", and the table is unchanged. *)
Theorem write_failure_is_wrapped
  (e : js_error) (fs : list (option js_error)) (id : JS.number)
  (old : Db.row) (p : payload) (w : world) :
  Db.faults (db w) = None :: Some e :: fs ->
  Db.find (db w) id = Some old ->
  (Service.validateContactData p = [] ->
   Service.update id p w =
     (Throw (new_Error "Failed to update contact"),
      after_read (after_lookup w id) (CallUpdate id p))) /\
  Service.remove id w =
    (Throw (new_Error "Failed to delete contact"),
     after_read (after_lookup w id) (CallDelete id)) /\
  Db.rows (db (after_read (after_lookup w id) (CallUpdate id p)))
    = Db.rows (db w) /\
  Db.rows (db (after_read (after_lookup w id) (CallDelete id)))
    = Db.rows (db w).
Proof.
  intros Hf Hfind.
  assert (Hh : healthy (db w) = true) by (unfold healthy; now rewrite Hf).
  assert (Hf1 : Db.faults (db (after_lookup w id)) = Some e :: fs)
    by (simpl; now rewrite Hf).
  repeat split.
  - intros Hv. unfold Service.update, bind.
    rewrite (findById_healthy _ w Hh), Hfind. simpl. rewrite Hv. simpl.
    unfold try_catch. rewrite update_run, Hf1. reflexivity.
  - unfold Service.remove, bind.
    rewrite (findById_healthy _ w Hh), Hfind. simpl.
    unfold try_catch, bind. rewrite delete_run, Hf1. reflexivity.
Qed.

(** The theorem applied to a store that loses the connection after the
    lookup. *)
Lemma write_failure_is_wrapped_witness :
  let e := JsError (Some "Connection terminated unexpectedly") None None None
             false None None in
  let row := Db.Row 1 (JS.VStr "Jane") (JS.VStr "Smith") JS.VNull JS.VNull
               JS.VNull JS.VNull 0 0 in
  let w := World (Db.Make {[ 1 := row ]} 2 5 [None; Some e]) [] in
  exists w1,
    Service.remove (JS.Finite 1) w =
      (Throw (new_Error "Failed to delete contact"), w1) /\
    Db.rows (db w1) = {[ 1 := row ]}.
Proof.
  intros e row w.
  destruct (write_failure_is_wrapped e [] (JS.Finite 1) row
              (Payload JS.VUndefined JS.VUndefined JS.VUndefined JS.VUndefined
                 JS.VUndefined JS.VUndefined) w eq_refl eq_refl)
    as (_ & Hr & _ & Hrows).
  eexists. split; [exact Hr | exact Hrows].
Defined.

(* ===================================================================== *)
(** * The routes *)
(* ===================================================================== *)

Section RouteFacts.
Import JS.

Lemma wrapped_error_response development msg :
  ErrorHandler.getStatusCode (new_Error msg) = Return 500 ->
  ErrorHandler.errorHandler development (new_Error msg) =
  Return (Response 500
            (BodyError
               {| error := Some "Internal server error"; details := None;
                  stack := if development then Some ("Error: " +:+ msg) else None;
                  originalMessage := if development then Some msg else None |})).
Proof.
  intros H. unfold ErrorHandler.errorHandler. rewrite H. reflexivity.
Qed.

Lemma status_404_response development e :
  err_statusCode e = Some 404 ->
  exists r, ErrorHandler.errorHandler development e = Return r /\ status r = 404.
Proof.
  intros H. unfold ErrorHandler.errorHandler, ErrorHandler.getStatusCode.
  rewrite H. simpl. eexists. split; reflexivity.
Qed.

End RouteFacts.

(** [GET /api/contacts/:id] always answers, whatever the id and whatever
    the store does: with 200, 400, 404 or 500; it never changes the table;
    and a 500 carries the generic message, not the storage error's. *)
Theorem get_always_answers (development : bool) (id : string) (w : world) :
  exists r w',
    Routes.get development id w = (Return r, w') /\
    (status r = 200 \/ status r = 400 \/ status r = 404 \/ status r = 500) /\
    Db.rows (db w') = Db.rows (db w) /\
    (status r = 500 -> error_of r = Some "Internal server error").
Proof.
  unfold Routes.get.
  destruct (validateId_cases (Some id)) as [Hn|[[_ Hr]|[_ Hr]]].
  - rewrite Hn. unfold Routes.getContactById, try_catch, bind.
    rewrite service_findById_run.
    destruct (Db.faults (db w)) as [|[e|] fs].
    + destruct (Db.find (db w) (JS.parseInt10 id)) as [row|].
      * eexists. eexists. split; [reflexivity|]. simpl.
        split; [auto|]. split; [reflexivity | discriminate].
      * eexists. eexists. split; [reflexivity|]. simpl.
        split; [auto|]. split; [reflexivity | discriminate].
    + destruct (bool_decide (err_statusCode e = Some 404)) eqn:E.
      * apply bool_decide_eq_true_1 in E.
        destruct (status_404_response development e E) as (r & Hr & Hs).
        unfold Routes.next_error. rewrite Hr.
        exists r. eexists. split; [reflexivity|]. rewrite Hs.
        split; [auto|]. split; [reflexivity | discriminate].
      * unfold Routes.next_error.
        rewrite (wrapped_error_response development
                   "Failed to retrieve contact" eq_refl).
        eexists. eexists. split; [reflexivity|]. simpl.
        split; [auto|]. split; reflexivity.
    + destruct (Db.find (db w) (JS.parseInt10 id)) as [row|].
      * eexists. eexists. split; [reflexivity|]. simpl.
        split; [auto|]. split; [reflexivity | discriminate].
      * eexists. eexists. split; [reflexivity|]. simpl.
        split; [auto|]. split; [reflexivity | discriminate].
  - rewrite Hr. eexists. eexists. split; [reflexivity|]. simpl.
    split; [auto|]. split; [reflexivity | discriminate].
  - rewrite Hr. eexists. eexists. split; [reflexivity|]. simpl.
    split; [auto|]. split; [reflexivity | discriminate].
Qed.

(** The theorem applied to the id "7" on an empty table. *)
Lemma get_always_answers_witness :
  exists r w',
    Routes.get false "7" (World (Db.Make ∅ 1 0 []) []) = (Return r, w') /\
    Db.rows (db w') = ∅.
Proof.
  destruct (get_always_answers false "7" (World (Db.Make ∅ 1 0 []) []))
    as (r & w' & H & _ & Hrows & _).
  exists r, w'. split; [exact H | exact Hrows].
Defined.

(** [POST /api/contacts] always answers, with 201, 400 or 500.  It answers
    201 with the stored contact exactly when both rule sets accept the body
    and the store executes the insert; 400 "Validation failed" with store
    and repository untouched when a rule set rejects the body; and 500 with
    the generic message and an unchanged table when the insert fails. *)
Theorem post_outcomes (development : bool) (p : payload) (w : world) :
  let accepted := Validation.validateContact p = Next /\
                  Service.validateContactData p = [] in
  let r := row_of (Db.next_id (db w)) p (Db.clock (db w)) (Db.clock (db w)) in
  exists res w',
    Routes.post development p w = (Return res, w') /\
    ((accepted /\ healthy (db w) = true /\
      res = Response 201 (BodyContact (Repository.mapRowToContact r)) /\
      Db.rows (db w') = <[Db.next_id (db w) := r]> (Db.rows (db w))) \/
     (~ accepted /\ status res = 400 /\
      error_of res = Some "Validation failed" /\ w' = w) \/
     (accepted /\ healthy (db w) = false /\ status res = 500 /\
      error_of res = Some "Internal server error" /\
      Db.rows (db w') = Db.rows (db w))).
Proof.
  intros accepted r. unfold Routes.post.
  destruct (Validation.validateContact p) as [res|] eqn:Hm.
  - exists res, w. split; [reflexivity|]. right; left.
    apply middleware_response_details in Hm as (H1 & H2 & _).
    split; [intros [H _]; discriminate|]. auto.
  - destruct (Service.validateContactData p) as [|v vs] eqn:Hv.
    + unfold Routes.createContact, try_catch, bind, Service.create.
      rewrite Hv. simpl. unfold try_catch. rewrite create_run.
      cbv zeta. rewrite (stored_row_passed _ p _ _ Hm).
      unfold healthy.
      destruct (Db.faults (db w)) as [|[e|] fs].
      * eexists. eexists. split; [reflexivity|]. left.
        split; [split; reflexivity|]. repeat split.
      * unfold throw, Routes.next_error.
        rewrite (wrapped_error_response development
                   "Failed to create contact" eq_refl).
        eexists. eexists. split; [reflexivity|]. right; right.
        split; [split; reflexivity|]. repeat split.
      * eexists. eexists. split; [reflexivity|]. left.
        split; [split; reflexivity|]. repeat split.
    + assert (Hne : (0 <? List.length (Service.validateContactData p))%nat = true)
        by (now rewrite Hv).
      destruct (create_rejects development p w Hne) as [_ Hc].
      rewrite Hv in Hc. rewrite Hc.
      eexists. eexists. split; [reflexivity|]. right; left.
      split; [intros [_ H]; discriminate|]. repeat split.
Qed.

(** The theorem applied to a body without a last name. *)
Lemma post_outcomes_witness :
  let p := Payload (JS.VStr "John") JS.VUndefined JS.VUndefined JS.VUndefined
             JS.VUndefined JS.VUndefined in
  let w := World (Db.Make ∅ 1 0 []) [] in
  exists res, Routes.post false p w = (Return res, w) /\ status res = 400.
Proof.
  intros p w.
  destruct (post_outcomes false p w) as (res & w' & H & [H1|[H2|H3]]).
  - destruct H1 as [[Hm _] _]. discriminate Hm.
  - destruct H2 as (_ & Hs & _ & ->). exists res. split; [exact H | exact Hs].
  - destruct H3 as [[Hm _] _]. discriminate Hm.
Defined.

(** The id guard of the routes: an id that [validateId] lets pass reaches
    the service, through the controller's [parseInt], as a positive finite
    number, which below 2^53 is the integer the id denotes; an id that it
    does not let pass is answered 400 by GET, PUT and DELETE alike, with
    store and repository untouched. *)
Theorem id_guard (development : bool) (id : string) (p : payload) (w : world) :
  (Validation.validateId (Some id) = Next ->
   exists n, JS.parseInt10 id = JS.Finite n /\ 0 < n /\
             (n < 2 ^ 53 -> id = JS.decimal n)) /\
  (Validation.validateId (Some id) <> Next ->
   exists res,
     status res = 400 /\ error_of res = Some "Validation failed" /\
     reports "id" (details_of res) = true /\
     Routes.get development id w = (Return res, w) /\
     Routes.put development id p w = (Return res, w) /\
     Routes.delete development id w = (Return res, w)).
Proof.
  split.
  - intros H. pose proof H as Hiff. apply validateId_iff in Hiff as [_ Heq].
    unfold Validation.validateId in H.
    destruct id as [|c id']; [discriminate|].
    destruct (JS.parseInt10 (String c id')) as [|neg|n] eqn:Hp.
    + discriminate.
    + destruct neg; [discriminate|]. simpl in Heq.
      rewrite <- Heq in Hp. vm_compute in Hp. discriminate.
    + exists n. split; [reflexivity|].
      simpl in H. destruct (n <=? 0) eqn:Hn; [discriminate|].
      apply Z.leb_gt in Hn. split; [assumption|].
      intros Hlt. rewrite <- Heq at 1. unfold JS.number_to_string.
      replace (n =? 0) with false by lia. replace (n <? 0) with false by lia.
      apply positive_to_string_exact. lia.
  - intros H. unfold Routes.get, Routes.put, Routes.delete.
    destruct (validateId_cases (Some id)) as [Hn|[[_ Hr]|[_ Hr]]];
      [contradiction | |]; rewrite Hr;
      match type of Hr with _ = Respond ?r => exists r end;
      repeat (split; [reflexivity|]); reflexivity.
Qed.

(** The theorem applied to the ids "42" and "4.5". *)
Lemma id_guard_witness :
  JS.parseInt10 "42" = JS.Finite 42 /\
  exists res,
    status res = 400 /\
    Routes.delete false "4.5" (World (Db.Make ∅ 1 0 []) []) =
      (Return res, World (Db.Make ∅ 1 0 []) []).
Proof.
  pose (p := Payload JS.VUndefined JS.VUndefined JS.VUndefined JS.VUndefined
               JS.VUndefined JS.VUndefined).
  pose (w := World (Db.Make ∅ 1 0 []) []).
  split.
  - destruct (proj1 (id_guard false "42" p w) eq_refl) as (n & Hn & _).
    rewrite Hn. vm_compute in Hn. symmetry. exact Hn.
  - destruct (proj2 (id_guard false "4.5" p w)) as (res & Hs & _ & _ & _ & _ & Hd).
    + vm_compute. discriminate.
    + exists res. split; [exact Hs | exact Hd].
Defined.

(* ===================================================================== *)
(** * What reaches the client *)
(* ===================================================================== *)

(** For an error without status, not operational and without constraint
    code, the production response shows the error's own message exactly
    when the message contains one of the nine words the classifier looks
    for, with a status in the 4xx range; otherwise it shows the generic
    message with status 500.  A storage error whose text contains such a
    word is therefore shown to the client as it is. *)
Theorem message_shown_iff_keyword (e : js_error) (m : string) :
  no_status e -> err_message e = Some m ->
  err_isOperational e = false -> constraint_code e = false ->
  exists r,
    ErrorHandler.errorHandler false e = Return r /\
    (keyword_hit m = true -> error_of r = Some m /\ 400 <= status r < 500) /\
    (keyword_hit m = false ->
     error_of r = Some "Internal server error" /\ status r = 500).
Proof.
  intros [Hsc Hst] Hm Hop Hcc.
  unfold constraint_code in Hcc.
  apply orb_false_iff in Hcc as [Hcc H3]. apply orb_false_iff in Hcc as [H1 H2].
  unfold ErrorHandler.errorHandler, ErrorHandler.getStatusCode,
    ErrorHandler.sanitizeErrorMessage, keyword_hit, mentions in *.
  rewrite Hsc, Hst, Hm, Hop, H1, H2, H3.
  destruct (JS.includes (JS.toLowerCase m) "not found");
  destruct (JS.includes (JS.toLowerCase m) "does not exist");
  destruct (JS.includes (JS.toLowerCase m) "validation");
  destruct (JS.includes (JS.toLowerCase m) "invalid");
  destruct (JS.includes (JS.toLowerCase m) "required");
  destruct (JS.includes (JS.toLowerCase m) "unauthorized");
  destruct (JS.includes (JS.toLowerCase m) "authentication");
  destruct (JS.includes (JS.toLowerCase m) "forbidden");
  destruct (JS.includes (JS.toLowerCase m) "permission");
  simpl; (eexists; split; [reflexivity|]); simpl;
    (split; intros H; try discriminate H; split; solve [reflexivity | lia]).
Qed.

(** The theorem applied to the error of a missing table. *)
Lemma message_shown_iff_keyword_witness :
  exists r,
    ErrorHandler.errorHandler false
      (JsError (Some "relation contacts does not exist") None None
         (Some "42P01") false None None) = Return r /\
    error_of r = Some "relation contacts does not exist" /\ status r = 404.
Proof.
  destruct (message_shown_iff_keyword
              (JsError (Some "relation contacts does not exist") None None
                 (Some "42P01") false None None)
              "relation contacts does not exist"
              (conj eq_refl eq_refl) eq_refl eq_refl eq_refl)
    as (r & Hr & Hhit & _).
  exists r. split; [exact Hr|]. split; [exact (proj1 (Hhit eq_refl))|].
  vm_compute in Hr. injection Hr as <-. reflexivity.
Defined.

Section EmailFacts.
Import JS.

Lemma filter_chars_app (p : ascii -> bool) (s t : string) :
  filter_chars p (s ++ t) = filter_chars p s ++ filter_chars p t.
Proof.
  induction s as [|c s IH]; [reflexivity|].
  rewrite append_cons. simpl. destruct (p c); [|exact IH].
  now rewrite append_cons, IH.
Qed.

Lemma count_char_app (c : ascii) (s t : string) :
  count_char c (s ++ t) = (count_char c s + count_char c t)%nat.
Proof. unfold count_char. now rewrite filter_chars_app, length_app. Qed.

Lemma email_word_facts (w : string) :
  email_word w ->
  all_chars (fun c => negb (is_space c)) w = true /\
  count_char "@" w = 0%nat /\ (1 <= String.length w)%nat.
Proof.
  intros [Hne Hall]. split; [|split].
  - clear Hne. induction w as [|c w IH]; simpl in *; [reflexivity|].
    apply andb_true_iff in Hall as [Hc Hw]. rewrite (IH Hw), andb_true_r.
    unfold Validation.email_char in Hc. apply negb_true_iff in Hc.
    apply orb_false_iff in Hc as [Hc _]. now rewrite Hc.
  - clear Hne. unfold count_char.
    induction w as [|c w IH]; [reflexivity|].
    cbn [all_chars] in Hall. apply andb_true_iff in Hall as [Hc Hw].
    unfold Validation.email_char in Hc. apply negb_true_iff in Hc.
    apply orb_false_iff in Hc as [_ Hc].
    change (filter_chars (Ascii.eqb "@") (String c w))
      with (if Ascii.eqb "@" c then String c (filter_chars (Ascii.eqb "@") w)
            else filter_chars (Ascii.eqb "@") w).
    rewrite Ascii.eqb_sym, Hc. exact (IH Hw).
  - destruct w; [discriminate | simpl; lia].
Qed.

End EmailFacts.

Lemma valid_email_no_space (s : string) :
  Validation.isValidEmail s = true ->
  JS.all_chars (fun c => negb (JS.is_space c)) s = true.
Proof.
  intros H. apply isValidEmail_spec in H as (l & d & t & -> & Hl & Hd & Ht).
  apply email_word_facts in Hl as (Hl1 & _).
  apply email_word_facts in Hd as (Hd1 & _).
  apply email_word_facts in Ht as (Ht1 & _).
  rewrite !all_chars_app, Hl1, Hd1, Ht1. reflexivity.
Qed.

(** An address that [isValidEmail] accepts contains no white space and
    exactly one [@], and has at least five characters. *)
Theorem valid_email_facts (s : string) :
  Validation.isValidEmail s = true ->
  JS.all_chars (fun c => negb (JS.is_space c)) s = true /\
  count_char "@" s = 1%nat /\ (5 <= String.length s)%nat.
Proof.
  intros H. apply isValidEmail_spec in H as (l & d & t & -> & Hl & Hd & Ht).
  apply email_word_facts in Hl as (Hl1 & Hl2 & Hl3).
  apply email_word_facts in Hd as (Hd1 & Hd2 & Hd3).
  apply email_word_facts in Ht as (Ht1 & Ht2 & Ht3).
  rewrite !all_chars_app, !count_char_app, !length_app.
  rewrite Hl1, Hd1, Ht1, Hl2, Hd2, Ht2. simpl.
  split; [reflexivity|]. split; [reflexivity | lia].
Qed.

(** The theorem applied to "a@b.co". *)
Lemma valid_email_facts_witness : count_char "@" "a@b.co" = 1%nat.
Proof. exact (proj1 (proj2 (valid_email_facts "a@b.co" eq_refl))). Defined.

(** [transformError] always produces a message that is not empty.  With a
    response the message is [data.message] when that is truthy, else
    [data.error] when that is truthy, else "An error occurred": the
    status-specific texts of the [switch] are never used.  The status is
    that of the response, or 0 when there is none. *)
Theorem transformError_message (err : Client.AxiosError) :
  JS.truthy (Client.api_message (Client.transformError err)) = true /\
  (forall status d,
     Client.ax_response err = Some (Client.AxiosResponse status d) ->
     Client.api_status (Client.transformError err) = status /\
     Client.api_message (Client.transformError err) =
       match d with
       | Client.Obj e _ m =>
           Client.or_else m (Client.or_else e (JS.VStr "An error occurred"))
       | Client.Prim _ => JS.VStr "An error occurred"
       end) /\
  (Client.ax_response err = None ->
   Client.api_status (Client.transformError err) = 0 /\
   Client.api_details (Client.transformError err) = None).
Proof.
  unfold Client.transformError, Client.or_else.
  destruct (Client.ax_response err) as [[status d]|].
  - destruct d as [e ds m|v].
    + destruct (JS.truthy m) eqn:Hm; destruct (JS.truthy e) eqn:He;
        destruct (status =? 400), (status =? 404), (status =? 500);
        cbn [Client.api_message Client.api_status Client.api_details JS.truthy
             JS.is_empty negb];
        rewrite ?Hm, ?He;
        (split; [reflexivity || assumption|]);
        (split; [|discriminate]); intros ? ? [= <- <-];
        rewrite ?Hm, ?He; split; reflexivity.
    + destruct (status =? 400), (status =? 404), (status =? 500);
        (split; [reflexivity|]); (split; [|discriminate]);
        intros ? ? [= <- <-]; split; reflexivity.
  - split.
    + destruct (Client.ax_message err) as [[|c s]|]; reflexivity.
    + split; [discriminate|]. intros _. split; reflexivity.
Qed.

(** The theorem applied to the 500 answer of the server. *)
Lemma transformError_message_witness :
  Client.api_message
    (Client.transformError
       (Client.MakeAxiosError (Some "Request failed with status code 500")
          (Some (Client.AxiosResponse 500
                   (Client.Obj (JS.VStr "Internal server error") JS.VUndefined
                      JS.VUndefined)))))
  = JS.VStr "Internal server error".
Proof.
  exact (proj2 (proj1 (proj2 (transformError_message
           (Client.MakeAxiosError (Some "Request failed with status code 500")
              (Some (Client.AxiosResponse 500
                       (Client.Obj (JS.VStr "Internal server error")
                          JS.VUndefined JS.VUndefined))))))
           500 _ eq_refl)).
Defined.

(* ===================================================================== *)
(** * The form and the server *)
(* ===================================================================== *)

Section FormFacts.
Import JS.

Lemma form_phone_char (c : ascii) : Form.phone_char c = Validation.phone_char c.
Proof.
  unfold Form.phone_char, Validation.phone_char.
  destruct (is_digit c), (is_space c), (Ascii.eqb c "("), (Ascii.eqb c ")"),
    (Ascii.eqb c "+"), (Ascii.eqb c "-"); reflexivity.
Qed.

Lemma all_chars_ext (p q : ascii -> bool) (s : string) :
  (forall c, p c = q c) -> all_chars p s = all_chars q s.
Proof.
  intros H. induction s as [|c s IH]; simpl; [reflexivity|]. now rewrite H, IH.
Qed.

Lemma test_plus_cls (p : ascii -> bool) (s : string) :
  test (Plus (Cls p)) s = negb (is_empty s) && all_chars p s.
Proof.
  destruct (test (Plus (Cls p)) s) eqn:E.
  - apply test_lang, lang_plus_cls in E as [-> ->]. reflexivity.
  - destruct (is_empty s) eqn:He; [reflexivity|].
    destruct (all_chars p s) eqn:Ha; [|reflexivity].
    assert (H : test (Plus (Cls p)) s = true)
      by (apply test_lang, lang_plus_cls; auto).
    congruence.
Qed.

(** The trimmed name the form sends passes both rule sets. *)
Lemma sent_name_ok (s : string) :
  is_empty (trim s) = false -> (String.length s <= 50)%nat ->
  name_ok (VStr (trim s)).
Proof.
  intros Hne Hlen. exists (trim s). split; [reflexivity|]. split.
  - rewrite <- trim_is_empty, trim_idempotent. exact Hne.
  - pose proof (trim_length s). lia.
Qed.

Lemma sent_optional (P : string -> Prop) (s : string) :
  (is_empty (trim s) = false -> P (trim s)) ->
  optional_ok P (Form.trim_or_undefined s).
Proof.
  intros H. unfold Form.trim_or_undefined.
  destruct (is_empty (trim s)) eqn:E; [now left|].
  right. exists (trim s). auto.
Qed.

Lemma trim_nonempty_source (s : string) :
  is_empty (trim s) = false -> is_empty s = false.
Proof. destruct s; [discriminate | reflexivity]. Qed.

Lemma service_limit_sent (n : nat) (long : list violation) (s : string) :
  (if provided (Form.trim_or_undefined s) then
     if length_gt (Form.trim_or_undefined s) n then long else []
   else []) =
  if (n <? String.length (trim s))%nat then long else [].
Proof.
  unfold Form.trim_or_undefined.
  destruct (trim s) as [|c t] eqn:E; simpl; [reflexivity|].
  reflexivity.
Qed.

End FormFacts.

(** What the server makes of a form that passed the form's own validation:
    the middleware rejects the submitted body exactly when the phone is not
    blank and has fewer than ten digits, with "Invalid phone format" as the
    only violation; the service rule set rejects it exactly when the
    trimmed email has more than 100 or the trimmed phone more than 20
    characters.  Every other rule of the server is implied by the form's. *)
Theorem form_then_server (f : Form.FormData) :
  Form.validateForm f = true ->
  Validation.validateContact_errors (Form.contactData f) =
    (if JS.all_chars JS.is_space (Form.phone f) ||
        (10 <=? count_digits (Form.phone f))%nat
     then [] else [Violation "phone" "Invalid phone format"]) /\
  Service.validateContactData (Form.contactData f) =
    ((if (100 <? String.length (JS.trim (Form.email f)))%nat
      then [Violation "email" "Email must not exceed 100 characters"]
      else []) ++
     (if (20 <? String.length (JS.trim (Form.phone f)))%nat
      then [Violation "phone" "Phone must not exceed 20 characters"]
      else []))%list.
Proof.
  unfold Form.validateForm, Form.validateForm_errors. cbn [Form.Errors.firstName
    Form.Errors.lastName Form.Errors.email Form.Errors.phone
    Form.Errors.company Form.Errors.notes].
  intros H.
  apply andb_true_iff in H as [H Gno]. apply andb_true_iff in H as [H Gco].
  apply andb_true_iff in H as [H Gph]. apply andb_true_iff in H as [H Gem].
  apply andb_true_iff in H as [Gfn Gln].
  (* the six facts the form has checked *)
  assert (Hfn : JS.is_empty (JS.trim (Form.firstName f)) = false /\
                (String.length (Form.firstName f) <= 50)%nat).
  { destruct (JS.is_empty (JS.trim (Form.firstName f))); [discriminate|].
    destruct (50 <? String.length (Form.firstName f))%nat eqn:E;
      [discriminate|]. apply Nat.ltb_ge in E. auto. }
  assert (Hln : JS.is_empty (JS.trim (Form.lastName f)) = false /\
                (String.length (Form.lastName f) <= 50)%nat).
  { destruct (JS.is_empty (JS.trim (Form.lastName f))); [discriminate|].
    destruct (50 <? String.length (Form.lastName f))%nat eqn:E;
      [discriminate|]. apply Nat.ltb_ge in E. auto. }
  assert (Hem : JS.is_empty (JS.trim (Form.email f)) = false ->
                Validation.isValidEmail (Form.email f) = true).
  { intros E. rewrite (trim_nonempty_source _ E), E in Gem.
    change Form.emailRegex with Validation.emailRegex in Gem.
    unfold Validation.isValidEmail.
    destruct (JS.test Validation.emailRegex (Form.email f));
      [reflexivity | discriminate]. }
  assert (Hph : JS.is_empty (JS.trim (Form.phone f)) = false ->
                JS.all_chars Validation.phone_char (Form.phone f) = true).
  { intros E. rewrite (trim_nonempty_source _ E), E in Gph.
    unfold Form.phoneRegex in Gph.
    rewrite test_plus_cls, (trim_nonempty_source _ E) in Gph.
    rewrite (all_chars_ext _ _ _ form_phone_char) in Gph.
    destruct (JS.all_chars Validation.phone_char (Form.phone f));
      [reflexivity | discriminate]. }
  assert (Hco : JS.is_empty (JS.trim (Form.company f)) = false ->
                (String.length (JS.trim (Form.company f)) <= 100)%nat).
  { intros E. rewrite (trim_nonempty_source _ E) in Gco.
    pose proof (trim_length (Form.company f)).
    destruct (100 <? String.length (Form.company f))%nat eqn:E';
      [discriminate|]. apply Nat.ltb_ge in E'. lia. }
  assert (Hno : JS.is_empty (JS.trim (Form.notes f)) = false ->
                (String.length (JS.trim (Form.notes f)) <= 500)%nat).
  { intros E. rewrite (trim_nonempty_source _ E) in Gno.
    pose proof (trim_length (Form.notes f)).
    destruct (500 <? String.length (Form.notes f))%nat eqn:E';
      [discriminate|]. apply Nat.ltb_ge in E'. lia. }
  clear - Hfn Hln Hem Hph Hco Hno.
  destruct Hfn as [Hfn1 Hfn2]. destruct Hln as [Hln1 Hln2].
  pose proof (sent_name_ok _ Hfn1 Hfn2) as Nfn.
  pose proof (sent_name_ok _ Hln1 Hln2) as Nln.
  (* a valid email has no white space, so trimming leaves it alone *)
  assert (Etrim : JS.is_empty (JS.trim (Form.email f)) = false ->
                  JS.trim (Form.email f) = Form.email f).
  { intros E. apply trim_no_space.
    exact (valid_email_no_space _ (Hem E)). }
  assert (Oem : optional_ok email_shape (Form.trim_or_undefined (Form.email f))).
  { apply sent_optional. intros E. rewrite (Etrim E).
    apply isValidEmail_spec. auto. }
  assert (Oco : optional_ok (fun s => (String.length s <= 100)%nat)
                  (Form.trim_or_undefined (Form.company f)))
    by (apply sent_optional; exact Hco).
  assert (Ono : optional_ok (fun s => (String.length s <= 500)%nat)
                  (Form.trim_or_undefined (Form.notes f)))
    by (apply sent_optional; exact Hno).
  split.
  - unfold Validation.validateContact_errors, Form.contactData.
    cbn [firstName lastName email phone company notes].
    rewrite (proj2 (proj1 (middleware_name_ok _)) Nfn),
      (proj2 (proj2 (middleware_name_ok _)) Nln),
      (proj2 (middleware_email_ok _) Oem),
      (proj2 (middleware_company_ok _) Oco),
      (proj2 (middleware_notes_ok _) Ono).
    rewrite !app_nil_l, !app_nil_r.
    unfold Validation.check_phone, Form.trim_or_undefined.
    rewrite <- trim_is_empty.
    destruct (JS.is_empty (JS.trim (Form.phone f))) eqn:E; [reflexivity|].
    cbn [orb].
    assert (Hp : JS.provided (JS.VStr (JS.trim (Form.phone f))) = true)
      by (simpl; now rewrite E).
    specialize (Hph eq_refl).
    rewrite Hp. unfold Validation.isValidPhone, Validation.phoneRegex.
    rewrite test_plus_cls, E, (all_chars_trim _ _ Hph).
    fold (count_digits (JS.trim (Form.phone f))). rewrite count_digits_trim.
    cbn [negb andb orb].
    destruct (10 <=? count_digits (Form.phone f))%nat; reflexivity.
  - unfold Service.validateContactData, Form.contactData.
    cbn [firstName lastName email phone company notes].
    rewrite (proj2 (proj1 (service_name_ok _)) Nfn),
      (proj2 (proj2 (service_name_ok _)) Nln).
    unfold Service.check_phone, Service.check_company, Service.check_notes.
    rewrite !service_limit_sent.
    assert (Cco : (100 <? String.length (JS.trim (Form.company f)))%nat = false).
    { apply Nat.ltb_ge.
      destruct (JS.is_empty (JS.trim (Form.company f))) eqn:E; [|now apply Hco].
      destruct (JS.trim (Form.company f)); [simpl; lia | discriminate]. }
    assert (Cno : (500 <? String.length (JS.trim (Form.notes f)))%nat = false).
    { apply Nat.ltb_ge.
      destruct (JS.is_empty (JS.trim (Form.notes f))) eqn:E; [|now apply Hno].
      destruct (JS.trim (Form.notes f)); [simpl; lia | discriminate]. }
    rewrite Cco, Cno, !app_nil_l, !app_nil_r. f_equal.
    unfold Service.check_email, Form.trim_or_undefined.
    destruct (JS.is_empty (JS.trim (Form.email f))) eqn:E.
    + destruct (JS.trim (Form.email f)); [reflexivity | discriminate].
    + assert (Hp : JS.provided (JS.VStr (JS.trim (Form.email f))) = true)
        by (simpl; now rewrite E).
      rewrite Hp. cbn [JS.to_string]. rewrite (Etrim eq_refl).
      pose proof (Hem eq_refl) as Hv. unfold Validation.isValidEmail in Hv.
      rewrite Hv. reflexivity.
Qed.

(** The theorem applied to a form whose phone is the one of the README,
    "+1-555-0123": the form accepts it, the middleware does not. *)
Lemma form_then_server_witness :
  let f := Form.MakeData "John" "Doe" "john.doe@example.com" "+1-555-0123"
             "Acme Corp" "" in
  Form.validateForm f = true /\
  Validation.validateContact_errors (Form.contactData f) =
    [Violation "phone" "Invalid phone format"] /\
  Service.validateContactData (Form.contactData f) = [].
Proof.
  intros f.
  assert (H : Form.validateForm f = true) by reflexivity.
  destruct (form_then_server f H) as [Hm Hs].
  split; [exact H|]. split; [exact Hm | exact Hs].
Defined.
(* ===================================================================== *)
(** * The order of the checks and the errors of the store *)
(* ===================================================================== *)

(** Through [PUT /api/contacts/:id] the body is checked by the middleware
    before the existence of the contact: a body the middleware rejects is
    answered 400 with the middleware's violations and without any lookup,
    also for an id that is not stored; a body the middleware accepts, sent
    to an id that is not stored, is answered 404 after one lookup, whatever
    the service rule set makes of it. *)
Theorem put_order (development : bool) (id : string) (p : payload) (w : world) :
  Validation.validateId (Some id) = Next ->
  (Validation.validateContact p <> Next ->
   exists res,
     Routes.put development id p w = (Return res, w) /\
     status res = 400 /\ error_of res = Some "Validation failed" /\
     details_of res = Validation.validateContact_errors p) /\
  (Validation.validateContact p = Next -> healthy (db w) = true ->
   Db.find (db w) (JS.parseInt10 id) = None ->
   exists res,
     Routes.put development id p w =
       (Return res, after_lookup w (JS.parseInt10 id)) /\
     status res = 404 /\ error_of res = Some "Contact not found").
Proof.
  intros Hid. unfold Routes.put. rewrite Hid. split.
  - unfold Validation.validateContact.
    destruct (0 <? List.length (Validation.validateContact_errors p))%nat;
      [|intros H; now contradiction H].
    intros _. eexists. split; [reflexivity|].
    split; [reflexivity|]. split; reflexivity.
  - intros Hm Hh Hfind. rewrite Hm.
    unfold Routes.updateContact, try_catch, bind, Service.update, bind.
    rewrite (findById_healthy _ _ Hh), Hfind.
    destruct development; eexists; (split; [reflexivity|]); split; reflexivity.
Qed.

(** The theorem applied to a body without names, sent to the id 7 of an
    empty table: the answer is 400, not 404. *)
Lemma put_order_witness :
  let p := Payload JS.VUndefined JS.VUndefined JS.VUndefined JS.VUndefined
             JS.VUndefined JS.VUndefined in
  let w := World (Db.Make ∅ 1 0 []) [] in
  exists res, Routes.put false "7" p w = (Return res, w) /\ status res = 400.
Proof.
  intros p w.
  assert (Hid : Validation.validateId (Some "7") = Next) by reflexivity.
  assert (Hm : Validation.validateContact p <> Next) by discriminate.
  destruct (proj1 (put_order false "7" p w Hid) Hm) as (res & H & Hs & _).
  exists res. split; [exact H | exact Hs].
Defined.



(** An [AppError] with a status other than 0 is answered with that status
    and with its own message, whatever the message says and whatever the
    status is: the classification by words is not consulted, and no details
    are sent. *)
Theorem app_error_response (development : bool) (msg : string) (code : Z) :
  code <> 0 ->
  exists r,
    ErrorHandler.errorHandler development (ErrorHandler.AppError msg code)
      = Return r /\
    status r = code /\ error_of r = Some msg /\ details_of r = [].
Proof.
  intros Hc. unfold ErrorHandler.errorHandler, ErrorHandler.getStatusCode,
    ErrorHandler.AppError, ErrorHandler.truthy_code.
  cbn [err_statusCode err_details].
  apply Z.eqb_neq in Hc. rewrite Hc. cbn [negb].
  eexists. split; [reflexivity|]. split; [reflexivity|].
  split; reflexivity.
Qed.

(** The theorem applied to an AppError whose message contains the word
    "not found" and whose status is 500. *)
Lemma app_error_response_witness :
  exists r,
    ErrorHandler.errorHandler false (ErrorHandler.AppError "Cache not found" 500)
      = Return r /\
    status r = 500 /\ error_of r = Some "Cache not found".
Proof.
  assert (Hc : 500 <> 0) by lia.
  destruct (app_error_response false "Cache not found" 500 Hc)
    as (r & H & Hs & He & _).
  exists r. split; [exact H|]. split; [exact Hs | exact He].
Defined.
